(** * scry: aggregation, extraction, identifier generation and download engine

    A shallow embedding of the pure core of [scry.py] and of its download loop,
    with the properties of the specification stated over it.

    Conventions of the embedding.
    - A Python [str] is a [string]: a sequence of 8-bit code points.  The
      character classes the program tests ([a-z], [0-9], whitespace, the
      separators, the characters illegal in file names) are given on that
      range; the en dash and the em dash of the title separators lie outside
      it.  [str.lower] is Python's on the whole range.  [str.upper], which
      the program uses for the reserved device names only, and [str.title]
      act on the ASCII letters: the code points from 128 on are left in
      place, which cannot make or unmake a reserved name.
    - [os.path] is [posixpath].
    - A Python [set] used for membership only is a [gset]; the file system is
      a [gmap] from paths to contents.
    - A raised exception is a [None] (or an explicit error value) that the
      enclosing [try] of the source inspects. *)

From Stdlib Require Import ZArith Lia Ascii String List Bool.
From Stdlib Require Import Decimal DecimalNat DecimalString.
From stdpp Require Import base decidable option list strings gmap sets.

Local Open Scope Z_scope.

(** ** Python string primitives *)

Module Py.

Definition ord (c : ascii) : Z := Z.of_N (N_of_ascii c).

Definition chr (n : Z) : ascii := ascii_of_N (Z.to_N n).

Definition in_range (lo hi : Z) (c : ascii) : bool :=
  (lo <=? ord c) && (ord c <=? hi).

Definition is_lower (c : ascii) : bool := in_range 97 122 c.
Definition is_upper (c : ascii) : bool := in_range 65 90 c.
Definition is_digit (c : ascii) : bool := in_range 48 57 c.
Definition is_alpha (c : ascii) : bool := is_lower c || is_upper c.

(** [str.isspace] on the 8-bit range; also the class [\s] of a [str]
    pattern and the separators of [str.split()] and [str.strip()]. *)
Definition is_space (c : ascii) : bool :=
  in_range 9 13 c || in_range 28 32 c || (ord c =? 133) || (ord c =? 160).

(** [c.lower()]: the letters A to Z, and the capital letters of the range
    192 to 222 (the multiplication sign, 215, is not one). *)
Definition lower_char (c : ascii) : ascii :=
  if is_upper c || (in_range 192 222 c && negb (ord c =? 215))
  then chr (ord c + 32) else c.

Definition upper_char (c : ascii) : ascii :=
  if is_lower c then chr (ord c - 32) else c.

Fixpoint smap (f : ascii → ascii) (s : string) : string :=
  match s with
  | EmptyString => EmptyString
  | String c r => String (f c) (smap f r)
  end.

Fixpoint sfilter (p : ascii → bool) (s : string) : string :=
  match s with
  | EmptyString => EmptyString
  | String c r => if p c then String c (sfilter p r) else sfilter p r
  end.

Fixpoint sall (p : ascii → bool) (s : string) : bool :=
  match s with
  | EmptyString => true
  | String c r => p c && sall p r
  end.

Definition lower : string → string := smap lower_char.
Definition upper : string → string := smap upper_char.

Definition len (s : string) : Z := Z.of_nat (String.length s).

Definition is_empty (s : string) : bool :=
  match s with EmptyString => true | _ => false end.

Fixpoint sdrop (n : nat) (s : string) : string :=
  match n, s with
  | O, _ => s
  | S k, EmptyString => EmptyString
  | S k, String _ r => sdrop k r
  end.

Fixpoint stake (n : nat) (s : string) : string :=
  match n, s with
  | O, _ => EmptyString
  | S k, EmptyString => EmptyString
  | S k, String c r => String c (stake k r)
  end.

(** [s[i:j]] for [0 <= i]. *)
Definition slice (i j : Z) (s : string) : string :=
  stake (Z.to_nat (j - i)) (sdrop (Z.to_nat i) s).

Fixpoint startswith (p s : string) : bool :=
  match p, s with
  | EmptyString, _ => true
  | String a p', String b s' => if Ascii.eqb a b then startswith p' s' else false
  | String _ _, EmptyString => false
  end.

(** [sub in s]. *)
Fixpoint contains (sub s : string) : bool :=
  startswith sub s ||
  match s with
  | EmptyString => false
  | String _ r => contains sub r
  end.

Fixpoint last_char (s : string) : option ascii :=
  match s with
  | EmptyString => None
  | String c EmptyString => Some c
  | String _ r => last_char r
  end.

Definition first_char (s : string) : option ascii :=
  match s with
  | EmptyString => None
  | String c _ => Some c
  end.

Definition endswith_char (c : ascii) (s : string) : bool :=
  match last_char s with
  | Some x => Ascii.eqb x c
  | None => false
  end.

(** [s.replace(old, new)] for a non-empty [old]: the occurrences of [old] are
    found left to right and do not overlap.  [skip] counts the characters of
    a matched occurrence that remain to be passed over. *)
Fixpoint replace_from (old new : string) (skip : nat) (s : string) : string :=
  match s with
  | EmptyString => EmptyString
  | String c r =>
      match skip with
      | S k => replace_from old new k r
      | O =>
          if startswith old s
          then new +:+ replace_from old new (String.length old - 1) r
          else String c (replace_from old new O r)
      end
  end.

Definition replace (old new s : string) : string := replace_from old new O s.

(** [s.lstrip(chars)], [s.rstrip(chars)] and [s.strip(chars)], with [chars]
    given as a predicate. *)
Fixpoint lstrip (p : ascii → bool) (s : string) : string :=
  match s with
  | EmptyString => EmptyString
  | String c r => if p c then lstrip p r else s
  end.

Fixpoint rstrip (p : ascii → bool) (s : string) : string :=
  match s with
  | EmptyString => EmptyString
  | String c r =>
      let r' := rstrip p r in
      if is_empty r' && p c then EmptyString else String c r'
  end.

Definition strip (p : ascii → bool) (s : string) : string :=
  rstrip p (lstrip p s).

(** [s.rfind(c)] for a one-character [c]: the highest index, or [-1]. *)
Fixpoint rfind_from (c : ascii) (s : string) (i acc : Z) : Z :=
  match s with
  | EmptyString => acc
  | String x r => rfind_from c r (i + 1) (if Ascii.eqb x c then i else acc)
  end.

Definition rfind (c : ascii) (s : string) : Z := rfind_from c s 0 (-1).

(** [os.path.splitext] of [posixpath]: the extension starts at the last dot
    of the last path component, unless that component has only leading
    dots before it. *)
Definition splitext (p : string) : string * string :=
  let sepIndex := rfind "/" p in
  let dotIndex := rfind "." p in
  if (sepIndex <? dotIndex)
     && negb (sall (Ascii.eqb ".") (slice (sepIndex + 1) dotIndex p))
  then (slice 0 dotIndex p, sdrop (Z.to_nat dotIndex) p)
  else (p, EmptyString).

(** The prefix of [s] before the first character satisfying [p], and the rest
    from that character on. *)
Fixpoint break (p : ascii → bool) (s : string) : string * string :=
  match s with
  | EmptyString => (EmptyString, EmptyString)
  | String c r =>
      if p c then (EmptyString, s)
      else let '(a, b) := break p r in (String c a, b)
  end.

Definition has_char (c : ascii) (s : string) : bool :=
  negb (sall (λ x, negb (Ascii.eqb x c)) s).

(** The longest prefix of [s] made of characters satisfying [p], and the
    rest. *)
Definition span (p : ascii → bool) (s : string) : string * string :=
  break (λ c, negb (p c)) s.

(** [s.split(c)] for a one-character [c]. *)
Fixpoint split_char (c : ascii) (s : string) : list string :=
  match s with
  | EmptyString => [EmptyString]
  | String x r =>
      match split_char c r with
      | w :: ws => if Ascii.eqb x c then EmptyString :: w :: ws else String x w :: ws
      | [] => [EmptyString]
      end
  end.

(** [s.split()]: the maximal runs of characters that are not whitespace.
    [words_from] returns the run that starts [s], possibly empty, and the
    runs after it. *)
Fixpoint words_from (s : string) : string * list string :=
  match s with
  | EmptyString => (EmptyString, [])
  | String c r =>
      let '(w, ws) := words_from r in
      if is_space c then (EmptyString, if is_empty w then ws else w :: ws)
      else (String c w, ws)
  end.

Definition split_ws (s : string) : list string :=
  let '(w, ws) := words_from s in if is_empty w then ws else w :: ws.

(** The characters of the 8-bit range that have a case: the letters a to
    z and A to Z, the letters of the range 192 to 255 (the multiplication
    sign, 215, and the division sign, 247, are not letters), the ordinal
    indicators 170 and 186 and the micro sign 181. *)
Definition is_cased (c : ascii) : bool :=
  is_alpha c
  || (in_range 192 255 c && negb (ord c =? 215) && negb (ord c =? 247))
  || (ord c =? 170) || (ord c =? 181) || (ord c =? 186).

(** The title case of a character: the capital of a small letter, and the
    two letters [Ss] for the sharp s (223).  The title case of the micro
    sign (181) and of the y with diaeresis (255) lies outside the 8-bit
    range: the two are left as they are, and there the function differs
    from [str.title]. *)
Definition title_char (c : ascii) : string :=
  if is_lower c || (in_range 224 254 c && negb (ord c =? 247))
  then String (chr (ord c - 32)) EmptyString
  else if ord c =? 223 then String "S" (String "s" EmptyString)
  else String c EmptyString.

(** [s.title()]: a character that follows a cased character is lowered,
    any other is put in title case. *)
Fixpoint title_from (prev_cased : bool) (s : string) : string :=
  match s with
  | EmptyString => EmptyString
  | String c r =>
      String.append
        (if prev_cased then String (lower_char c) EmptyString
         else title_char c)
        (title_from (is_cased c) r)
  end.

Definition title (s : string) : string := title_from false s.

(** [str(n)] for a natural number. *)
Definition str_of_nat (n : nat) : string :=
  NilEmpty.string_of_uint (Nat.to_uint n).

(** [posixpath.join(a, b)]. *)
Definition join (a b : string) : string :=
  if startswith "/" b then b
  else if is_empty a || endswith_char "/" a then a +:+ b
  else a +:+ "/" +:+ b.

(** [posixpath.basename]. *)
Definition basename (p : string) : string :=
  sdrop (Z.to_nat (rfind "/" p + 1)) p.

End Py.

(** ** Constants of the program *)

(** The double quote, written by its code. *)
Definition dquote : ascii := "034"%char.

Definition RESERVED_NAMES : gset string :=
  list_to_set
    (["CON"; "PRN"; "AUX"; "NUL"]
     ++ map (λ i, "COM" +:+ i) ["1"; "2"; "3"; "4"; "5"; "6"; "7"; "8"; "9"]
     ++ map (λ i, "LPT" +:+ i) ["1"; "2"; "3"; "4"; "5"; "6"; "7"; "8"; "9"]).

(** ** Utilities *)

(** [sanitize_filename]. *)
Definition sanitize_filename (name : string) : string :=
  let name :=
    fold_left (λ n c, Py.replace (String c "") "_" n)
      ["<"; ">"; ":"; dquote; "|"; "?"; "*"]%char name in
  let name := Py.replace "\" "_" (Py.replace "/" "_" name) in
  let name := Py.sfilter (λ c, 32 <=? Py.ord c) name in
  let name := Py.strip (λ c, Ascii.eqb c "." || Ascii.eqb c " ") name in
  let name := if Py.is_empty name then "file" else name in
  if bool_decide (Py.upper (Py.splitext name).1 ∈ RESERVED_NAMES)
  then "_" +:+ name
  else name.


(** A call that returns a value or raises. *)
Inductive result (A : Type) : Type :=
  | Ok (a : A)
  | ValueError (msg : string).
Arguments Ok {A} a.
Arguments ValueError {A} msg.

(** Truth value of an [str | None]: [None] and the empty string are false. *)
Definition truthy (o : option string) : bool :=
  match o with
  | Some s => negb (Py.is_empty s)
  | None => false
  end.

(** [resolve_placeholders]. *)
Definition resolve_placeholders (text : string) (domain company : option string)
  : result string :=
  if Py.contains "{domain}" text && negb (truthy domain)
  then ValueError "Dork contains {domain} but --domain not provided"
  else if Py.contains "{company}" text && negb (truthy company)
  then ValueError "Dork contains {company} but --company not provided"
  else
    let out := text in
    let out :=
      match domain with
      | Some d => if truthy domain then Py.replace "{domain}" d out else out
      | None => out
      end in
    let out :=
      match company with
      | Some c => if truthy company then Py.replace "{company}" c out else out
      | None => out
      end in
    Ok out.

(** ** The URL library

    [urllib.parse] is outside the program.  Its splitting of a URL is
    modelled below after [urlsplit] and [urlparse]; two of its services are an
    interface: the validation it runs on an authority that holds brackets
    or code points from 128 on (IPv6 literal syntax, NFKC check), which makes
    [urlparse] raise [ValueError], and the percent-decoding of [unquote]. *)
Class UrlLib : Type := {
  netloc_valid : string → bool;
  unquote : string → string;
}.

(** The library on URLs with a plain host: every authority is accepted, and
    [unquote] leaves a string without percent escapes as it is. *)
Definition plain_urllib : UrlLib :=
  {| netloc_valid := λ _, true; unquote := λ s, s |}.

Module Url.

Record parsed : Type := mk_parsed {
  scheme : string;
  netloc : string;
  path : string;
}.

Definition scheme_char (c : ascii) : bool :=
  Py.is_alpha c || Py.is_digit c
  || Ascii.eqb c "+" || Ascii.eqb c "-" || Ascii.eqb c ".".

Definition uses_params : list string :=
  [""; "ftp"; "hdl"; "prospero"; "http"; "imap"; "https"; "shttp"; "rtsp";
   "rtspu"; "sip"; "sips"; "mms"; "sftp"; "tel"].

(** The scheme, when the text before the first colon is one. *)
Definition split_scheme (url : string) : string * string :=
  let '(pre, rest) := Py.break (Ascii.eqb ":") url in
  match rest, pre with
  | String _ after, String c0 _ =>
      if Py.is_alpha c0 && (Py.ord c0 <? 128) && Py.sall scheme_char pre
      then (Py.lower pre, after)
      else (EmptyString, url)
  | _, _ => (EmptyString, url)
  end.

Definition is_delim (c : ascii) : bool :=
  Ascii.eqb c "/" || Ascii.eqb c "?" || Ascii.eqb c "#".

Definition needs_check (nl : string) : bool :=
  Py.has_char "[" nl || Py.has_char "]" nl
  || negb (Py.sall (λ c, Py.ord c <? 128) nl).

(** [_splitparams]: the path without the parameters of its last segment. *)
Definition splitparams (url : string) : string :=
  if Py.has_char "/" url
  then
    let k := Z.to_nat (Py.rfind "/" url) in
    let '(a, b) := Py.break (Ascii.eqb ";") (Py.sdrop k url) in
    Py.stake k url +:+ a
  else (Py.break (Ascii.eqb ";") url).1.

(** [urlparse(url)], with the components the program reads; [None] when it
    raises [ValueError]. *)
Definition urlparse `{UrlLib} (url : string) : option parsed :=
  let url := Py.lstrip (λ c, Py.ord c <=? 32) url in
  let url :=
    Py.sfilter (λ c, negb (Ascii.eqb c "009" || Ascii.eqb c "013"
                           || Ascii.eqb c "010")) url in
  let '(sch, url) := split_scheme url in
  let '(nl, url) :=
    if Py.startswith "//" url
    then Py.break is_delim (Py.sdrop 2 url)
    else (EmptyString, url) in
  if needs_check nl && negb (netloc_valid nl) then None
  else
    let url := (Py.break (Ascii.eqb "#") url).1 in
    let url := (Py.break (Ascii.eqb "?") url).1 in
    let url :=
      if bool_decide (sch ∈ uses_params) && Py.has_char ";" url
      then splitparams url else url in
    Some (mk_parsed sch nl url).

End Url.

(** ** File classifier *)

Definition ext_char (c : ascii) : bool := Py.is_lower c || Py.is_digit c.

(** A match of [\.[a-z0-9]{2,5}] at the head of [s], followed by a text
    accepted by [tail]: the lengths 5 down to 2 are tried in turn. *)
Definition match_ext (tail : string → bool) (s : string) : bool :=
  match s with
  | String "." r =>
      existsb
        (λ n, Nat.leb n (String.length r)
              && Py.sall ext_char (Py.stake n r) && tail (Py.sdrop n r))
        [5; 4; 3; 2]%nat
  | _ => false
  end.

(** [re.search]: a match at some position of [s], the leftmost first. *)
Fixpoint search (m : string → bool) (s : string) : bool :=
  m s ||
  match s with
  | EmptyString => false
  | String _ r => search m r
  end.

(** [$]: the end of the text, or the position before a final newline. *)
Definition at_end (s : string) : bool :=
  match s with
  | EmptyString => true
  | String "010" EmptyString => true
  | _ => false
  end.

(** [[?#]]. *)
Definition at_query_or_fragment (s : string) : bool :=
  match s with
  | String c _ => Ascii.eqb c "?" || Ascii.eqb c "#"
  | EmptyString => false
  end.

(** [is_file_link]; [None] when [urlparse] raises. *)
Definition is_file_link `{UrlLib} (url : string) : option bool :=
  parsed ← Url.urlparse (Py.lower url);
  let path := Url.path parsed in
  if Py.is_empty path || Py.endswith_char "/" path then Some false
  else if search (match_ext at_end) path then Some true
  else if search (match_ext at_query_or_fragment) (Py.lower url) then Some true
  else Some false.

(** ** Name extraction and email generation *)

Definition TITLE_NOISE : gset string :=
  list_to_set
    ["dr"; "mr"; "mrs"; "ms"; "prof"; "sir"; "phd"; "cpa"; "cfa";
     "the"; "and"; "for"; "with"; "from"; "about"; "into";
     "top"; "best"; "new"; "old"; "bad"; "good"; "big"; "open";
     "all"; "any"; "how"; "why"; "who"; "what"; "our"; "you";
     "security"; "cyber"; "cloud"; "data"; "team"; "lead";
     "senior"; "junior"; "staff"; "chief"; "head"; "vice";
     "mad"; "pro"; "iii"; "inc"; "llc"; "ltd"].

(** An extracted name: (first, last, raw_title, source). *)
Definition name_row : Type := string * string * string * string.

Definition name_key (r : name_row) : string * string :=
  let '(first, last, _, _) := r in (first, last).

(** The [seen] set and the [out] list that [extract_names] threads through
    [_add_name]. *)
Definition names_state : Type := gset (string * string) * list name_row.

(** [_clean_name_token]: [re.sub(r"[^a-z]", "", s.lower())]. *)
Definition _clean_name_token (s : string) : string :=
  Py.sfilter Py.is_lower (Py.lower s).

(** [_add_name]. *)
Definition _add_name (first last raw_title source : string) (st : names_state)
  : names_state :=
  let first := _clean_name_token first in
  let last := _clean_name_token last in
  if Py.is_empty first || Py.is_empty last
     || (Py.len first <? 2) || (Py.len last <? 2)
  then st
  else if bool_decide (first ∈ TITLE_NOISE) || bool_decide (last ∈ TITLE_NOISE)
  then st
  else
    let key := (first, last) in
    if bool_decide (key ∈ st.1) then st
    else ({[ key ]} ∪ st.1, st.2 ++ [(first, last, raw_title, source)]).

(** The separator class [[-|]] of the title patterns, on the 8-bit range: the
    en dash and the em dash of the source's class lie outside it. *)
Definition is_sep (c : ascii) : bool := Ascii.eqb c "-" || Ascii.eqb c "|".

(** [re.split(r"[-|]", title, maxsplit=1)]. *)
Definition split_title (title : string) : list string :=
  let '(a, b) := Py.break is_sep title in
  match b with
  | EmptyString => [a]
  | String _ r => [a; r]
  end.

(** [re.sub(r"[^a-zA-Z\s]", "", part).strip().split()]. *)
Definition name_tokens (part : string) : list string :=
  Py.split_ws
    (Py.strip Py.is_space
       (Py.sfilter (λ c, Py.is_alpha c || Py.is_space c) part)).

(** [(tokens[0], tokens[-1])]. *)
Definition first_and_last (tokens : list string) : option (string * string) :=
  match tokens, last tokens with
  | t0 :: _, Some tn => Some (t0, tn)
  | _, _ => None
  end.

(** [_extract_from_linkedin_title]. *)
Definition _extract_from_linkedin_title (title : string)
  : option (string * string) :=
  let parts := split_title title in
  let tokens := name_tokens (hd EmptyString parts) in
  if (2 <=? length tokens)%nat then first_and_last tokens else None.

(** A match of [([a-zA-Z]+-[a-zA-Z]+-?)] at the head of [s]: its text. *)
Definition match_slug (s : string) : option string :=
  let '(a, r1) := Py.span Py.is_alpha s in
  if Py.is_empty a then None
  else
    match r1 with
    | String "-" r2 =>
        let '(b, r3) := Py.span Py.is_alpha r2 in
        if Py.is_empty b then None
        else Some (a +:+ "-" +:+ b +:+ (if Py.startswith "-" r3 then "-" else ""))
    | _ => None
    end.

(** A literal matched without regard to case ([re.I]). *)
Definition startswith_nocase (lit s : string) : bool :=
  Py.startswith (Py.lower lit) (Py.lower s).

(** [re.search(r"linkedin\.com/in/([a-zA-Z]+-[a-zA-Z]+-?)", url, re.I)]:
    group 1 of the leftmost match. *)
Fixpoint search_slug (s : string) : option string :=
  let here :=
    if startswith_nocase "linkedin.com/in/" s
    then match_slug (Py.sdrop 16 s) else None in
  match here, s with
  | Some g, _ => Some g
  | None, EmptyString => None
  | None, String _ r => search_slug r
  end.

(** [_extract_from_linkedin_url]. *)
Definition _extract_from_linkedin_url (url : string) : option (string * string) :=
  match search_slug url with
  | Some g =>
      let parts := take 2 (Py.split_char "-" (Py.rstrip (Ascii.eqb "-") g)) in
      match parts with
      | [p0; p1] =>
          if forallb (λ p, 2 <=? Py.len p) parts then Some (p0, p1) else None
      | _ => None
      end
  | None => None
  end.

(** [_extract_from_rocketreach_title]. *)
Definition _extract_from_rocketreach_title (title : string)
  : option (string * string) :=
  let parts := split_title title in
  let tokens := name_tokens (hd EmptyString parts) in
  if (2 <=? length tokens)%nat then first_and_last tokens else None.

(** [_extract_from_zoominfo_title]. *)
Definition _extract_from_zoominfo_title (title : string)
  : option (string * string) :=
  if Py.contains "overview" (Py.lower title)
     || Py.contains "company" (Py.lower title)
  then None
  else
    let parts := split_title title in
    let tokens := name_tokens (hd EmptyString parts) in
    if (2 <=? length tokens)%nat then first_and_last tokens else None.

(** [_source_from_url]. *)
Definition _source_from_url `{UrlLib} (url : string) : string :=
  match Url.urlparse url with
  | Some p => Py.replace "www." "" (Url.netloc p)
  | None => EmptyString
  end.

(** The strategy chosen by the host of the link: the value of [extracted]
    before the first [_add_name]. *)
Definition extract_by_host (title link : string) : option (string * string) :=
  let link_lower := Py.lower link in
  if Py.contains "linkedin.com/in/" link_lower then
    match _extract_from_linkedin_title title with
    | Some e => Some e
    | None => _extract_from_linkedin_url link
    end
  else if Py.contains "rocketreach.co" link_lower then
    _extract_from_rocketreach_title title
  else if Py.contains "zoominfo.com" link_lower then
    _extract_from_zoominfo_title title
  else
    let parts := split_title title in
    if (2 <=? length parts)%nat then
      let tokens := name_tokens (hd EmptyString parts) in
      if (2 <=? length tokens)%nat && (length tokens <=? 4)%nat
      then first_and_last tokens else None
    else None.

(** The body of the loop of [extract_names]. *)
Definition extract_item `{UrlLib} (st : names_state) (item : string * string)
  : names_state :=
  let '(title, link) := item in
  let link_lower := Py.lower link in
  let src := _source_from_url link in
  let st :=
    match extract_by_host title link with
    | Some (f, l) => _add_name f l title src st
    | None => st
    end in
  if Py.contains "linkedin.com/in/" link_lower then
    match _extract_from_linkedin_url link with
    | Some (f, l) => _add_name f l title src st
    | None => st
    end
  else st.

(** [extract_names]. *)
Definition extract_names `{UrlLib} (items : list (string * string))
  : list name_row :=
  (fold_left extract_item items (∅, [])).2.

(** [s[0]]; [None] stands for [IndexError]. *)
Definition index0 (s : string) : option string :=
  match s with
  | String c _ => Some (String c EmptyString)
  | EmptyString => None
  end.

(** [EMAIL_FORMATS]: the table of the ten conventions. *)
Definition EMAIL_FORMATS (fmt_id : Z)
  : option (string → string → string → option string) :=
  match fmt_id with
  | 1 => Some (λ f l d, Some (f +:+ "." +:+ l +:+ "@" +:+ d))
  | 2 => Some (λ f l d, Some (f +:+ l +:+ "@" +:+ d))
  | 3 => Some (λ f l d, f0 ← index0 f; Some (f0 +:+ l +:+ "@" +:+ d))
  | 4 => Some (λ f l d, Some (f +:+ "@" +:+ d))
  | 5 => Some (λ f l d, Some (l +:+ "@" +:+ d))
  | 6 => Some (λ f l d, Some (l +:+ "." +:+ f +:+ "@" +:+ d))
  | 7 => Some (λ f l d, Some (f +:+ "_" +:+ l +:+ "@" +:+ d))
  | 8 => Some (λ f l d, f0 ← index0 f; Some (f0 +:+ "." +:+ l +:+ "@" +:+ d))
  | 9 => Some (λ f l d, l0 ← index0 l; Some (f +:+ l0 +:+ "@" +:+ d))
  | 10 => Some (λ f l d, Some (f +:+ "." +:+ l +:+ "1@" +:+ d))
  | _ => None
  end.

(** [EMAIL_FORMATS.get(fmt_id, EMAIL_FORMATS[1])]. *)
Definition email_format (fmt_id : Z) : string → string → string → option string :=
  match EMAIL_FORMATS fmt_id with
  | Some fn => fn
  | None => λ f l d, Some (f +:+ "." +:+ l +:+ "@" +:+ d)
  end.

Record email_record : Type := mk_email_record {
  rec_name : string;
  rec_email : string;
  rec_first : string;
  rec_last : string;
  rec_raw_title : string;
  rec_source : string;
}.

Definition emails_state : Type := gset string * list email_record.

(** The body of the loop of [build_emails]. *)
Definition build_email_item (domain : string) (fmt_id : Z)
    (st : emails_state) (n : name_row) : emails_state :=
  let '(first, last, raw_title, source) := n in
  if Py.is_empty first || Py.is_empty last then st
  else
    match email_format fmt_id first last domain with
    | None => st
    | Some email =>
        if bool_decide (email ∈ st.1) then st
        else
          ({[ email ]} ∪ st.1,
           st.2 ++ [mk_email_record
                      (Py.title first +:+ " " +:+ Py.title last)
                      email first last raw_title source])
    end.

(** [build_emails]. *)
Definition build_emails (names : list name_row) (domain : string) (fmt_id : Z)
  : list email_record :=
  (fold_left (build_email_item domain fmt_id) names (∅, [])).2.


(** ** Aggregation of the adapters' outputs *)

(** What a call that the operator may interrupt came to: its value, or a
    [KeyboardInterrupt] with the answer given to [_ask_continue]. *)
Inductive outcome (A : Type) : Type :=
  | Returned (a : A)
  | Interrupted (carry_on : bool).
Arguments Returned {A} a.
Arguments Interrupted {A} carry_on.

(** An organic result of the API: the keys the program reads. *)
Record row : Type := mk_row {
  row_title : option string;
  row_link : option string;
  row_url : option string;
}.

(** [(title, href)] of a row, when one of them is not empty. *)
Definition row_item (r : row) : option (string * string) :=
  let title := default EmptyString (row_title r) in
  let href :=
    if truthy (row_link r) then default EmptyString (row_link r)
    else default EmptyString (row_url r) in
  if negb (Py.is_empty title) || negb (Py.is_empty href)
  then Some (title, href) else None.

(** The API loop of [cmd_contacts], one outcome of [serper_fetch_organic] per
    query. *)
Fixpoint contacts_serper (runs : list (outcome (list row))) (abort : bool)
    (all_items : list (string * string)) : bool * list (string * string) :=
  match runs with
  | [] => (abort, all_items)
  | run :: rest =>
      if abort then (abort, all_items)
      else
        match run with
        | Returned data =>
            contacts_serper rest abort (all_items ++ omap row_item data)
        | Interrupted carry_on => contacts_serper rest (negb carry_on) all_items
        end
  end.

(** [all_items] of [cmd_contacts], from the outcomes of the API calls and
    the list the browser adapter filled. *)
Definition gather_contacts (use_serper use_browser : bool)
    (api_key : option string) (runs : list (outcome (list row)))
    (browser_partial : list (string * string)) : list (string * string) :=
  let '(abort, all_items) :=
    if use_serper && truthy api_key then contacts_serper runs false []
    else (false, []) in
  if use_browser && negb abort then all_items ++ browser_partial
  else all_items.

(** The [seen] set and the [all_links] list of [cmd_files]. *)
Definition links_state : Type := gset string * list (string * string).

Definition add_link (st : links_state) (l : string * string) : links_state :=
  let '(url, dork) := l in
  if bool_decide (url ∈ st.1) then st
  else ({[ url ]} ∪ st.1, st.2 ++ [(url, dork)]).

(** The API loop of [cmd_files], one outcome of [serper_fetch_file_links] per
    dork. *)
Fixpoint files_serper (runs : list (outcome (list (string * string))))
    (abort : bool) (st : links_state) : bool * links_state :=
  match runs with
  | [] => (abort, st)
  | run :: rest =>
      if abort then (abort, st)
      else
        match run with
        | Returned results => files_serper rest abort (fold_left add_link results st)
        | Interrupted carry_on => files_serper rest (negb carry_on) st
        end
  end.

(** [all_links] of [cmd_files]. *)
Definition gather_files (use_serper use_browser : bool)
    (api_key : option string) (runs : list (outcome (list (string * string))))
    (browser_partial : list (string * string)) : list (string * string) :=
  let '(abort, st) :=
    if use_serper && truthy api_key then files_serper runs false (∅, [])
    else (false, (∅, [])) in
  if use_browser && negb abort then (fold_left add_link browser_partial st).2
  else st.2.

(** ** Download engine *)

Definition MIME_TO_EXT : gmap string string :=
  list_to_map
    [("application/pdf", ".pdf");
     ("application/msword", ".doc");
     ("application/vnd.openxmlformats-officedocument.wordprocessingml.document", ".docx");
     ("application/vnd.ms-excel", ".xls");
     ("application/vnd.openxmlformats-officedocument.spreadsheetml.sheet", ".xlsx");
     ("application/vnd.ms-powerpoint", ".ppt");
     ("application/vnd.openxmlformats-officedocument.presentationml.presentation", ".pptx");
     ("application/zip", ".zip");
     ("application/x-zip-compressed", ".zip");
     ("text/plain", ".txt");
     ("text/csv", ".csv");
     ("image/jpeg", ".jpg");
     ("image/png", ".png");
     ("image/gif", ".gif")].

(** A response whose status was accepted: the two headers the program reads,
    the chunks [iter_content] yields, and whether the stream raises after
    them. *)
Record response : Type := mk_response {
  content_disposition : option string;
  content_type : option string;
  body : list string;
  body_raises : bool;
}.

(** The world outside: the outcome of the request made for the [idx]-th URL,
    straight ([requests.get] with [raise_for_status]) or through the solver
    ([download_with_flaresolverr]), [None] when no response comes of it; and
    whether a path can be opened for writing. *)
Record world : Type := mk_world {
  direct_get : nat → string → option string → option response;
  solver_get : nat → string → string → option response;
  can_open : string → bool;
}.

(** The calls of the engine that reach outside, in the order made. *)
Inductive event : Type :=
  | EvRequest (url : string)
  | EvClose (url : string)
  | EvWrite (path : string).

Record run_state : Type := mk_run_state {
  success : Z;
  failed : Z;
  total_bytes : Z;
  file_types : gmap string Z;
  fs : gmap string string;
  trace : list event;
}.

(** The leftmost position of [s] at which [lit] is followed by a text that
    [group] accepts: what [group] returns there. *)
Fixpoint search_after (lit : string) (group : string → option string)
    (s : string) : option string :=
  let here :=
    if Py.startswith lit s then group (Py.sdrop (String.length lit) s)
    else None in
  match here, s with
  | Some g, _ => Some g
  | None, EmptyString => None
  | None, String _ r => search_after lit group r
  end.

(** [(c+)] for a class [c]: the longest run, of one character at least. *)
Definition run1 (p : ascii → bool) (s : string) : option string :=
  let '(a, _) := Py.span p s in
  if Py.is_empty a then None else Some a.

Definition is_quote (c : ascii) : bool := Ascii.eqb c dquote || Ascii.eqb c "'".

(** [re.search(r"filename\*=UTF-8''([^;]+)", cd)]. *)
Definition cd_extended (cd : string) : option string :=
  search_after "filename*=UTF-8''" (run1 (λ c, negb (Ascii.eqb c ";"))) cd.

(** [re.search(r'filename=["\']?([^"\';\s]+)', cd)]. *)
Definition cd_basic (cd : string) : option string :=
  search_after "filename="
    (λ s,
       let s' :=
         match s with
         | String c r => if is_quote c then r else s
         | EmptyString => s
         end in
       run1 (λ c, negb (is_quote c || Ascii.eqb c ";" || Py.is_space c)) s')
    cd.

Definition script_exts : list string := [".aspx"; ".php"; ".jsp"; ".cgi"; ".asp"].

(** The name the file is saved under, from the headers and the URL, up to
    [sanitize_filename]; [None] when [urlparse] raises. *)
Definition response_filename `{UrlLib} (idx : nat) (url : string)
    (resp : response) : option string :=
  let cd := default EmptyString (content_disposition resp) in
  let filename : option string :=
    if Py.is_empty cd then None
    else
      match cd_extended cd with
      | Some g => Some (unquote g)
      | None =>
          match cd_basic cd with
          | Some g => Some (Py.strip is_quote g)
          | None => None
          end
      end in
  filename ←
    (if truthy filename then Some (default EmptyString filename)
     else p ← Url.urlparse url; Some (unquote (Py.basename (Url.path p))));
  let ct :=
    Py.lower
      (Py.strip Py.is_space
         (hd EmptyString
            (Py.split_char ";" (default EmptyString (content_type resp))))) in
  let mime_ext := default EmptyString (MIME_TO_EXT !! ct) in
  let filename :=
    if negb (Py.is_empty filename) then
      let cur_ext := Py.lower (Py.splitext filename).2 in
      if bool_decide (cur_ext ∈ script_exts) && negb (Py.is_empty mime_ext)
      then (Py.splitext filename).1 +:+ mime_ext
      else filename
    else filename in
  let filename :=
    if Py.is_empty filename || negb (Py.has_char "." filename)
    then "file_" +:+ Py.str_of_nat idx +:+ mime_ext
    else filename in
  Some (sanitize_filename filename).

(** The loop that looks for a free name, [fuel] turns of it at most. *)
Fixpoint next_free (files : gmap string string) (output_dir base fext : string)
    (fuel counter : nat) : option (string * string) :=
  match fuel with
  | O => None
  | S k =>
      let filename := base +:+ "_" +:+ Py.str_of_nat counter +:+ fext in
      let out_path := Py.join output_dir filename in
      if bool_decide (is_Some (files !! out_path))
      then next_free files output_dir base fext k (S counter)
      else Some (filename, out_path)
  end.

Definition count_failure (st : run_state) : run_state :=
  mk_run_state (success st) (failed st + 1) (total_bytes st) (file_types st)
    (fs st) (trace st).

Definition record_event (e : event) (st : run_state) : run_state :=
  mk_run_state (success st) (failed st) (total_bytes st) (file_types st)
    (fs st) (trace st ++ [e]).

(** The request made for a URL: through the solver when one is configured,
    straight otherwise, with the proxy when one is configured.  [None] is
    a request that raises, and a solver that gives no response. *)
Definition fetch_response (w : world) (proxy flaresolverr_url : option string)
    (idx : nat) (url : string) : option response :=
  match flaresolverr_url with
  | Some fu =>
      if truthy flaresolverr_url then solver_get w idx url fu
      else direct_get w idx url (if truthy proxy then proxy else None)
  | None => direct_get w idx url (if truthy proxy then proxy else None)
  end.

(** The body of the loop of [run_downloads] for the [idx]-th URL.  The result
    is [None] only if the search for a free name runs out of turns. *)
Definition download_one `{UrlLib} (w : world) (output_dir : string)
    (proxy flaresolverr_url : option string) (resume : bool)
    (st : run_state) (idx : nat) (url : string) : option run_state :=
  let st := record_event (EvRequest url) st in
  match fetch_response w proxy flaresolverr_url idx url with
  | None => Some (count_failure st)
  | Some resp =>
      match response_filename idx url resp with
      | None => Some (count_failure st)
      | Some filename =>
          let out_path := Py.join output_dir filename in
          let present := bool_decide (is_Some (fs st !! out_path)) in
          if resume && present then
            let st := record_event (EvClose url) st in
            Some (mk_run_state (success st + 1) (failed st) (total_bytes st)
                    (file_types st) (fs st) (trace st))
          else
            target ←
              (if present then
                 let '(base, fext) := Py.splitext filename in
                 next_free (fs st) output_dir base fext (S (size (fs st))) 1
               else Some (filename, out_path));
            let '(filename, out_path) := target in
            if negb (can_open w out_path) then Some (count_failure st)
            else
              let st := record_event (EvWrite out_path) st in
              let content :=
                fold_left (λ acc chunk, acc +:+ chunk) (body resp) EmptyString in
              let files := <[ out_path := content ]> (fs st) in
              if body_raises resp then
                Some (mk_run_state (success st) (failed st + 1) (total_bytes st)
                        (file_types st) files (trace st))
              else
                let sz := Py.len content in
                let ext := Py.lower (Py.splitext filename).2 in
                let types :=
                  if negb (Py.is_empty ext)
                  then <[ ext := default 0 (file_types st !! ext) + 1 ]>
                         (file_types st)
                  else file_types st in
                Some (mk_run_state (success st + 1) (failed st)
                        (total_bytes st + sz) types files (trace st))
      end
  end.

(** The loop of [run_downloads] over [enumerate(urls, idx)]. *)
Fixpoint download_from `{UrlLib} (w : world) (output_dir : string)
    (proxy flaresolverr_url : option string) (resume : bool)
    (st : run_state) (idx : nat) (urls : list string) : option run_state :=
  match urls with
  | [] => Some st
  | url :: rest =>
      st' ← download_one w output_dir proxy flaresolverr_url resume st idx url;
      download_from w output_dir proxy flaresolverr_url resume st' (S idx) rest
  end.

(** [run_downloads], started on the files [files] of the destination, once
    the destination directory is there.  The messages it prints are left
    out, and [quiet] with them. *)
Definition run_downloads `{UrlLib} (w : world) (files : gmap string string)
    (urls : list string) (output_dir : string)
    (proxy flaresolverr_url : option string) (resume : bool)
  : option run_state :=
  download_from w output_dir proxy flaresolverr_url resume
    (mk_run_state 0 0 0 ∅ files []) 1 urls.

(** ** Query lists *)

(** [CONTACT_QUERIES]. *)
Definition CONTACT_QUERIES : list string :=
  ["site:linkedin.com/in/ " +:+ String dquote ("{company}" +:+ String dquote "");
   "site:rocketreach.co " +:+ String dquote ("{domain}" +:+ String dquote "");
   "site:zoominfo.com/p/ " +:+ String dquote ("{company}" +:+ String dquote "")].

(** [[resolve_placeholders(t, domain, company) for t in templates]]: the
    templates are resolved in order, and the first error is the error of the
    whole list. *)
Fixpoint resolve_all (templates : list string) (domain company : option string)
  : result (list string) :=
  match templates with
  | [] => Ok []
  | t :: rest =>
      match resolve_placeholders t domain company with
      | ValueError msg => ValueError msg
      | Ok q =>
          match resolve_all rest domain company with
          | ValueError msg => ValueError msg
          | Ok qs => Ok (q :: qs)
          end
      end
  end.

(** A template that refers to a placeholder for which no value is there. *)
Definition lacks_value (domain company : option string) (template : string)
  : bool :=
  (Py.contains "{domain}" template && negb (truthy domain))
  || (Py.contains "{company}" template && negb (truthy company)).

(** ** Sources, labels and links *)

(** [_resolve_source], for the value [src] of the option [--source]: the
    pair [(use_serper, use_browser)], or [None] where the program exits
    with status 1. *)
Definition _resolve_source (src : string) (api_key : option string)
  : option (bool * bool) :=
  if String.eqb src "serper" then
    if negb (truthy api_key) then None else Some (true, false)
  else if String.eqb src "browser" then Some (false, true)
  else Some (truthy api_key, true).

(** The class [[a-zA-Z0-9_-]] of [make_run_dir]. *)
Definition label_char (c : ascii) : bool :=
  Py.is_lower c || Py.is_upper c || Py.is_digit c
  || Ascii.eqb c "_" || Ascii.eqb c "-".

(** [safe_label] of [make_run_dir]: every other character becomes an
    underscore, and the first forty characters are kept. *)
Definition safe_label (label : string) : string :=
  Py.stake 40 (Py.smap (λ c, if label_char c then c else "_"%char) label).

(** The directory [make_run_dir] makes and returns, [ts] being the time
    stamp. *)
Definition make_run_dir (base ts kind label : string) : string :=
  Py.join base (ts +:+ "_" +:+ kind +:+ "_" +:+ safe_label label).

(** The file name [cmd_files] gives a link: the text after its last slash,
    [file] if there is none, cut to eighty characters. *)
Definition link_filename (u : string) : string :=
  let last := Py.basename u in
  Py.stake 80 (if Py.is_empty last then "file" else last).

Definition not_amp (c : ascii) : bool := negb (Ascii.eqb c "&").

(** A match of [[?&](?:q|url)=([^&]+)] at the head of [s]: its group. *)
Definition match_redirect (s : string) : option string :=
  match s with
  | String c r =>
      if Ascii.eqb c "?" || Ascii.eqb c "&" then
        if Py.startswith "q=" r then run1 not_amp (Py.sdrop 2 r)
        else if Py.startswith "url=" r then run1 not_amp (Py.sdrop 4 r)
        else None
      else None
  | EmptyString => None
  end.

(** [clean_google_url]. *)
Definition clean_google_url `{UrlLib} (url : string) : option string :=
  let m :=
    if Py.contains "/url?q=" url || Py.contains "/url?url=" url
    then search_after "" match_redirect url
    else None in
  match m with
  | Some g => Some (unquote g)
  | None => if Py.startswith "http" url then Some url else None
  end.

(** ** The API adapter *)

Definition SERPER_MAX_PAGES : Z := 100.

(** The pages [range(1, min(max_pages, SERPER_MAX_PAGES) + 1)]. *)
Definition page_range (max_pages : Z) : list nat :=
  seq 1 (Z.to_nat (Z.min max_pages SERPER_MAX_PAGES)).

(** What the adapter reads of a reply of [serper_search]: [None] for no
    reply or an empty object, else the value of the key [organic], [None]
    when the key is missing or null. *)
Definition reply (A : Type) : Type := option (option (list A)).

(** The loop of [serper_fetch_organic]; [asked] are the pages requested so
    far. *)
Fixpoint organic_loop {A : Type} (serper_search : string → nat → reply A)
    (query : string) (pages asked : list nat) (all_results : list A)
  : list nat * list A :=
  match pages with
  | [] => (asked, all_results)
  | p :: rest =>
      match serper_search query p with
      | None => (asked ++ [p], all_results)
      | Some data =>
          match default [] data with
          | [] => (asked ++ [p], all_results)
          | organic =>
              organic_loop serper_search query rest (asked ++ [p])
                (all_results ++ organic)
          end
      end
  end.

(** [serper_fetch_organic]: the pages requested and the results. *)
Definition serper_fetch_organic {A : Type}
    (serper_search : string → nat → reply A) (query : string) (max_pages : Z)
  : list nat * list A :=
  organic_loop serper_search query (page_range max_pages) [] [].

(** An organic result as [serper_fetch_file_links] reads it: its own link
    and its sitelinks. *)
Record organic : Type := mk_organic {
  org_row : row;
  org_sitelinks : option (list row);
}.

(** [r.get(link) or r.get(url, empty)]. *)
Definition href_of (r : row) : string :=
  if truthy (row_link r) then default EmptyString (row_link r)
  else default EmptyString (row_url r).

(** A loop whose body may raise. *)
Fixpoint foldM {A S : Type} (f : S → A → option S) (l : list A) (s : S)
  : option S :=
  match l with
  | [] => Some s
  | x :: rest => s' ← f s x; foldM f rest s'
  end.

(** The test and the update made for one link; [None] when [is_file_link]
    raises. *)
Definition add_file_link `{UrlLib} (query : string) (st : links_state)
    (href : string) : option links_state :=
  if Py.is_empty href then Some st
  else
    file ← is_file_link href;
    if file && negb (bool_decide (href ∈ st.1))
    then Some ({[ href ]} ∪ st.1, st.2 ++ [(href, query)])
    else Some st.

Definition add_organic `{UrlLib} (query : string) (st : links_state)
    (r : organic) : option links_state :=
  st' ← add_file_link query st (href_of (org_row r));
  foldM (λ st sl, add_file_link query st (href_of sl))
    (default [] (org_sitelinks r)) st'.

(** The loop of [serper_fetch_file_links]. *)
Fixpoint file_links_loop `{UrlLib}
    (serper_search : string → nat → reply organic) (query : string)
    (pages asked : list nat) (st : links_state)
  : option (list nat * links_state) :=
  match pages with
  | [] => Some (asked, st)
  | p :: rest =>
      match serper_search query p with
      | None => Some (asked ++ [p], st)
      | Some data =>
          match default [] data with
          | [] => Some (asked ++ [p], st)
          | rows =>
              st' ← foldM (add_organic query) rows st;
              file_links_loop serper_search query rest (asked ++ [p]) st'
          end
      end
  end.

(** [serper_fetch_file_links]: the pages requested and the links, or [None]
    when a link makes [urlparse] raise. *)
Definition serper_fetch_file_links `{UrlLib}
    (serper_search : string → nat → reply organic) (query : string)
    (max_pages : Z) : option (list nat * list (string * string)) :=
  r ← file_links_loop serper_search query (page_range max_pages) [] (∅, []);
  Some (r.1, r.2.2).

(** ** Predicates of the statements *)

(** The characters [sanitize_filename] is to remove: the seven of its first
    loop (less-than, greater-than, colon, double quote, bar, question mark,
    star), the slash and the backslash. *)
Definition illegal_char (c : ascii) : bool :=
  existsb (Ascii.eqb c) ["<"; ">"; ":"; dquote; "|"; "?"; "*"; "/"; "\"]%char.

Definition dot_or_space (c : ascii) : bool := Ascii.eqb c "." || Ascii.eqb c " ".

(** A character a sanitized name may hold. *)
Definition name_char (c : ascii) : bool :=
  negb (illegal_char c) && (32 <=? Py.ord c).

(** What the replacements of [sanitize_filename] do to one character. *)
Definition scrub_char (c : ascii) : ascii :=
  if illegal_char c then "_"%char else c.

(** The last two steps of [sanitize_filename]: the default name and the
    reserved device names. *)
Definition finish_name (name : string) : string :=
  let name := if Py.is_empty name then "file" else name in
  if bool_decide (Py.upper (Py.splitext name).1 ∈ RESERVED_NAMES)
  then "_" +:+ name
  else name.

(** The template with the occurrences of a placeholder replaced by the value
    supplied for it, if one was. *)
Definition fill (placeholder : string) (value : option string)
    (template : string) : string :=
  if truthy value
  then Py.replace placeholder (default EmptyString value) template
  else template.

(** A text that ends in a dot and two to five characters of [a-z0-9]. *)
Definition ends_with_extension (path : string) : Prop :=
  ∃ a e : string,
    path = a +:+ "." +:+ e
    ∧ (2 ≤ String.length e ≤ 5)%nat ∧ Py.sall ext_char e = true.

(** A text in which a dot and two to five characters of [a-z0-9] come just
    before a question mark or a hash. *)
Definition extension_before_delimiter (url : string) : Prop :=
  ∃ (a e : string) (d : ascii) (b : string),
    url = a +:+ "." +:+ e +:+ String d b
    ∧ (2 ≤ String.length e ≤ 5)%nat ∧ Py.sall ext_char e = true
    ∧ (d = "?"%char ∨ d = "#"%char).

Definition starts_in (p : ascii → bool) (s : string) : bool :=
  match Py.first_char s with Some c => p c | None => false end.

Definition ends_in (p : ascii → bool) (s : string) : bool :=
  match Py.last_char s with Some c => p c | None => false end.

(** The email [build_emails] derives from a candidate, when it derives
    one. *)
Definition generated (domain : string) (fmt_id : Z) (n : name_row)
  : option string :=
  let '(first, last, _, _) := n in
  if Py.is_empty first || Py.is_empty last then None
  else email_format fmt_id first last domain.

(** The record [build_emails] makes of a candidate and its email. *)
Definition record_of (n : name_row) (email : string) : email_record :=
  let '(first, last, raw_title, source) := n in
  mk_email_record (Py.title first +:+ " " +:+ Py.title last)
    email first last raw_title source.

(** The first letter of a name. *)
Definition initial (s : string) : string := Py.stake 1 s.

(** The local part of the conventions as [EMAIL_FORMAT_HELP] documents them:
    1=first.last 2=firstlast 3=flast 4=first 5=last 6=last.first
    7=first_last 8=f.last 9=firstl 10=first.last1. *)
Definition convention (fmt_id : Z) (first last : string) : option string :=
  match fmt_id with
  | 1 => Some (first +:+ "." +:+ last)
  | 2 => Some (first +:+ last)
  | 3 => Some (initial first +:+ last)
  | 4 => Some first
  | 5 => Some last
  | 6 => Some (last +:+ "." +:+ first)
  | 7 => Some (first +:+ "_" +:+ last)
  | 8 => Some (initial first +:+ "." +:+ last)
  | 9 => Some (first +:+ initial last)
  | 10 => Some (first +:+ "." +:+ last +:+ "1")
  | _ => None
  end.

(** The format-id whose convention is used: an unknown one stands for 1. *)
Definition effective_format (fmt_id : Z) : Z :=
  if (1 <=? fmt_id) && (fmt_id <=? 10) then fmt_id else 1.

(** What holds of [seen] and [out] of [build_emails] once the candidates
    [names] are through. *)
Definition emails_invariant (domain : string) (fmt_id : Z)
    (names : list name_row) (st : emails_state) : Prop :=
  (∀ e, e ∈ st.1 ↔ e ∈ map rec_email st.2)
  ∧ NoDup (map rec_email st.2)
  ∧ (∀ n e, n ∈ names → generated domain fmt_id n = Some e → e ∈ st.1)
  ∧ (∀ r, r ∈ st.2 →
       ∃ pre n post,
         names = pre ++ n :: post
         ∧ generated domain fmt_id n = Some (rec_email r)
         ∧ r = record_of n (rec_email r)
         ∧ ∀ m, m ∈ pre → generated domain fmt_id m ≠ Some (rec_email r)).

(** The key [_add_name] makes of a raw name pair, when it keeps the pair. *)
Definition accepted_key (first last : string) : option (string * string) :=
  let first := _clean_name_token first in
  let last := _clean_name_token last in
  if Py.is_empty first || Py.is_empty last
     || (Py.len first <? 2) || (Py.len last <? 2)
  then None
  else if bool_decide (first ∈ TITLE_NOISE) || bool_decide (last ∈ TITLE_NOISE)
  then None
  else Some (first, last).

Definition keys_of (e : option (string * string)) : list (string * string) :=
  match e with
  | Some (f, l) => option_list (accepted_key f l)
  | None => []
  end.

(** The candidate keys of one hit: that of the strategy its host selects,
    and that of the slug of a profile URL. *)
Definition hit_keys (item : string * string) : list (string * string) :=
  let '(title, link) := item in
  keys_of (extract_by_host title link)
  ++ (if Py.contains "linkedin.com/in/" (Py.lower link)
      then keys_of (_extract_from_linkedin_url link) else []).

(** A normalized token: lowercase letters only, two at least, and not a
    word of the noise vocabulary. *)
Definition normalized_token (s : string) : Prop :=
  Py.sall Py.is_lower s = true ∧ 2 ≤ Py.len s ∧ s ∉ TITLE_NOISE.

Definition normalized_key (k : string * string) : Prop :=
  normalized_token k.1 ∧ normalized_token k.2.

(** What holds of [seen] and [out] of [extract_names] once the hits [items]
    are through. *)
Definition names_invariant (items : list (string * string))
    (st : names_state) : Prop :=
  (∀ k, k ∈ st.1 ↔ k ∈ map name_key st.2)
  ∧ NoDup (map name_key st.2)
  ∧ (∀ r, r ∈ st.2 → normalized_key (name_key r))
  ∧ (∀ k, k ∈ st.1 ↔ ∃ item, item ∈ items ∧ k ∈ hit_keys item).

(** The outputs of the API adapter that are kept, in the order of the
    queries: those of the calls that returned, up to an interrupt the
    operator answers by quitting. *)
Fixpoint gathered {A : Type} (runs : list (outcome (list A))) (abort : bool)
  : bool * list A :=
  match runs with
  | [] => (abort, [])
  | run :: rest =>
      if abort then (abort, [])
      else
        match run with
        | Returned data => let '(a, l) := gathered rest abort in (a, data ++ l)
        | Interrupted carry_on => gathered rest (negb carry_on)
        end
  end.

(** The outputs of the adapters in the order they are invoked: the API
    adapter first, when it runs, then the browser adapter, when it runs. *)
Definition adapter_sequence {A : Type} (use_serper use_browser : bool)
    (api_key : option string) (runs : list (outcome (list A)))
    (browser_partial : list A) : list A :=
  let '(abort, api) :=
    if use_serper && truthy api_key then gathered runs false else (false, []) in
  if use_browser && negb abort then api ++ browser_partial else api.

Definition outcome_map {A B : Type} (f : A → B) (o : outcome A) : outcome B :=
  match o with
  | Returned a => Returned (f a)
  | Interrupted carry_on => Interrupted carry_on
  end.

(** What holds of [seen] and [all_links] of [cmd_files] once the links
    [links] are through. *)
Definition links_invariant (links : list (string * string))
    (st : links_state) : Prop :=
  (∀ u, u ∈ st.1 ↔ u ∈ map fst st.2)
  ∧ NoDup (map fst st.2)
  ∧ (∀ l, l ∈ links → l.1 ∈ st.1)
  ∧ (∀ l, l ∈ st.2 →
       ∃ pre post, links = pre ++ l :: post ∧ l.1 ∉ map fst pre).

(** The path tried at turn [n] of the search for a free name. *)
Definition candidate_path (output_dir base fext : string) (n : nat) : string :=
  Py.join output_dir (base +:+ "_" +:+ Py.str_of_nat n +:+ fext).

(** A world for the examples: every request is answered by a PDF of the
    given chunks, but the request for a URL that ends in [/bad], which
    raises; every path can be opened. *)
Definition sample_world (chunks : list string) : world :=
  mk_world
    (λ _ url _,
       if Py.contains "/bad" url then None
       else Some (mk_response None (Some "application/pdf") chunks false))
    (λ _ _ _, None)
    (λ _, true).

(** The candidate a record of [build_emails] was made of. *)
Definition row_of_record (r : email_record) : name_row :=
  (rec_first r, rec_last r, rec_raw_title r, rec_source r).

(** The URLs requested, in the order of the requests. *)
Definition requested (events : list event) : list string :=
  omap (λ e, match e with EvRequest url => Some url | _ => None end) events.

(** The paths opened for writing, in the order of the writes. *)
Definition written (events : list event) : list string :=
  omap (λ e, match e with EvWrite path => Some path | _ => None end) events.

(** The bytes written for a response: its chunks, one after the other. *)
Definition body_content (resp : response) : string :=
  fold_left (λ acc chunk, acc +:+ chunk) (body resp) EmptyString.

(** The name and the path a response is saved under when it is not
    skipped: the sanitized name, or the first free name with a counter
    when the sanitized name is taken. *)
Definition save_target (files : gmap string string)
    (output_dir filename : string) : option (string * string) :=
  if bool_decide (is_Some (files !! Py.join output_dir filename)) then
    let '(base, fext) := Py.splitext filename in
    next_free files output_dir base fext (S (size files)) 1
  else Some (filename, Py.join output_dir filename).

(** The organic results of a page, as the adapter reads them. *)
Definition page_rows {A : Type} (serper_search : string → nat → reply A)
    (query : string) (p : nat) : list A :=
  match serper_search query p with
  | Some data => default [] data
  | None => []
  end.

(** The links of an organic result, in the order the adapter reads them. *)
Definition hrefs_of (r : organic) : list string :=
  href_of (org_row r) :: map href_of (default [] (org_sitelinks r)).

(** The links of the pages [asked]. *)
Definition offered (serper_search : string → nat → reply organic)
    (query : string) (asked : list nat) : list string :=
  flat_map (λ p, flat_map hrefs_of (page_rows serper_search query p)) asked.

(** What holds of the links kept once the links [hrefs] were read. *)
Definition file_links_invariant `{UrlLib} (query : string)
    (hrefs : list string) (st : links_state) : Prop :=
  (∀ u, u ∈ st.1 ↔ u ∈ st.2.*1)
  ∧ NoDup st.2.*1
  ∧ Forall (λ l, l.2 = query ∧ l.1 ≠ "" ∧ is_file_link l.1 = Some true
                 ∧ l.1 ∈ hrefs) st.2
  ∧ (∀ h, h ∈ hrefs → h ≠ "" → is_file_link h = Some true → h ∈ st.2.*1).

(** The number of files the table of extensions accounts for. *)
Definition counted (types : gmap string Z) : Z :=
  map_fold (λ _ n acc, n + acc) 0 types.

(** What holds of the counters of [run_downloads] at every turn. *)
Definition stats_invariant (st : run_state) : Prop :=
  counted (file_types st) ≤ success st
  ∧ counted (file_types st) ≤ Z.of_nat (length (written (trace st)))
  ∧ 0 ≤ total_bytes st
  ∧ 0 ≤ failed st
  ∧ map_Forall (λ ext n, ext ≠ "" ∧ Py.lower ext = ext ∧ 1 ≤ n)
      (file_types st).




(** * Properties *)

(** ** Strings *)

Section py_lemmas.
Implicit Types (s r : string) (c : ascii) (p q : ascii → bool).

Lemma append_cons c s r : String c s +:+ r = String c (s +:+ r).
Proof. reflexivity. Qed.

Lemma append_nil_l s : "" +:+ s = s.
Proof. reflexivity. Qed.

Lemma append_nil_r s : s +:+ "" = s.
Proof. induction s as [|c s IH]; [done|]. by rewrite append_cons, IH. Qed.

Lemma append_assoc s r t : (s +:+ r) +:+ t = s +:+ (r +:+ t).
Proof. induction s as [|c s IH]; [done|]. by rewrite !append_cons, IH. Qed.

Lemma is_empty_true s : Py.is_empty s = true ↔ s = "".
Proof. by destruct s. Qed.

Lemma is_empty_false s : Py.is_empty s = false ↔ s ≠ "".
Proof. by destruct s. Qed.

Lemma smap_smap (f g : ascii → ascii) s :
  Py.smap f (Py.smap g s) = Py.smap (λ c, f (g c)) s.
Proof. induction s as [|c s IH]; simpl; [done|]. by rewrite IH. Qed.

Lemma smap_ext (f g : ascii → ascii) s :
  (∀ c, f c = g c) → Py.smap f s = Py.smap g s.
Proof. intros E. induction s as [|c s IH]; simpl; [done|]. by rewrite E, IH. Qed.

Lemma smap_id_on (f : ascii → ascii) p s :
  (∀ c, p c = true → f c = c) → Py.sall p s = true → Py.smap f s = s.
Proof.
  intros E. induction s as [|c s IH]; simpl; [done|].
  intros [Hc Hs]%andb_true_iff. by rewrite E, IH.
Qed.

Lemma sall_smap p (f : ascii → ascii) s :
  (∀ c, p (f c) = true) → Py.sall p (Py.smap f s) = true.
Proof. intros E. induction s as [|c s IH]; simpl; [done|]. by rewrite E, IH. Qed.

Lemma sall_impl p q s :
  (∀ c, p c = true → q c = true) → Py.sall p s = true → Py.sall q s = true.
Proof.
  intros E. induction s as [|c s IH]; simpl; [done|].
  intros [Hc Hs]%andb_true_iff. by rewrite E, IH.
Qed.

Lemma sall_append p s r :
  Py.sall p (s +:+ r) = Py.sall p s && Py.sall p r.
Proof.
  induction s as [|c s IH]; [done|].
  rewrite append_cons. simpl. by rewrite IH, andb_assoc.
Qed.

Lemma sall_sfilter p s : Py.sall p (Py.sfilter p s) = true.
Proof.
  induction s as [|c s IH]; simpl; [done|].
  destruct (p c) eqn:E; simpl; [by rewrite E|done].
Qed.

Lemma sall_sfilter_keep p q s :
  Py.sall q s = true → Py.sall q (Py.sfilter p s) = true.
Proof.
  induction s as [|c s IH]; simpl; [done|].
  intros [Hc Hs]%andb_true_iff.
  destruct (p c); simpl; [by rewrite Hc, IH|by apply IH].
Qed.

Lemma sfilter_id p s : Py.sall p s = true → Py.sfilter p s = s.
Proof.
  induction s as [|c s IH]; simpl; [done|].
  intros [Hc Hs]%andb_true_iff. by rewrite Hc, IH.
Qed.

(** Replacing a one-character text by another is a map over the
    characters. *)
Lemma replace_char c d s :
  Py.replace (String c "") (String d "") s
  = Py.smap (λ x, if Ascii.eqb c x then d else x) s.
Proof.
  unfold Py.replace. induction s as [|x s IH]; [done|].
  cbn [Py.replace_from Py.startswith Py.smap String.length].
  destruct (Ascii.eqb c x); [|by rewrite IH].
  change (1 - 1)%nat with O. rewrite IH. reflexivity.
Qed.

Lemma sall_lstrip p q s : Py.sall q s = true → Py.sall q (Py.lstrip p s) = true.
Proof.
  induction s as [|c s IH]; simpl; [done|].
  intros H. destruct (p c); [|done].
  apply IH. by apply andb_true_iff in H as [_ ?].
Qed.

Lemma sall_rstrip p q s : Py.sall q s = true → Py.sall q (Py.rstrip p s) = true.
Proof.
  induction s as [|c s IH]; simpl; [done|].
  intros [Hc Hs]%andb_true_iff.
  destruct (Py.is_empty (Py.rstrip p s) && p c); simpl; [done|].
  by rewrite Hc, IH.
Qed.

Lemma sall_strip p q s : Py.sall q s = true → Py.sall q (Py.strip p s) = true.
Proof. intros H. by apply sall_rstrip, sall_lstrip. Qed.

Lemma lstrip_starts p s : starts_in p (Py.lstrip p s) = false.
Proof.
  induction s as [|c s IH]; simpl; [done|].
  destruct (p c) eqn:E; [done|]. unfold starts_in. simpl. done.
Qed.

Lemma rstrip_ends p s : ends_in p (Py.rstrip p s) = false.
Proof.
  unfold ends_in. induction s as [|c s IH]; simpl; [done|].
  destruct (Py.rstrip p s) as [|x r] eqn:E; simpl.
  - destruct (p c) eqn:Hc; simpl; [done|by rewrite Hc].
  - done.
Qed.

Lemma rstrip_starts p s :
  starts_in p s = false → starts_in p (Py.rstrip p s) = false.
Proof.
  unfold starts_in. destruct s as [|c s]; simpl; [done|].
  intros Hc. rewrite Hc, andb_false_r. simpl. done.
Qed.

Lemma lstrip_id p s : starts_in p s = false → Py.lstrip p s = s.
Proof. unfold starts_in. destruct s as [|c s]; simpl; [done|]. by intros ->. Qed.

Lemma rstrip_id p s : ends_in p s = false → Py.rstrip p s = s.
Proof.
  unfold ends_in. induction s as [|c s IH]; simpl; [done|].
  destruct s as [|x r].
  - simpl. by intros ->.
  - intros H. rewrite IH by done. done.
Qed.

Lemma strip_starts p s : starts_in p (Py.strip p s) = false.
Proof. apply rstrip_starts, lstrip_starts. Qed.

Lemma strip_ends p s : ends_in p (Py.strip p s) = false.
Proof. apply rstrip_ends. Qed.

Lemma strip_id p s :
  starts_in p s = false → ends_in p s = false → Py.strip p s = s.
Proof. intros H1 H2. unfold Py.strip. by rewrite lstrip_id, rstrip_id. Qed.

Lemma ends_in_cons p c s :
  s ≠ "" → ends_in p (String c s) = ends_in p s.
Proof. unfold ends_in. by destruct s. Qed.

Lemma rfind_from_cases c s i acc :
  Py.rfind_from c s i acc = acc ∨ i ≤ Py.rfind_from c s i acc.
Proof.
  revert i acc. induction s as [|x s IH]; intros i acc; simpl; [by left|].
  destruct (IH (i + 1) (if Ascii.eqb x c then i else acc)) as [->|H].
  - destruct (Ascii.eqb x c); [right; lia|by left].
  - right. lia.
Qed.

(** The root that [splitext] returns keeps the first character of a name
    that starts with neither a dot nor a slash. *)
Lemma splitext_root_head c s :
  c ≠ "."%char → c ≠ "/"%char →
  ∃ root : string, (Py.splitext (String c s)).1 = String c root.
Proof.
  intros Hdot Hsep. unfold Py.splitext.
  set (sepIndex := Py.rfind "/" (String c s)).
  set (dotIndex := Py.rfind "." (String c s)).
  destruct ((sepIndex <? dotIndex) && _) eqn:E; [|by eexists].
  apply andb_true_iff in E as [E _]. apply Z.ltb_lt in E.
  assert (Hs : sepIndex = -1 ∨ 1 ≤ sepIndex).
  { unfold sepIndex, Py.rfind. simpl.
    destruct (Ascii.eqb_spec c "/") as [|_]; [done|].
    apply rfind_from_cases. }
  assert (Hd : dotIndex = -1 ∨ 1 ≤ dotIndex).
  { unfold dotIndex, Py.rfind. simpl.
    destruct (Ascii.eqb_spec c ".") as [|_]; [done|].
    apply rfind_from_cases. }
  assert (1 ≤ dotIndex) by lia.
  unfold Py.slice. simpl.
  replace (dotIndex - 0) with dotIndex by lia.
  destruct (Z.to_nat dotIndex) as [|k] eqn:Ek; [lia|].
  simpl. by eexists.
Qed.

End py_lemmas.

(** ** The filename sanitizer *)

Section sanitize.
Implicit Types (s name : string) (c : ascii).

Ltac by_cases_on_char c :=
  destruct c as [[] [] [] [] [] [] [] []]; vm_compute; reflexivity.

Lemma scrub_char_name c : illegal_char (scrub_char c) = false.
Proof. by_cases_on_char c. Qed.

Lemma scrub_char_id c : illegal_char c = false → scrub_char c = c.
Proof. unfold scrub_char. by intros ->. Qed.

Lemma sanitize_filename_stages name :
  sanitize_filename name
  = finish_name
      (Py.strip dot_or_space
         (Py.sfilter (λ c, 32 <=? Py.ord c) (Py.smap scrub_char name))).
Proof.
  unfold sanitize_filename, finish_name. cbn [fold_left].
  rewrite !replace_char, !smap_smap.
  rewrite (smap_ext _ scrub_char); [done|].
  intros c. by_cases_on_char c.
Qed.

Lemma scrubbed_name_chars name :
  Py.sall name_char
    (Py.sfilter (λ c, 32 <=? Py.ord c) (Py.smap scrub_char name)) = true.
Proof.
  induction name as [|c s IH]; simpl; [done|].
  destruct (32 <=? Py.ord (scrub_char c)) eqn:E; [|done].
  simpl. unfold name_char at 1. by rewrite scrub_char_name, E, IH.
Qed.

Lemma scrub_id name :
  Py.sall name_char name = true →
  Py.sfilter (λ c, 32 <=? Py.ord c) (Py.smap scrub_char name) = name.
Proof.
  intros H. rewrite (smap_id_on _ name_char) by
    (try done; intros c [Hc _]%andb_true_iff; apply scrub_char_id;
     by apply negb_true_iff).
  apply sfilter_id. revert H. apply sall_impl.
  by intros c [_ ?]%andb_true_iff.
Qed.

Lemma underscore_not_reserved s : String "_" s ∉ RESERVED_NAMES.
Proof.
  unfold RESERVED_NAMES. rewrite elem_of_list_to_set.
  intros H. vm_compute in H.
  repeat (apply elem_of_cons in H as [H|H]; [discriminate H|]).
  by apply elem_of_nil in H.
Qed.

Lemma prefixed_not_reserved name :
  bool_decide (Py.upper (Py.splitext ("_" +:+ name)).1 ∈ RESERVED_NAMES) = false.
Proof.
  apply bool_decide_eq_false.
  destruct (splitext_root_head "_" name) as [root E]; [done..|].
  replace ("_" +:+ name) with (String "_" name) by reflexivity. rewrite E.
  apply underscore_not_reserved.
Qed.

(** What [finish_name] returns on a name already stripped. *)
Lemma finish_name_spec name :
  Py.sall name_char name = true →
  starts_in dot_or_space name = false →
  ends_in dot_or_space name = false →
  let r := finish_name name in
  r ≠ "" ∧ Py.sall name_char r = true
  ∧ starts_in dot_or_space r = false ∧ ends_in dot_or_space r = false
  ∧ bool_decide (Py.upper (Py.splitext r).1 ∈ RESERVED_NAMES) = false.
Proof.
  intros Hall Hs He. unfold finish_name.
  set (n := if Py.is_empty name then "file" else name).
  assert (Hn : n ≠ "" ∧ Py.sall name_char n = true
               ∧ starts_in dot_or_space n = false
               ∧ ends_in dot_or_space n = false).
  { unfold n. destruct name; simpl; [by vm_compute|done]. }
  destruct Hn as (Hne & Hnall & Hns & Hne').
  destruct (bool_decide (Py.upper (Py.splitext n).1 ∈ RESERVED_NAMES)) eqn:E;
    cbv iota.
  - split; [done|]. split.
    { replace ("_" +:+ n) with (String "_" n) by reflexivity.
      cbn [Py.sall]. apply andb_true_iff. split; [by vm_compute|done]. }
    split; [done|]. split.
    { replace ("_" +:+ n) with (String "_" n) by reflexivity.
      by rewrite ends_in_cons. }
    apply prefixed_not_reserved.
  - done.
Qed.

Lemma sanitize_filename_spec name :
  let r := sanitize_filename name in
  r ≠ "" ∧ Py.sall name_char r = true
  ∧ starts_in dot_or_space r = false ∧ ends_in dot_or_space r = false
  ∧ bool_decide (Py.upper (Py.splitext r).1 ∈ RESERVED_NAMES) = false.
Proof.
  simpl. rewrite sanitize_filename_stages. apply finish_name_spec.
  - apply sall_strip, scrubbed_name_chars.
  - apply strip_starts.
  - apply strip_ends.
Qed.

(** C10: [sanitize_filename] is idempotent, and its result is a name that
    is not empty, holds none of the characters less-than, greater-than,
    colon, double quote, bar, question mark and star, no slash or
    backslash and no character below 32, and neither starts nor ends with
    a dot or a space. *)
Theorem sanitize_filename_idempotent_clean (s : string) :
  sanitize_filename (sanitize_filename s) = sanitize_filename s
  ∧ sanitize_filename s ≠ ""
  ∧ Py.sall (λ c, negb (illegal_char c) && (32 <=? Py.ord c))
      (sanitize_filename s) = true
  ∧ starts_in dot_or_space (sanitize_filename s) = false
  ∧ ends_in dot_or_space (sanitize_filename s) = false.
Proof.
  destruct (sanitize_filename_spec s) as (Hne & Hall & Hs & He & Hres).
  split; [|done].
  rewrite (sanitize_filename_stages (sanitize_filename s)).
  rewrite scrub_id, strip_id by done.
  unfold finish_name.
  destruct (sanitize_filename s) eqn:E; [done|].
  simpl Py.is_empty. cbv iota. by rewrite Hres.
Qed.

End sanitize.

(** ** The query resolver *)

Section resolve.
Implicit Types (s template old new : string).

(** A text that does not occur is not replaced. *)
Lemma replace_absent old new s :
  Py.contains old s = false → Py.replace old new s = s.
Proof.
  unfold Py.replace. induction s as [|c s IH]; [done|].
  cbn [Py.contains]. intros [H1 H2]%orb_false_iff.
  cbn [Py.replace_from]. rewrite H1, IH; done.
Qed.

Lemma replace_from_skip old new s r :
  Py.replace_from old new (String.length s) (s +:+ r) = Py.replace old new r.
Proof. induction s as [|c s IH]; [by destruct r|]. exact IH. Qed.

Lemma startswith_append old r : Py.startswith old (old +:+ r) = true.
Proof.
  induction old as [|c s IH]; [done|].
  rewrite append_cons. cbn [Py.startswith]. by rewrite Ascii.eqb_refl.
Qed.

(** An occurrence at the head of the text is replaced, and the search goes
    on after it. *)
Lemma replace_here old new r :
  old ≠ "" → Py.replace old new (old +:+ r) = new +:+ Py.replace old new r.
Proof.
  intros Hne. destruct old as [|c s]; [done|].
  unfold Py.replace at 1. rewrite append_cons.
  cbn [Py.replace_from].
  rewrite <- append_cons, startswith_append.
  f_equal. cbn [String.length]. rewrite Nat.sub_succ, Nat.sub_0_r.
  apply replace_from_skip.
Qed.

(** A character at which the text does not occur is kept. *)
Lemma replace_next old new c r :
  Py.startswith old (String c r) = false →
  Py.replace old new (String c r) = String c (Py.replace old new r).
Proof. intros H. unfold Py.replace. cbn [Py.replace_from]. by rewrite H. Qed.

(** C6: [resolve_placeholders] raises exactly when the template holds
    [{domain}] and no domain was supplied, or holds [{company}] and no
    company was supplied ([None] and the empty string are no value);
    otherwise it returns the template with every occurrence of [{domain}]
    replaced by the domain and then every occurrence of [{company}]
    replaced by the company, as [str.replace] does; the template
    [site:{domain} filetype:pdf] with the domain [acme.com] gives
    [site:acme.com filetype:pdf]. *)
Theorem resolve_placeholders_spec template (domain company : option string) :
  ((∃ msg, resolve_placeholders template domain company = ValueError msg)
   ↔ (Py.contains "{domain}" template = true ∧ truthy domain = false)
     ∨ (Py.contains "{company}" template = true ∧ truthy company = false))
  ∧ match resolve_placeholders template domain company with
    | Ok out => out = fill "{company}" company (fill "{domain}" domain template)
    | ValueError _ => True
    end
  ∧ resolve_placeholders "site:{domain} filetype:pdf" (Some "acme.com") None
    = Ok "site:acme.com filetype:pdf".
Proof.
  split; [|split; [|by vm_compute]].
  - unfold resolve_placeholders.
    destruct (Py.contains "{domain}" template) eqn:Ed,
      (truthy domain) eqn:Td; cbn [andb negb];
      destruct (Py.contains "{company}" template) eqn:Ec,
        (truthy company) eqn:Tc; cbn [andb negb];
      (split; [intros [msg E]; try discriminate E; tauto
              |intros [[? ?]|[? ?]]; try discriminate; by eexists]).
  - unfold resolve_placeholders, fill.
    destruct (Py.contains "{domain}" template && negb (truthy domain));
      [done|].
    destruct (Py.contains "{company}" template && negb (truthy company));
      [done|].
    destruct domain as [d|], company as [c|]; cbn [default];
      repeat match goal with
             | |- context [truthy ?v] => destruct (truthy v) eqn:?
             end; try done.
Qed.

End resolve.

(** ** The file classifier *)

Section classifier.
Context `{UrlLib}.
Implicit Types (s r a b e path url : string) (c d : ascii).

Lemma stake_sdrop n s : Py.stake n s +:+ Py.sdrop n s = s.
Proof.
  revert s. induction n as [|n IH]; intros [|c s]; simpl; try done.
  by rewrite append_cons, IH.
Qed.

Lemma length_stake n s :
  (n ≤ String.length s)%nat → String.length (Py.stake n s) = n.
Proof.
  revert s. induction n as [|n IH]; intros [|c s]; simpl; try done; try lia.
  intros Hn. rewrite IH; lia.
Qed.

Lemma stake_append e r : Py.stake (String.length e) (e +:+ r) = e.
Proof.
  induction e as [|c e IH]; [by destruct r|].
  rewrite append_cons. simpl. by rewrite IH.
Qed.

Lemma sdrop_append e r : Py.sdrop (String.length e) (e +:+ r) = r.
Proof. induction e as [|c e IH]; [by destruct r|]. exact IH. Qed.

Lemma length_append e r :
  String.length (e +:+ r) = (String.length e + String.length r)%nat.
Proof.
  induction e as [|c e IH]; [done|]. rewrite append_cons. simpl. by rewrite IH.
Qed.

Lemma sall_stake p n s : Py.sall p s = true → Py.sall p (Py.stake n s) = true.
Proof.
  revert s. induction n as [|n IH]; intros [|c s]; simpl; try done.
  intros [Hc Hs]%andb_true_iff. by rewrite Hc, IH.
Qed.

Lemma sall_sdrop p n s : Py.sall p s = true → Py.sall p (Py.sdrop n s) = true.
Proof.
  revert s. induction n as [|n IH]; intros [|c s]; simpl; try done.
  intros [Hc Hs]%andb_true_iff. by apply IH.
Qed.

Lemma sall_break p (q : ascii → bool) s :
  Py.sall p s = true →
  Py.sall p (Py.break q s).1 = true ∧ Py.sall p (Py.break q s).2 = true.
Proof.
  induction s as [|c s IH]; simpl; [done|].
  intros Hs. destruct (q c); [done|].
  apply andb_true_iff in Hs as [Hc Hs]. destruct (IH Hs) as [IH1 IH2].
  destruct (Py.break q s) as [x y]. simpl in *. by rewrite Hc, IH1.
Qed.

Lemma sall_sfilter_impl (p q : ascii → bool) s :
  (∀ c, q c = true → p c = true) → Py.sall p (Py.sfilter q s) = true.
Proof.
  intros E. induction s as [|c s IH]; simpl; [done|].
  destruct (q c) eqn:Hc; simpl; [by rewrite E, IH|done].
Qed.

(** [re.search] finds a match exactly when some suffix of the text
    matches. *)
Lemma search_spec (m : string → bool) s :
  search m s = true ↔ ∃ a b, s = a +:+ b ∧ m b = true.
Proof.
  induction s as [|c s IH]; cbn [search].
  - rewrite orb_false_r. split.
    + intros Hm. by exists "", "".
    + intros (a & b & E & Hm). destruct a; [|done].
      rewrite append_nil_l in E. by subst b.
  - rewrite orb_true_iff, IH. split.
    + intros [Hm|(a & b & -> & Hm)].
      * by exists "", (String c s).
      * exists (String c a), b. by rewrite append_cons.
    + intros (a & b & E & Hm). destruct a as [|x a].
      * rewrite append_nil_l in E. subst b. by left.
      * rewrite append_cons in E. injection E as -> ->. right. by exists a, b.
Qed.

Lemma match_ext_spec (tail : string → bool) s :
  match_ext tail s = true
  ↔ ∃ e r, s = "." +:+ e +:+ r
           ∧ (2 ≤ String.length e ≤ 5)%nat
           ∧ Py.sall ext_char e = true ∧ tail r = true.
Proof.
  split.
  - destruct s as [|c s]; [done|]. unfold match_ext.
    destruct (Ascii.eqb_spec c ".") as [->|Hc]; cycle 1.
    { destruct c as [[] [] [] [] [] [] [] []]; done. }
    intros (n & Hn & Hm)%existsb_exists.
    apply andb_true_iff in Hm as [Hm Ht].
    apply andb_true_iff in Hm as [Hl He]. apply Nat.leb_le in Hl.
    exists (Py.stake n s), (Py.sdrop n s).
    rewrite stake_sdrop, length_stake by done.
    repeat split; try done.
    all: repeat (apply List.in_inv in Hn as [<-|Hn]; [lia|]); done.
  - intros (e & r & -> & [H2 H5] & He & Ht).
    replace ("." +:+ e +:+ r) with (String "." (e +:+ r)) by reflexivity.
    unfold match_ext. apply existsb_exists. exists (String.length e).
    rewrite stake_append, sdrop_append, He, Ht, length_append.
    split; [|by rewrite !andb_true_r; apply Nat.leb_le; lia].
    assert (String.length e ∈ [5; 4; 3; 2]%nat) as Hin; [|by apply list_elem_of_In].
    rewrite !elem_of_cons. lia.
Qed.

Lemma search_ext_at_end s :
  Py.sall (λ c, negb (Ascii.eqb c "010")) s = true →
  search (match_ext at_end) s = true ↔ ends_with_extension s.
Proof.
  intros Hnl. rewrite search_spec. unfold ends_with_extension. split.
  - intros (a & b & -> & (e & r & -> & Hlen & He & Ht)%match_ext_spec).
    exists a, e. split; [|done].
    destruct r as [|c [|]]; try done.
    + by rewrite append_nil_r.
    + destruct (Ascii.eqb_spec c "010") as [->|]; cycle 1.
      { destruct c as [[] [] [] [] [] [] [] []]; done. }
      rewrite !sall_append in Hnl. simpl in Hnl.
      by rewrite !andb_false_r in Hnl.
    + destruct c as [[] [] [] [] [] [] [] []]; done.
  - intros (a & e & -> & Hlen & He).
    exists a, ("." +:+ e). split; [done|].
    apply match_ext_spec. exists e, "". by rewrite append_nil_r.
Qed.

Lemma search_ext_before_delimiter s :
  search (match_ext at_query_or_fragment) s = true
  ↔ extension_before_delimiter s.
Proof.
  rewrite search_spec. unfold extension_before_delimiter. split.
  - intros (a & b & -> & (e & r & -> & Hlen & He & Ht)%match_ext_spec).
    destruct r as [|d r]; [done|]. cbn [at_query_or_fragment] in Ht.
    exists a, e, d, r. split; [done|]. split; [done|]. split; [done|].
    apply orb_true_iff in Ht as [Ht|Ht]; apply Ascii.eqb_eq in Ht; auto.
  - intros (a & e & d & b & -> & Hlen & He & Hd).
    exists a, ("." +:+ e +:+ String d b). split; [done|].
    apply match_ext_spec. exists e, (String d b).
    split; [done|]. split; [done|]. split; [done|].
    destruct Hd as [-> | ->]; reflexivity.
Qed.

(** The path [urlparse] returns holds no newline: [urlsplit] removes them
    from the URL first. *)
Lemma urlparse_path_no_newline url p :
  Url.urlparse url = Some p →
  Py.sall (λ c, negb (Ascii.eqb c "010")) (Url.path p) = true.
Proof.
  set (q := λ c, negb (Ascii.eqb c "010")).
  unfold Url.urlparse.
  set (u1 := Py.sfilter _ _).
  assert (H1 : Py.sall q u1 = true).
  { apply sall_sfilter_impl. intros c. unfold q.
    destruct (Ascii.eqb c "010"); [|done]. by rewrite !orb_true_r. }
  assert (H2 : Py.sall q (Url.split_scheme u1).2 = true).
  { unfold Url.split_scheme.
    pose proof (sall_break q (Ascii.eqb ":") u1 H1) as [_ Hb].
    destruct (Py.break (Ascii.eqb ":") u1) as [pre rest].
    destruct rest as [|x after]; [done|]. destruct pre as [|c0 pre]; [done|].
    destruct (_ && _); simpl; [|done].
    simpl in Hb. by apply andb_true_iff in Hb as [_ ?]. }
  destruct (Url.split_scheme u1) as [sch u2]. simpl in H2.
  set (pair := if Py.startswith "//" u2 then _ else _).
  assert (H3 : Py.sall q pair.2 = true).
  { unfold pair. destruct (Py.startswith "//" u2); [|done].
    by apply sall_break, sall_sdrop. }
  destruct pair as [nl u3]. simpl in H3.
  destruct (_ && _); [done|].
  intros [= <-]. simpl.
  set (u4 := (Py.break (Ascii.eqb "?") _).1).
  assert (H4 : Py.sall q u4 = true) by (by apply sall_break, sall_break).
  clearbody u4. destruct (_ && _); [|done].
  unfold Url.splitparams. destruct (Py.has_char "/" u4).
  - pose proof (sall_break q (Ascii.eqb ";")
      (Py.sdrop (Z.to_nat (Py.rfind "/" u4)) u4)
      (sall_sdrop q _ u4 H4)) as [Hb _].
    destruct (Py.break _ _) as [x y]. cbv beta iota. cbn [fst] in Hb.
    rewrite sall_append, sall_stake by done. done.
  - by apply sall_break.
Qed.

Lemma is_file_link_true url :
  is_file_link url = Some true
  ↔ ∃ p, Url.urlparse (Py.lower url) = Some p
         ∧ Url.path p ≠ ""
         ∧ Py.endswith_char "/" (Url.path p) = false
         ∧ (ends_with_extension (Url.path p)
            ∨ extension_before_delimiter (Py.lower url)).
Proof.
  unfold is_file_link.
  destruct (Url.urlparse (Py.lower url)) as [p|] eqn:Ep; simpl; cycle 1.
  { split; [done|]. by intros (p & ? & _). }
  pose proof (search_ext_at_end _ (urlparse_path_no_newline _ _ Ep)) as HA.
  pose proof (search_ext_before_delimiter (Py.lower url)) as HB.
  split.
  - intros Hl. exists p. split; [done|].
    destruct (Py.is_empty (Url.path p)) eqn:Ee; [done|].
    destruct (Py.endswith_char "/" (Url.path p)) eqn:Es; [done|].
    split; [by apply is_empty_false|]. split; [done|]. simpl in Hl.
    destruct (search (match_ext at_end) (Url.path p)) eqn:E1;
      [left; by apply HA|].
    destruct (search (match_ext at_query_or_fragment) (Py.lower url)) eqn:E2;
      [right; by apply HB|done].
  - intros (p' & [= <-] & Hne & Hs & Hext).
    apply is_empty_false in Hne. rewrite Hne, Hs. simpl.
    destruct Hext as [He|He].
    + apply HA in He. by rewrite He.
    + apply HB in He. rewrite He. by destruct (search _ (Url.path p)).
Qed.

End classifier.

(** C4, as the code has it: [is_file_link] holds exactly when the path of
    the lowered URL is not empty, does not end in a slash, and either the path
    ends in a dot and two to five characters of [a-z0-9], or such an extension
    comes just before a question mark or a hash somewhere in the lowered URL.
    [https://acme.com/reports/q1.pdf] is file-like and
    [https://acme.com/reports/] is not; [https://acme.com/view?file=report.pdf]
    is not either, its extension being at the end of the query. *)
Theorem is_file_link_spec `{UrlLib} (url : string) :
  (is_file_link url = Some true
   ↔ ∃ p, Url.urlparse (Py.lower url) = Some p
          ∧ Url.path p ≠ ""
          ∧ Py.endswith_char "/" (Url.path p) = false
          ∧ (ends_with_extension (Url.path p)
             ∨ extension_before_delimiter (Py.lower url)))
  ∧ is_file_link "https://acme.com/reports/q1.pdf" = Some true
  ∧ is_file_link "https://acme.com/reports/" = Some false
  ∧ is_file_link "https://acme.com/view?file=report.pdf" = Some false
  ∧ is_file_link "https://acme.com/report.pdf?dl=1" = Some true.
Proof.
  split; [apply is_file_link_true|]. by vm_compute.
Qed.

(** C4, as the specification has it, fails: the URL whose extension ends the
    query string is not classified as file-like. *)
Lemma is_file_link_query_extension :
  @is_file_link plain_urllib "https://acme.com/view?file=report.pdf" = Some false
  ∧ @is_file_link plain_urllib "https://acme.com/view?file=report.pdf" ≠ Some true.
Proof. by vm_compute. Qed.

(** ** Loops *)

(** A property of the state of a loop that holds at the start and that every
    turn keeps holds at the end. *)
Lemma fold_left_invariant {A S : Type} (Inv : list A → S → Prop)
    (f : S → A → S) (init : S) :
  Inv [] init →
  (∀ l st x, Inv l st → Inv (l ++ [x]) (f st x)) →
  ∀ l, Inv l (fold_left f l init).
Proof.
  intros H0 Hstep l. induction l as [|x l IH] using rev_ind; [done|].
  rewrite fold_left_app. simpl. by apply Hstep.
Qed.

(** ** The identifier generator *)

Section emails.
Variables (domain : string) (fmt_id : Z).
Implicit Types (names : list name_row) (n : name_row) (st : emails_state)
  (r : email_record) (e : string).

Lemma build_email_item_generated st n :
  build_email_item domain fmt_id st n
  = match generated domain fmt_id n with
    | Some e =>
        if bool_decide (e ∈ st.1) then st
        else ({[ e ]} ∪ st.1, st.2 ++ [record_of n e])
    | None => st
    end.
Proof.
  destruct n as [[[f l] t] s]. unfold build_email_item, generated, record_of.
  destruct (Py.is_empty f || Py.is_empty l); [done|].
  by destruct (email_format fmt_id f l domain).
Qed.

Lemma rec_email_record_of n e : rec_email (record_of n e) = e.
Proof. by destruct n as [[[f l] t] s]. Qed.

Lemma emails_invariant_step names st n :
  emails_invariant domain fmt_id names st →
  emails_invariant domain fmt_id (names ++ [n])
    (build_email_item domain fmt_id st n).
Proof.
  intros (Hseen & Hnd & Hall & Hfirst).
  assert (Hold : ∀ r, r ∈ st.2 →
    ∃ pre m post, names ++ [n] = pre ++ m :: post
      ∧ generated domain fmt_id m = Some (rec_email r)
      ∧ r = record_of m (rec_email r)
      ∧ ∀ k, k ∈ pre → generated domain fmt_id k ≠ Some (rec_email r)).
  { intros r (pre & m & post & -> & ? & ? & ?)%Hfirst.
    exists pre, m, (post ++ [n]). by rewrite <- app_assoc. }
  rewrite build_email_item_generated.
  destruct (generated domain fmt_id n) as [e|] eqn:Eg.
  - destruct (bool_decide (e ∈ st.1)) eqn:Ein.
    + apply bool_decide_eq_true in Ein.
      repeat split; try done; try apply Hseen.
      intros m e' [Hm| ->%list_elem_of_singleton]%elem_of_app Hg;
        [by eapply Hall|congruence].
    + apply bool_decide_eq_false in Ein. unfold emails_invariant.
      cbn [fst snd]. repeat split.
      * rewrite map_app, elem_of_union, elem_of_app, elem_of_singleton.
        cbn [map]. rewrite rec_email_record_of, list_elem_of_singleton.
        intros [->|?%Hseen]; auto.
      * rewrite map_app, elem_of_union, elem_of_app, elem_of_singleton.
        cbn [map]. rewrite rec_email_record_of, list_elem_of_singleton.
        intros [?%Hseen| ->]; auto.
      * rewrite map_app. cbn [map]. rewrite rec_email_record_of.
        apply NoDup_app. split; [done|]. split; [|apply NoDup_singleton].
        intros x Hx ->%list_elem_of_singleton. by apply Ein, Hseen.
      * intros m e' [Hm| ->%list_elem_of_singleton]%elem_of_app Hg.
        -- apply elem_of_union. right. by eapply Hall.
        -- apply elem_of_union. left. apply elem_of_singleton. congruence.
      * intros r [Hr| ->%list_elem_of_singleton]%elem_of_app; [by apply Hold|].
        rewrite rec_email_record_of. exists names, n, [].
        repeat split; try done.
        intros m Hm Hg. apply Ein. by eapply Hall.
  - repeat split; try done; try apply Hseen.
    intros m e' [Hm| ->%list_elem_of_singleton]%elem_of_app Hg;
      [by eapply Hall|congruence].
Qed.

Lemma build_emails_invariant names :
  emails_invariant domain fmt_id names
    (fold_left (build_email_item domain fmt_id) names (∅, [])).
Proof.
  apply (fold_left_invariant (emails_invariant domain fmt_id)).
  - unfold emails_invariant. cbn [fst snd map].
    split; [intros e; split;
              [by intros ?%elem_of_empty|by intros ?%elem_of_nil]|].
    split; [apply NoDup_nil_2|].
    split; [intros n e Hn; by apply elem_of_nil in Hn|].
    intros r Hr. by apply elem_of_nil in Hr.
  - intros l st x. apply emails_invariant_step.
Qed.

End emails.

(** C8: the records [build_emails] emits have pairwise distinct emails;
    each is made from a candidate of the input that generates its email, and
    no candidate before that one generates the same email (the first wins);
    under convention 3, (john, smith) and (jane, smith) collide on
    [jsmith] and only the record of (john, smith) is emitted. *)
Theorem build_emails_dedup (names : list name_row) (domain : string)
    (fmt_id : Z) :
  NoDup (map rec_email (build_emails names domain fmt_id))
  ∧ (∀ r, r ∈ build_emails names domain fmt_id →
       ∃ pre n post,
         names = pre ++ n :: post
         ∧ generated domain fmt_id n = Some (rec_email r)
         ∧ r = record_of n (rec_email r)
         ∧ ∀ m, m ∈ pre → generated domain fmt_id m ≠ Some (rec_email r))
  ∧ (∀ n e, n ∈ names → generated domain fmt_id n = Some e →
       e ∈ map rec_email (build_emails names domain fmt_id))
  ∧ build_emails
      [("john", "smith", "John Smith - Acme", "linkedin.com");
       ("jane", "smith", "Jane Smith - Acme", "linkedin.com")] "acme.com" 3
    = [mk_email_record "John Smith" "jsmith@acme.com" "john" "smith"
         "John Smith - Acme" "linkedin.com"].
Proof.
  destruct (build_emails_invariant domain fmt_id names)
    as (Hseen & Hnd & Hall & Hfirst).
  unfold build_emails. repeat split; try done.
  - intros n e Hn Hg. apply Hseen. by eapply Hall.
Qed.

Section conventions.
Implicit Types (first last domain local : string) (fmt_id : Z).

Lemma lower_append s r : Py.lower (s +:+ r) = Py.lower s +:+ Py.lower r.
Proof.
  unfold Py.lower. induction s as [|c s IH]; [done|].
  rewrite append_cons. simpl. by rewrite IH, <- append_cons.
Qed.

Lemma lower_initial s : Py.lower s = s → Py.lower (initial s) = initial s.
Proof.
  destruct s as [|c s]; [done|]. unfold Py.lower, initial. simpl.
  intros [= -> _]. done.
Qed.

Lemma effective_format_cases fmt_id :
  effective_format fmt_id = 1 ∧ EMAIL_FORMATS fmt_id = None
  ∨ effective_format fmt_id = fmt_id ∧ 1 ≤ fmt_id ≤ 10.
Proof.
  unfold effective_format.
  destruct (1 <=? fmt_id) eqn:E1; [destruct (fmt_id <=? 10) eqn:E2|]; simpl.
  - right. lia.
  - left. split; [done|]. destruct fmt_id as [|p|p]; try done.
    do 4 (try destruct p as [p|p|]); try reflexivity;
      cbv in E2; discriminate E2.
  - left. split; [done|]. destruct fmt_id as [|p|p]; try done.
    apply Z.leb_gt in E1. lia.
Qed.

Lemma email_format_convention first last domain fmt_id :
  first ≠ "" → last ≠ "" →
  ∃ local,
    convention (effective_format fmt_id) first last = Some local
    ∧ email_format fmt_id first last domain = Some (local +:+ "@" +:+ domain)
    ∧ (Py.lower first = first → Py.lower last = last →
       Py.lower local = local).
Proof.
  intros Hf Hl.
  assert (Hi : ∀ s, s ≠ "" → index0 s = Some (initial s)) by (by intros []).
  assert (H1 : ∃ local,
    convention 1 first last = Some local
    ∧ Some (first +:+ "." +:+ last +:+ "@" +:+ domain)
      = Some (local +:+ "@" +:+ domain)
    ∧ (Py.lower first = first → Py.lower last = last →
       Py.lower local = local)).
  { eexists. split; [done|]. rewrite !append_assoc. split; [done|].
    intros E1 E2. by rewrite !lower_append, E1, E2. }
  destruct (effective_format_cases fmt_id) as [[-> E]|[-> Hr]].
  { unfold email_format. by rewrite E. }
  assert (Hc : fmt_id = 1 ∨ fmt_id = 2 ∨ fmt_id = 3 ∨ fmt_id = 4
               ∨ fmt_id = 5 ∨ fmt_id = 6 ∨ fmt_id = 7 ∨ fmt_id = 8
               ∨ fmt_id = 9 ∨ fmt_id = 10) by lia.
  unfold email_format.
  repeat destruct Hc as [->|Hc]; try subst fmt_id;
    cbn [EMAIL_FORMATS convention];
    rewrite ?(Hi first), ?(Hi last) by done; cbn [mbind option_bind];
    (eexists; split; [done|]; rewrite ?append_assoc; split; [done|];
     intros E1 E2;
     by rewrite ?lower_append, ?lower_initial, ?E1, ?E2 by done).
Qed.

End conventions.

(** C2, as the code has it: for a name pair with both components non-empty
    and any domain, the email generated under a format-id from 1 to 10 is the
    local part of the documented convention, then [@], then the domain; any
    other format-id gives what format 1 gives; a candidate alone yields the
    one record of that email; the email is lowercase when the name and the
    domain are (nothing is lowered by the generator); format 3 on
    (john, smith, acme.com) gives [jsmith@acme.com] and format 6 gives
    [smith.john@acme.com]. *)
Theorem email_format_conventions (first last domain : string) (fmt_id : Z) :
  first ≠ "" → last ≠ "" →
  (∃ local,
     convention (effective_format fmt_id) first last = Some local
     ∧ email_format fmt_id first last domain = Some (local +:+ "@" +:+ domain)
     ∧ email_format fmt_id first last domain
       = email_format (effective_format fmt_id) first last domain
     ∧ (∀ raw_title source,
          build_emails [(first, last, raw_title, source)] domain fmt_id
          = [record_of (first, last, raw_title, source)
               (local +:+ "@" +:+ domain)])
     ∧ (Py.lower first = first → Py.lower last = last →
        Py.lower domain = domain →
        Py.lower (local +:+ "@" +:+ domain) = local +:+ "@" +:+ domain))
  ∧ email_format 3 "john" "smith" "acme.com" = Some "jsmith@acme.com"
  ∧ email_format 6 "john" "smith" "acme.com" = Some "smith.john@acme.com".
Proof.
  intros Hf Hl. split; [|by vm_compute].
  destruct (email_format_convention first last domain fmt_id Hf Hl)
    as (local & Hc & He & Hlow).
  exists local. split; [done|]. split; [done|]. split; [|split].
  - destruct (effective_format_cases fmt_id) as [[-> E]|[-> _]]; [|done].
    unfold email_format. by rewrite E.
  - intros t s. unfold build_emails. cbn [fold_left].
    rewrite build_email_item_generated. unfold generated.
    apply is_empty_false in Hf, Hl. rewrite Hf, Hl, He. cbn [orb fst snd].
    rewrite bool_decide_eq_false_2 by apply not_elem_of_empty. done.
  - intros E1 E2 E3. rewrite !lower_append, Hlow, E3 by done. done.
Qed.

Lemma email_format_conventions_witness :
  "john" ≠ "" ∧ "smith" ≠ ""
  ∧ ((∃ local,
       convention (effective_format 3) "john" "smith" = Some local
       ∧ email_format 3 "john" "smith" "acme.com"
         = Some (local +:+ "@" +:+ "acme.com")
       ∧ email_format 3 "john" "smith" "acme.com"
         = email_format (effective_format 3) "john" "smith" "acme.com"
       ∧ (∀ raw_title source,
            build_emails [("john", "smith", raw_title, source)] "acme.com" 3
            = [record_of ("john", "smith", raw_title, source)
                 (local +:+ "@" +:+ "acme.com")])
       ∧ (Py.lower "john" = "john" → Py.lower "smith" = "smith" →
          Py.lower "acme.com" = "acme.com" →
          Py.lower (local +:+ "@" +:+ "acme.com")
          = local +:+ "@" +:+ "acme.com"))
     ∧ email_format 3 "john" "smith" "acme.com" = Some "jsmith@acme.com"
     ∧ email_format 6 "john" "smith" "acme.com" = Some "smith.john@acme.com").
Proof.
  split; [discriminate|]. split; [discriminate|].
  apply (email_format_conventions "john" "smith" "acme.com" 3); discriminate.
Defined.

(** C2, as the specification has it, fails: the email generated for an
    upper-case domain is not lowercase. *)
Lemma email_format_keeps_case :
  email_format 1 "john" "smith" "ACME.com" = Some "john.smith@ACME.com"
  ∧ Py.lower "john.smith@ACME.com" ≠ "john.smith@ACME.com".
Proof. split; [by vm_compute|]. vm_compute. discriminate. Qed.

(** ** The identity extractor *)

Section names.
Context `{UrlLib}.
Implicit Types (st : names_state) (k : string * string) (r : name_row)
  (items : list (string * string)) (title link src : string).

Lemma add_name_accepted first last title src st :
  _add_name first last title src st
  = match accepted_key first last with
    | Some k =>
        if bool_decide (k ∈ st.1) then st
        else ({[ k ]} ∪ st.1, st.2 ++ [(k.1, k.2, title, src)])
    | None => st
    end.
Proof.
  unfold _add_name, accepted_key.
  set (f := _clean_name_token first). set (l := _clean_name_token last).
  destruct (Py.is_empty f || Py.is_empty l || (Py.len f <? 2)
            || (Py.len l <? 2)); [done|].
  by destruct (bool_decide (f ∈ TITLE_NOISE) || bool_decide (l ∈ TITLE_NOISE)).
Qed.

Lemma accepted_key_normalized first last k :
  accepted_key first last = Some k → normalized_key k.
Proof.
  unfold accepted_key.
  set (f := _clean_name_token first). set (l := _clean_name_token last).
  destruct (Py.is_empty f || Py.is_empty l || (Py.len f <? 2)
            || (Py.len l <? 2)) eqn:E1; [done|].
  destruct (bool_decide (f ∈ TITLE_NOISE) || bool_decide (l ∈ TITLE_NOISE))
    eqn:E2; [done|].
  intros [= Hk]. subst k.
  apply orb_false_iff in E1 as [E1 El]. apply orb_false_iff in E1 as [_ Ef].
  apply orb_false_iff in E2 as [Nf Nl].
  apply bool_decide_eq_false in Nf, Nl. apply Z.ltb_ge in Ef, El.
  repeat split; try done; apply sall_sfilter.
Qed.

(** One name offered to [_add_name]: the invariants of [seen] and [out]
    are kept, and [seen] gains the accepted key. *)
Lemma add_name_step first last title src st :
  (∀ k, k ∈ st.1 ↔ k ∈ map name_key st.2) →
  NoDup (map name_key st.2) →
  (∀ r, r ∈ st.2 → normalized_key (name_key r)) →
  let st' := _add_name first last title src st in
  (∀ k, k ∈ st'.1 ↔ k ∈ map name_key st'.2)
  ∧ NoDup (map name_key st'.2)
  ∧ (∀ r, r ∈ st'.2 → normalized_key (name_key r))
  ∧ (∀ k, k ∈ st'.1 ↔ k ∈ st.1 ∨ k ∈ keys_of (Some (first, last))).
Proof.
  intros Hseen Hnd Hnorm. cbv zeta. rewrite add_name_accepted.
  cbn [keys_of].
  destruct (accepted_key first last) as [k0|] eqn:Ek;
    cbn [option_list option_rect].
  - destruct (bool_decide (k0 ∈ st.1)) eqn:Ein.
    + apply bool_decide_eq_true in Ein.
      split; [done|]. split; [done|]. split; [done|].
      intros k. split; [tauto|].
      intros [?| ->%list_elem_of_singleton]; done.
    + apply bool_decide_eq_false in Ein. cbn [fst snd].
      rewrite map_app. destruct k0 as [f l]. cbn [map name_key fst snd].
      split; [|split; [|split]].
      * intros k. rewrite elem_of_app, list_elem_of_singleton,
          elem_of_union, elem_of_singleton, Hseen. tauto.
      * apply NoDup_app. split; [done|]. split; [|apply NoDup_singleton].
        intros x Hx ->%list_elem_of_singleton. by apply Ein, Hseen.
      * intros r [Hr| ->%list_elem_of_singleton]%elem_of_app;
          [by apply Hnorm|].
        by apply (accepted_key_normalized first last).
      * intros k. rewrite list_elem_of_singleton, elem_of_union,
          elem_of_singleton. tauto.
  - split; [done|]. split; [done|]. split; [done|].
    intros k. split; [tauto|]. intros [?|?%elem_of_nil]; done.
Qed.

Lemma names_invariant_step items st item :
  names_invariant items st →
  names_invariant (items ++ [item]) (extract_item st item).
Proof.
  intros (Hseen & Hnd & Hnorm & Hkeys). destruct item as [title link].
  unfold extract_item, names_invariant, hit_keys.
  set (src := _source_from_url link).
  set (st1 := match extract_by_host title link with
              | Some (f, l) => _add_name f l title src st
              | None => st
              end).
  assert (H1 : (∀ k, k ∈ st1.1 ↔ k ∈ map name_key st1.2)
               ∧ NoDup (map name_key st1.2)
               ∧ (∀ r, r ∈ st1.2 → normalized_key (name_key r))
               ∧ (∀ k, k ∈ st1.1
                       ↔ k ∈ st.1 ∨ k ∈ keys_of (extract_by_host title link))).
  { unfold st1. destruct (extract_by_host title link) as [[f l]|].
    - by apply add_name_step.
    - split; [done|]. split; [done|]. split; [done|].
      intros k. split; [tauto|]. intros [?|?%elem_of_nil]; done. }
  clearbody st1. destruct H1 as (Hseen1 & Hnd1 & Hnorm1 & Hkeys1).
  set (st2 := if Py.contains "linkedin.com/in/" (Py.lower link) then _ else _).
  assert (H2 : (∀ k, k ∈ st2.1 ↔ k ∈ map name_key st2.2)
               ∧ NoDup (map name_key st2.2)
               ∧ (∀ r, r ∈ st2.2 → normalized_key (name_key r))
               ∧ (∀ k, k ∈ st2.1
                       ↔ k ∈ st1.1
                         ∨ k ∈ (if Py.contains "linkedin.com/in/" (Py.lower link)
                                then keys_of (_extract_from_linkedin_url link)
                                else []))).
  { unfold st2. destruct (Py.contains "linkedin.com/in/" (Py.lower link)).
    - destruct (_extract_from_linkedin_url link) as [[f l]|].
      + by apply add_name_step.
      + split; [done|]. split; [done|]. split; [done|].
        intros k. split; [tauto|]. intros [?|?%elem_of_nil]; done.
    - split; [done|]. split; [done|]. split; [done|].
      intros k. split; [tauto|]. intros [?|?%elem_of_nil]; done. }
  clearbody st2. destruct H2 as (Hseen2 & Hnd2 & Hnorm2 & Hkeys2).
  split; [done|]. split; [done|]. split; [done|].
  intros k. rewrite Hkeys2, Hkeys1, Hkeys. split.
  - intros [[(item & Hin & Hk)|Hk]|Hk].
    + exists item. split; [|done]. apply elem_of_app. by left.
    + exists (title, link). split; [apply elem_of_app; right; by left|].
      apply elem_of_app. by left.
    + exists (title, link). split; [apply elem_of_app; right; by left|].
      apply elem_of_app. by right.
  - intros (item & [Hin| ->%list_elem_of_singleton]%elem_of_app & Hk).
    + left. left. by exists item.
    + apply elem_of_app in Hk as [Hk|Hk]; [left; by right|by right].
Qed.

Lemma extract_names_invariant items :
  names_invariant items (fold_left extract_item items (∅, [])).
Proof.
  apply (fold_left_invariant names_invariant).
  - unfold names_invariant. cbn [fst snd map].
    split; [intros k; split;
              [by intros ?%elem_of_empty|by intros ?%elem_of_nil]|].
    split; [apply NoDup_nil_2|].
    split; [intros r Hr; by apply elem_of_nil in Hr|].
    intros k. split; [by intros ?%elem_of_empty|].
    intros (item & Hin & _). by apply elem_of_nil in Hin.
  - intros l st x. apply names_invariant_step.
Qed.

End names.

(** C9: every candidate [extract_names] emits has a first and a last token
    made of lowercase letters only, of length two at least, and outside the
    noise vocabulary; the (first, last) keys of the emitted candidates are
    pairwise distinct, however many hits produced them; a hit whose tokens
    are noise words, such as (the, team), emits nothing. *)
Theorem extract_names_normalized `{UrlLib} (items : list (string * string)) :
  (∀ r, r ∈ extract_names items →
        normalized_token (name_key r).1 ∧ normalized_token (name_key r).2)
  ∧ NoDup (map name_key (extract_names items))
  ∧ accepted_key "the" "team" = None
  ∧ extract_names [("The Team - About us", "https://acme.com/about");
                   ("The Team - About us", "https://acme.com/about")] = [].
Proof.
  destruct (extract_names_invariant items) as (_ & Hnd & Hnorm & _).
  split; [exact Hnorm|]. split; [exact Hnd|]. by vm_compute.
Qed.

(** C7: the set of candidate keys [extract_names] emits is the union, over the
    hits, of the keys of each hit, which depend on the title and the URL of
    that hit alone; so the same hits yield the same candidates, whatever
    their order or number.  For a hit on a profile URL, the key read from the
    slug of the URL is among the candidates whatever the title gave.  The
    title [Jane Doe - Security Lead at Acme | LinkedIn] at a URL
    [linkedin.com/in/jane-doe-4f2a] yields (jane, doe), which both strategies
    find. *)
Theorem extract_names_deterministic `{UrlLib} (items : list (string * string)) :
  (∀ k, k ∈ map name_key (extract_names items)
        ↔ ∃ item, item ∈ items ∧ k ∈ hit_keys item)
  ∧ (∀ title link first last k,
       (title, link) ∈ items →
       Py.contains "linkedin.com/in/" (Py.lower link) = true →
       _extract_from_linkedin_url link = Some (first, last) →
       accepted_key first last = Some k →
       k ∈ map name_key (extract_names items))
  ∧ (∀ items' k,
       items ≡ₚ items' →
       k ∈ map name_key (extract_names items)
       ↔ k ∈ map name_key (extract_names items'))
  ∧ _extract_from_linkedin_title "Jane Doe - Security Lead at Acme | LinkedIn"
    = Some ("Jane", "Doe")
  ∧ _extract_from_linkedin_url "https://www.linkedin.com/in/jane-doe-4f2a"
    = Some ("jane", "doe")
  ∧ map name_key
      (extract_names [("Jane Doe - Security Lead at Acme | LinkedIn",
                       "https://www.linkedin.com/in/jane-doe-4f2a")])
    = [("jane", "doe")].
Proof.
  destruct (extract_names_invariant items) as (Hseen & _ & _ & Hkeys).
  assert (Hall : ∀ k, k ∈ map name_key (extract_names items)
                      ↔ ∃ item, item ∈ items ∧ k ∈ hit_keys item).
  { intros k. unfold extract_names. by rewrite <- Hseen, Hkeys. }
  split; [exact Hall|]. split; [|split; [|by vm_compute]].
  - intros title link first last k Hin Hl Hu Hk. apply Hall.
    exists (title, link). split; [done|]. unfold hit_keys.
    rewrite Hl, Hu. apply elem_of_app. right. cbn [keys_of]. rewrite Hk.
    by left.
  - intros items' k Hp. rewrite Hall.
    destruct (extract_names_invariant items') as (Hseen' & _ & _ & Hkeys').
    unfold extract_names. rewrite <- Hseen', Hkeys'.
    split; intros (item & Hin & Hk); exists item; (split; [|done]).
    + by rewrite <- Hp.
    + by rewrite Hp.
Qed.

(** ** The aggregator *)

Section aggregator.
Implicit Types (st : links_state) (l : string * string)
  (links : list (string * string)).

Lemma links_invariant_step links st l :
  links_invariant links st → links_invariant (links ++ [l]) (add_link st l).
Proof.
  intros (Hseen & Hnd & Hall & Hfirst). destruct l as [url dork].
  assert (Hold : ∀ l, l ∈ st.2 →
    ∃ pre post, links ++ [(url, dork)] = pre ++ l :: post
                ∧ l.1 ∉ map fst pre).
  { intros l (pre & post & -> & ?)%Hfirst.
    exists pre, (post ++ [(url, dork)]). by rewrite <- app_assoc. }
  unfold add_link, links_invariant.
  destruct (bool_decide (url ∈ st.1)) eqn:Ein.
  - apply bool_decide_eq_true in Ein.
    split; [done|]. split; [done|]. split; [|done].
    intros l [Hl| ->%list_elem_of_singleton]%elem_of_app; [by apply Hall|done].
  - apply bool_decide_eq_false in Ein. cbn [fst snd].
    rewrite map_app. cbn [map fst].
    split; [|split; [|split]].
    + intros u. rewrite elem_of_app, list_elem_of_singleton,
        elem_of_union, elem_of_singleton, Hseen. tauto.
    + apply NoDup_app. split; [done|]. split; [|apply NoDup_singleton].
      intros x Hx ->%list_elem_of_singleton. by apply Ein, Hseen.
    + intros l [Hl| ->%list_elem_of_singleton]%elem_of_app.
      * apply elem_of_union. right. by apply Hall.
      * apply elem_of_union. left. by apply elem_of_singleton.
    + intros l [Hl| ->%list_elem_of_singleton]%elem_of_app; [by apply Hold|].
      exists links, []. split; [done|]. cbn [fst].
      intros (l' & Hu & Hl')%list_elem_of_fmap.
      apply Ein. rewrite Hu. by apply Hall.
Qed.

Lemma add_links_invariant links :
  links_invariant links (fold_left add_link links (∅, [])).
Proof.
  apply (fold_left_invariant links_invariant).
  - unfold links_invariant. cbn [fst snd map].
    split; [intros u; split;
              [by intros ?%elem_of_empty|by intros ?%elem_of_nil]|].
    split; [apply NoDup_nil_2|].
    split; [intros l Hl; by apply elem_of_nil in Hl|].
    intros l Hl. by apply elem_of_nil in Hl.
  - intros l st x. apply links_invariant_step.
Qed.

(** The API loop of [cmd_files] adds the kept outputs, in order. *)
Lemma files_serper_gathered (runs : list (outcome (list (string * string))))
    abort st :
  files_serper runs abort st
  = ((gathered runs abort).1, fold_left add_link (gathered runs abort).2 st).
Proof.
  revert abort st. induction runs as [|run rest IH]; intros abort st; [done|].
  cbn [files_serper gathered]. destruct abort; [done|].
  destruct run as [results|carry_on]; [|apply IH].
  rewrite IH. destruct (gathered rest false) as [a l]. cbn [fst snd].
  by rewrite fold_left_app.
Qed.

(** The API loop of [cmd_contacts] appends the kept outputs, in order. *)
Lemma contacts_serper_gathered (runs : list (outcome (list row))) abort
    (all_items : list (string * string)) :
  contacts_serper runs abort all_items
  = ((gathered (map (outcome_map (omap row_item)) runs) abort).1,
     all_items
     ++ (gathered (map (outcome_map (omap row_item)) runs) abort).2).
Proof.
  revert abort all_items.
  induction runs as [|run rest IH]; intros abort all_items.
  { cbn. by rewrite app_nil_r. }
  cbn [contacts_serper gathered map]. destruct abort.
  { cbn. by rewrite app_nil_r. }
  destruct run as [data|carry_on]; cbn [outcome_map]; [|apply IH].
  rewrite IH.
  destruct (gathered (map (outcome_map (omap row_item)) rest) false) as [a l].
  cbn [fst snd]. by rewrite app_assoc.
Qed.

Lemma gather_files_fold use_serper use_browser api_key
    (runs : list (outcome (list (string * string)))) browser_partial :
  gather_files use_serper use_browser api_key runs browser_partial
  = (fold_left add_link
       (adapter_sequence use_serper use_browser api_key runs browser_partial)
       (∅, [])).2.
Proof.
  unfold gather_files, adapter_sequence.
  destruct (use_serper && truthy api_key).
  - rewrite files_serper_gathered.
    destruct (gathered runs false) as [abort api]. cbn [fst snd].
    destruct (use_browser && negb abort); [|done].
    by rewrite fold_left_app.
  - by destruct (use_browser && negb false).
Qed.

Lemma gather_contacts_sequence use_serper use_browser api_key
    (runs : list (outcome (list row))) browser_partial :
  gather_contacts use_serper use_browser api_key runs browser_partial
  = adapter_sequence use_serper use_browser api_key
      (map (outcome_map (omap row_item)) runs) browser_partial.
Proof.
  unfold gather_contacts, adapter_sequence.
  destruct (use_serper && truthy api_key); [|done].
  rewrite contacts_serper_gathered.
  by destruct (gathered (map (outcome_map (omap row_item)) runs) false).
Qed.

End aggregator.

(** C1, as the code has it.  On the file-links path the merged list holds
    each URL string once: its entries have pairwise distinct URLs, each is
    the first entry with its URL in the outputs of the adapters taken in
    the order API then browser, and every URL of those outputs is in it.  On
    the contacts path the merged list is the outputs of the adapters one
    after the other, nothing removed: a URL that both adapters return stays
    twice (the candidates are deduplicated later, by name). *)
Theorem gather_merge (use_serper use_browser : bool) (api_key : option string)
    (file_runs : list (outcome (list (string * string))))
    (browser_links : list (string * string))
    (contact_runs : list (outcome (list row)))
    (browser_items : list (string * string)) :
  let links :=
    gather_files use_serper use_browser api_key file_runs browser_links in
  let outputs :=
    adapter_sequence use_serper use_browser api_key file_runs browser_links in
  NoDup (map fst links)
  ∧ (∀ l, l ∈ links →
       ∃ pre post, outputs = pre ++ l :: post ∧ l.1 ∉ map fst pre)
  ∧ (∀ l, l ∈ outputs → l.1 ∈ map fst links)
  ∧ gather_contacts use_serper use_browser api_key contact_runs browser_items
    = adapter_sequence use_serper use_browser api_key
        (map (outcome_map (omap row_item)) contact_runs) browser_items
  ∧ gather_files true true (Some "key")
      [Returned [("https://acme.com/a.pdf", "site:acme.com filetype:pdf")]]
      [("https://acme.com/a.pdf", "site:acme.com filetype:doc");
       ("https://acme.com/b.doc", "site:acme.com filetype:doc")]
    = [("https://acme.com/a.pdf", "site:acme.com filetype:pdf");
       ("https://acme.com/b.doc", "site:acme.com filetype:doc")].
Proof.
  cbv zeta. rewrite gather_files_fold.
  destruct (add_links_invariant
    (adapter_sequence use_serper use_browser api_key file_runs browser_links))
    as (Hseen & Hnd & Hall & Hfirst).
  split; [done|]. split; [done|].
  split; [intros l Hl; by apply Hseen, Hall|].
  split; [apply gather_contacts_sequence|by vm_compute].
Qed.

(** C1, as the specification has it, fails on the contacts path: a URL that
    the API and the browser both return is kept twice in the merged list. *)
Lemma gather_contacts_keeps_duplicates :
  gather_contacts true true (Some "key")
    [Returned [mk_row (Some "Jane Doe - Acme | LinkedIn")
                 (Some "https://www.linkedin.com/in/jane-doe") None]]
    [("JANE DOE - ACME | LinkedIn", "https://www.linkedin.com/in/jane-doe")]
  = [("Jane Doe - Acme | LinkedIn", "https://www.linkedin.com/in/jane-doe");
     ("JANE DOE - ACME | LinkedIn", "https://www.linkedin.com/in/jane-doe")]
  ∧ ¬ NoDup
        (map snd
           (gather_contacts true true (Some "key")
              [Returned [mk_row (Some "Jane Doe - Acme | LinkedIn")
                           (Some "https://www.linkedin.com/in/jane-doe") None]]
              [("JANE DOE - ACME | LinkedIn",
                "https://www.linkedin.com/in/jane-doe")])).
Proof.
  split; [by vm_compute|]. vm_compute.
  intros Hnd. apply NoDup_cons in Hnd as [Hnin _]. apply Hnin. by left.
Qed.

(** ** The download engine *)

Section downloads.
Context `{UrlLib}.
Implicit Types (st : run_state) (files : gmap string string)
  (urls : list string) (w : world) (resp : response).

Lemma append_inj_r (s1 s2 r : string) : s1 +:+ r = s2 +:+ r → s1 = s2.
Proof.
  intros E.
  assert (Hlen : String.length s1 = String.length s2).
  { apply (f_equal String.length) in E. rewrite !length_append in E. lia. }
  revert s2 E Hlen. induction s1 as [|c s1 IH]; intros [|d s2] E Hlen;
    try done.
  rewrite !append_cons in E. injection E as -> E.
  f_equal. apply IH; [done|]. simpl in Hlen. lia.
Qed.

Lemma str_of_nat_inj (n m : nat) : Py.str_of_nat n = Py.str_of_nat m → n = m.
Proof.
  unfold Py.str_of_nat. intros E. apply Unsigned.to_uint_inj.
  apply (f_equal NilEmpty.uint_of_string) in E.
  rewrite !NilEmpty.usu in E. by injection E.
Qed.

(** [join] puts the same text in front of a name, whatever follows the
    underscore of the name. *)
Lemma join_prefix (output_dir base : string) :
  ∃ prefix, ∀ t, Py.join output_dir (base +:+ "_" +:+ t) = prefix +:+ t.
Proof.
  unfold Py.join.
  assert (Hs : ∀ t, Py.startswith "/" (base +:+ "_" +:+ t)
                    = Py.startswith "/" (base +:+ "_")).
  { intros t. destruct base as [|c r]; [done|].
    rewrite !append_cons. cbn [Py.startswith]. by destruct (Ascii.eqb "/" c). }
  destruct (Py.startswith "/" (base +:+ "_")) eqn:E.
  - exists (base +:+ "_"). intros t. by rewrite Hs, append_assoc.
  - destruct (Py.is_empty output_dir || Py.endswith_char "/" output_dir).
    + exists (output_dir +:+ base +:+ "_"). intros t.
      by rewrite Hs, !append_assoc.
    + exists (output_dir +:+ "/" +:+ base +:+ "_"). intros t.
      by rewrite Hs, !append_assoc.
Qed.

Lemma candidate_path_inj (output_dir base fext : string) (n m : nat) :
  candidate_path output_dir base fext n = candidate_path output_dir base fext m →
  n = m.
Proof.
  unfold candidate_path.
  destruct (join_prefix output_dir base) as [prefix Hp]. rewrite !Hp.
  intros E%String.app_inj%append_inj_r. by apply str_of_nat_inj.
Qed.

Lemma next_free_none files (output_dir base fext : string) (fuel c : nat) :
  next_free files output_dir base fext fuel c = None →
  ∀ i, (c ≤ i < c + fuel)%nat →
       is_Some (files !! candidate_path output_dir base fext i).
Proof.
  revert c. induction fuel as [|k IH]; intros c Hn i Hi; [lia|].
  cbn [next_free] in Hn.
  destruct (bool_decide _) eqn:E in Hn; [|done].
  apply bool_decide_eq_true in E.
  destruct (decide (i = c)) as [->|Hne]; [done|].
  apply (IH (S c)); [done|lia].
Qed.

Lemma next_free_fresh files (output_dir base fext : string) (fuel c : nat)
    (filename out_path : string) :
  next_free files output_dir base fext fuel c = Some (filename, out_path) →
  files !! out_path = None.
Proof.
  revert c. induction fuel as [|k IH]; intros c Hn; [done|].
  cbn [next_free] in Hn.
  destruct (bool_decide _) eqn:E in Hn; [by eapply IH|].
  apply bool_decide_eq_false in E. injection Hn as _ <-.
  by apply eq_None_not_Some.
Qed.

(** The search for a free name ends: among more candidates than there are
    files, one is free. *)
Lemma next_free_total files (output_dir base fext : string) (c : nat) :
  is_Some (next_free files output_dir base fext (S (size files)) c).
Proof.
  destruct (next_free files output_dir base fext (S (size files)) c)
    as [r|] eqn:En; [done|].
  exfalso. pose proof (next_free_none _ _ _ _ _ _ En) as Hall.
  set (l := candidate_path output_dir base fext <$> seq c (S (size files))).
  assert (Hnd : NoDup l).
  { apply NoDup_fmap_2_strong; [|apply NoDup_seq].
    intros n m _ _. apply candidate_path_inj. }
  assert (Hsub : (list_to_set l : gset string) ⊆ dom files).
  { intros x (n & -> & Hn%elem_of_seq)%elem_of_list_to_set%list_elem_of_fmap.
    apply elem_of_dom, Hall. lia. }
  apply subseteq_size in Hsub.
  rewrite size_list_to_set, size_dom in Hsub by done.
  unfold l in Hsub. rewrite length_fmap, length_seq in Hsub. lia.
Qed.

(** One turn of the loop: it ends, it counts the URL once, as a success
    or as a failure, it requests the URL first, and it leaves every file
    that exists as it is. *)
Lemma download_one_spec w (output_dir : string)
    (proxy flaresolverr_url : option string) (resume : bool) st (idx : nat)
    (url : string) :
  ∃ st',
    download_one w output_dir proxy flaresolverr_url resume st idx url = Some st'
    ∧ success st' + failed st' = success st + failed st + 1
    ∧ fs st ⊆ fs st'
    ∧ ∃ events, trace st' = trace st ++ EvRequest url :: events.
Proof.
  unfold download_one.
  destruct (fetch_response w proxy flaresolverr_url idx url) as [resp|];
    [|eexists; split; [done|]; cbn; split; [lia|split; [done|by eexists]]].
  destruct (response_filename idx url resp) as [filename|];
    [|eexists; split; [done|]; cbn; split; [lia|split; [done|by eexists]]].
  cbn [record_event fs trace success failed total_bytes file_types].
  set (out_path := Py.join output_dir filename).
  destruct (bool_decide (is_Some (fs st !! out_path))) eqn:Ep.
  - destruct resume; cbn [andb].
    { eexists. split; [done|]. cbn. split; [lia|]. split; [done|].
      rewrite <- app_assoc. by eexists. }
    destruct (Py.splitext filename) as [base fext].
    destruct (next_free_total (fs st) output_dir base fext 1) as [[f p] En].
    rewrite En. cbn [mbind option_bind].
    pose proof (next_free_fresh _ _ _ _ _ _ _ _ En) as Hfresh.
    destruct (can_open w p); cbn [negb];
      [|eexists; split; [done|]; cbn; split; [lia|split; [done|by eexists]]].
    destruct (body_raises resp); eexists; (split; [done|]); cbn;
      (split; [lia|]); (split; [by apply insert_subseteq|]);
      rewrite <- app_assoc; by eexists.
  - apply bool_decide_eq_false in Ep.
    assert (Hfresh : fs st !! out_path = None) by (by apply eq_None_not_Some).
    rewrite andb_false_r. cbn [mbind option_bind].
    destruct (can_open w out_path); cbn [negb];
      [|eexists; split; [done|]; cbn; split; [lia|split; [done|by eexists]]].
    destruct (body_raises resp); eexists; (split; [done|]); cbn;
      (split; [lia|]); (split; [by apply insert_subseteq|]);
      rewrite <- app_assoc; by eexists.
Qed.

Lemma download_from_trace w (output_dir : string)
    (proxy flaresolverr_url : option string) (resume : bool) urls st
    (idx : nat) st' :
  download_from w output_dir proxy flaresolverr_url resume st idx urls
  = Some st' →
  ∃ more, trace st' = trace st ++ more.
Proof.
  revert st idx. induction urls as [|url rest IH]; intros st idx.
  { intros [= <-]. exists []. by rewrite app_nil_r. }
  cbn [download_from].
  destruct (download_one_spec w output_dir proxy flaresolverr_url resume
              st idx url) as (st1 & -> & _ & _ & events & Ht1).
  cbn [mbind option_bind]. intros [more ->]%IH. rewrite Ht1.
  rewrite <- app_assoc. by eexists.
Qed.

Lemma download_from_spec w (output_dir : string)
    (proxy flaresolverr_url : option string) (resume : bool) urls st
    (idx : nat) :
  ∃ st',
    download_from w output_dir proxy flaresolverr_url resume st idx urls
    = Some st'
    ∧ success st' + failed st' = success st + failed st + Z.of_nat (length urls)
    ∧ fs st ⊆ fs st'
    ∧ (∀ url, url ∈ urls → EvRequest url ∈ trace st').
Proof.
  revert st idx. induction urls as [|url rest IH]; intros st idx.
  { exists st. split; [done|]. split; [simpl; lia|]. split; [done|].
    intros url Hu. by apply elem_of_nil in Hu. }
  cbn [download_from].
  destruct (download_one_spec w output_dir proxy flaresolverr_url resume
              st idx url) as (st1 & -> & Hc1 & Hf1 & events & Ht1).
  cbn [mbind option_bind].
  destruct (IH st1 (S idx)) as (st2 & E2 & Hc2 & Hf2 & Ht2).
  exists st2. split; [done|]. split; [cbn [length]; lia|].
  split; [by etrans|].
  intros u [->|Hu]%elem_of_cons; [|by apply Ht2].
  destruct (download_from_trace w output_dir proxy flaresolverr_url resume
              rest st1 (S idx) st2 E2) as [more ->].
  rewrite Ht1. apply elem_of_app. left. apply elem_of_app. right. by left.
Qed.

End downloads.

(** C3, as the code has it: the request for a URL is made first, the name
    of the file being read from the response; when [resume] is on and a file
    of the final sanitized name exists at the destination, the response is
    closed with its body unread, nothing is written, the URL is counted as a
    success and the files are as they were.  No run of the engine, with
    [resume] or without, changes a file that exists. *)
Theorem resume_skips_existing `{UrlLib} (w : world) (output_dir : string)
    (proxy flaresolverr_url : option string) (st : run_state) (idx : nat)
    (url : string) (resp : response) (filename : string) :
  fetch_response w proxy flaresolverr_url idx url = Some resp →
  response_filename idx url resp = Some filename →
  is_Some (fs st !! Py.join output_dir filename) →
  download_one w output_dir proxy flaresolverr_url true st idx url
  = Some (mk_run_state (success st + 1) (failed st) (total_bytes st)
            (file_types st) (fs st)
            (trace st ++ [EvRequest url; EvClose url]))
  ∧ (∀ files urls resume,
       ∃ st',
         run_downloads w files urls output_dir proxy flaresolverr_url resume
         = Some st'
         ∧ files ⊆ fs st').
Proof.
  intros Hfetch Hname Hfile. split.
  - unfold download_one. rewrite Hfetch, Hname.
    cbn [record_event fs trace success failed total_bytes file_types].
    rewrite bool_decide_eq_true_2 by done. cbn [andb].
    by rewrite <- app_assoc.
  - intros files urls resume. unfold run_downloads.
    destruct (download_from_spec w output_dir proxy flaresolverr_url resume
                urls (mk_run_state 0 0 0 ∅ files []) 1)
      as (st' & E & _ & Hf & _).
    by exists st'.
Qed.

Lemma resume_skips_existing_witness :
  let w := sample_world ["new"] in
  let st := mk_run_state 0 0 0 ∅ {[ "out/q1.pdf" := "old" ]} [] in
  let url := "https://acme.com/q1.pdf" in
  let resp := mk_response None (Some "application/pdf") ["new"] false in
  fetch_response w None None 1 url = Some resp
  ∧ @response_filename plain_urllib 1 url resp = Some "q1.pdf"
  ∧ is_Some (fs st !! Py.join "out" "q1.pdf")
  ∧ (@download_one plain_urllib w "out" None None true st 1 url
     = Some (mk_run_state (success st + 1) (failed st) (total_bytes st)
               (file_types st) (fs st)
               (trace st ++ [EvRequest url; EvClose url]))
     ∧ (∀ files urls resume,
          ∃ st',
            @run_downloads plain_urllib w files urls "out" None None resume
            = Some st'
            ∧ files ⊆ fs st')).
Proof.
  cbv zeta.
  split; [reflexivity|]. split; [vm_compute; reflexivity|].
  split; [vm_compute; eexists; reflexivity|].
  apply (@resume_skips_existing plain_urllib (sample_world ["new"]) "out"
           None None (mk_run_state 0 0 0 ∅ {[ "out/q1.pdf" := "old" ]} [])
           1%nat "https://acme.com/q1.pdf"
           (mk_response None (Some "application/pdf") ["new"] false) "q1.pdf").
  - reflexivity.
  - vm_compute. reflexivity.
  - vm_compute. eexists. reflexivity.
Defined.

(** C3, as the specification has it, fails: with [resume] on and the file
    there, the URL is counted as a success and the file keeps its bytes, but
    the URL is requested all the same. *)
Lemma resume_skip_still_requests :
  let run :=
    @run_downloads plain_urllib (sample_world ["new"])
      {[ "out/q1.pdf" := "old" ]} ["https://acme.com/q1.pdf"] "out"
      None None true in
  success <$> run = Some 1
  ∧ (λ st, fs st !! "out/q1.pdf") <$> run = Some (Some "old")
  ∧ trace <$> run
    = Some [EvRequest "https://acme.com/q1.pdf";
            EvClose "https://acme.com/q1.pdf"]
  ∧ ¬ (∀ st, run = Some st → EvRequest "https://acme.com/q1.pdf" ∉ trace st).
Proof.
  cbv zeta. split; [by vm_compute|]. split; [by vm_compute|].
  split; [by vm_compute|].
  intros Hno.
  destruct (@run_downloads plain_urllib (sample_world ["new"])
              {[ "out/q1.pdf" := "old" ]} ["https://acme.com/q1.pdf"] "out"
              None None true) as [st|] eqn:E; [|by vm_compute in E].
  apply (Hno st eq_refl).
  assert (Ht : trace <$> Some st
               = Some [EvRequest "https://acme.com/q1.pdf";
                       EvClose "https://acme.com/q1.pdf"])
    by (rewrite <- E; by vm_compute).
  injection Ht as ->. by left.
Qed.

(** * Further properties *)

(** ** The filename sanitizer, continued *)

(** X1: [sanitize_filename] leaves a clean name as it is: a name that is not
    empty, holds only characters a sanitized name may hold, neither starts
    nor ends with a dot or a space, and whose root is no reserved device
    name.  With the properties of its results, the names it returns are
    exactly the names it leaves alone. *)
Theorem sanitize_filename_keeps_clean (name : string) :
  name ≠ "" →
  Py.sall name_char name = true →
  starts_in dot_or_space name = false →
  ends_in dot_or_space name = false →
  Py.upper (Py.splitext name).1 ∉ RESERVED_NAMES →
  sanitize_filename name = name.
Proof.
  intros Hne Hall Hs He Hres.
  rewrite sanitize_filename_stages, scrub_id, strip_id by done.
  unfold finish_name. destruct name as [|c name]; [done|].
  cbn [Py.is_empty]. by rewrite bool_decide_eq_false_2.
Qed.

Lemma sanitize_filename_keeps_clean_witness :
  "report.v2.pdf" ≠ ""
  ∧ Py.sall name_char "report.v2.pdf" = true
  ∧ starts_in dot_or_space "report.v2.pdf" = false
  ∧ ends_in dot_or_space "report.v2.pdf" = false
  ∧ (Py.upper (Py.splitext "report.v2.pdf").1 ∉ RESERVED_NAMES)
  ∧ sanitize_filename "report.v2.pdf" = "report.v2.pdf".
Proof.
  assert (Hres : Py.upper (Py.splitext "report.v2.pdf").1 ∉ RESERVED_NAMES).
  { apply (proj1 (bool_decide_eq_false _)). vm_compute. reflexivity. }
  split; [discriminate|]. split; [vm_compute; reflexivity|].
  split; [vm_compute; reflexivity|]. split; [vm_compute; reflexivity|].
  split; [exact Hres|].
  apply (sanitize_filename_keeps_clean "report.v2.pdf");
    [discriminate|vm_compute; reflexivity..|exact Hres].
Defined.

(** X2: The root of a sanitized name is never a reserved device name, in any
    letter case: [con.txt] and [Aux] come out with an underscore in front;
    [lpt1.tar.gz], whose root is [lpt1.tar], and [console.log] are kept. *)
Theorem sanitize_filename_never_reserved (name : string) :
  (Py.upper (Py.splitext (sanitize_filename name)).1 ∉ RESERVED_NAMES)
  ∧ map sanitize_filename ["con.txt"; "Aux"; "lpt1.tar.gz"; "console.log"]
    = ["_con.txt"; "_Aux"; "lpt1.tar.gz"; "console.log"].
Proof.
  destruct (sanitize_filename_spec name) as (_ & _ & _ & _ & Hres).
  apply bool_decide_eq_false in Hres.
  split; [done|]. by vm_compute.
Qed.

(** ** The query resolver, continued *)

Lemma resolve_placeholders_fails template (domain company : option string) :
  lacks_value domain company template = true
  ↔ ∃ msg, resolve_placeholders template domain company = ValueError msg.
Proof.
  unfold lacks_value, resolve_placeholders.
  destruct (Py.contains "{domain}" template && negb (truthy domain)).
  { split; [by eexists|done]. }
  destruct (Py.contains "{company}" template && negb (truthy company)).
  { split; [by eexists|done]. }
  split; [done|]. by intros [msg ?].
Qed.

(** X3: A template that holds neither placeholder is returned as it is, whatever
    the values, supplied or not: plain dorks never fail and are never
    rewritten. *)
Theorem resolve_placeholders_plain (template : string)
    (domain company : option string) :
  Py.contains "{domain}" template = false →
  Py.contains "{company}" template = false →
  resolve_placeholders template domain company = Ok template.
Proof.
  intros Hd Hc. unfold resolve_placeholders. rewrite Hd, Hc. cbn [andb].
  destruct domain as [d|], company as [c|];
    repeat match goal with
           | |- context [truthy ?v] => destruct (truthy v)
           end;
    by rewrite ?(replace_absent "{domain}") , ?(replace_absent "{company}")
      by (by rewrite ?(replace_absent "{domain}") by done).
Qed.

Lemma resolve_placeholders_plain_witness :
  Py.contains "{domain}" "intitle:index.of inurl:backup" = false
  ∧ Py.contains "{company}" "intitle:index.of inurl:backup" = false
  ∧ resolve_placeholders "intitle:index.of inurl:backup" None (Some "Acme")
    = Ok "intitle:index.of inurl:backup".
Proof.
  split; [vm_compute; reflexivity|]. split; [vm_compute; reflexivity|].
  apply (resolve_placeholders_plain "intitle:index.of inurl:backup" None
           (Some "Acme")); vm_compute; reflexivity.
Defined.

(** X4: A list of templates resolves exactly when no template refers to a
    placeholder without a value; the resolved list then has one query per
    template.  Otherwise the error is raised, and it is that of the first
    such template. *)
Theorem resolve_all_spec (templates : list string)
    (domain company : option string) :
  ((∃ queries, resolve_all templates domain company = Ok queries)
   ↔ Forall (λ t, lacks_value domain company t = false) templates)
  ∧ match resolve_all templates domain company with
    | Ok queries =>
        length queries = length templates
        ∧ Forall2 (λ t q, resolve_placeholders t domain company = Ok q)
            templates queries
    | ValueError msg =>
        ∃ pre t post,
          templates = pre ++ t :: post
          ∧ Forall (λ t, lacks_value domain company t = false) pre
          ∧ resolve_placeholders t domain company = ValueError msg
    end.
Proof.
  induction templates as [|t rest [IHiff IH]]; cbn [resolve_all].
  { split; [split; [by constructor|by eexists]|]. split; [done|constructor]. }
  pose proof (resolve_placeholders_fails t domain company) as Hf.
  destruct (resolve_placeholders t domain company) as [q|msg] eqn:Et.
  - assert (Ht : lacks_value domain company t = false).
    { destruct (lacks_value domain company t); [|done].
      destruct (proj1 Hf eq_refl) as [? ?]. done. }
    destruct (resolve_all rest domain company) as [qs|msg].
    + split.
      * split; [intros _; constructor; [done|]; apply IHiff; by eexists
               |by eexists].
      * destruct IH as [Hlen Hall]. split; [cbn; by rewrite Hlen|].
        by constructor.
    + split.
      * split; [by intros [? ?]|].
        intros [_ Hr]%Forall_cons. apply IHiff in Hr as [? ?]. done.
      * destruct IH as (pre & t' & post & -> & Hpre & Ht').
        exists (t :: pre), t', post. split; [done|]. split; [|done].
        by constructor.
  - split.
    + split; [by intros [? ?]|].
      intros [Ht _]%Forall_cons.
      assert (lacks_value domain company t = true) by (apply Hf; by eexists).
      congruence.
    + exists [], t, rest. split; [done|]. split; [constructor|done].
Qed.

(** X5: Once [cmd_contacts] has a company and a domain, its three queries
    resolve without error, whatever the two values; the profile query and
    the company-intelligence query are the site filter followed by the
    company between double quotes. *)
Theorem contact_queries_resolve (company domain : string) :
  company ≠ "" → domain ≠ "" →
  ∃ q2,
    resolve_all CONTACT_QUERIES (Some domain) (Some company)
    = Ok ["site:linkedin.com/in/ " +:+ String dquote (company +:+ String dquote "");
          q2;
          "site:zoominfo.com/p/ " +:+ String dquote (company +:+ String dquote "")].
Proof.
  intros Hc Hd.
  assert (Tc : truthy (Some company) = true) by (by destruct company).
  assert (Td : truthy (Some domain) = true) by (by destruct domain).
  assert (H1 : ∀ site : string,
    Py.contains "{domain}" (site +:+ String dquote ("{company}" +:+ String dquote ""))
    = false →
    Py.replace "{company}" company
      (site +:+ String dquote ("{company}" +:+ String dquote ""))
    = site +:+ String dquote (company +:+ String dquote "") →
    resolve_placeholders
      (site +:+ String dquote ("{company}" +:+ String dquote ""))
      (Some domain) (Some company)
    = Ok (site +:+ String dquote (company +:+ String dquote ""))).
  { intros site Hno Hrep. unfold resolve_placeholders.
    rewrite Hno, Tc, Td. cbn [andb negb]. rewrite andb_false_r.
    by rewrite (replace_absent "{domain}"), Hrep. }
  unfold CONTACT_QUERIES. cbn [resolve_all].
  rewrite (H1 "site:linkedin.com/in/ "); cycle 1.
  { vm_compute. reflexivity. }
  { vm_compute. reflexivity. }
  rewrite (H1 "site:zoominfo.com/p/ "); cycle 1.
  { vm_compute. reflexivity. }
  { vm_compute. reflexivity. }
  destruct (resolve_placeholders _ (Some domain) (Some company)) as [q2|msg] eqn:E2.
  - by exists q2.
  - exfalso.
    assert (Hl : lacks_value (Some domain) (Some company)
                   ("site:rocketreach.co "
                    +:+ String dquote ("{domain}" +:+ String dquote ""))
                 = true).
    { apply resolve_placeholders_fails. by eexists. }
    unfold lacks_value in Hl. rewrite Tc, Td in Hl. cbn [negb] in Hl.
    by rewrite !andb_false_r in Hl.
Qed.

Lemma contact_queries_resolve_witness :
  "Acme" ≠ "" ∧ "acme.com" ≠ ""
  ∧ ∃ q2,
      resolve_all CONTACT_QUERIES (Some "acme.com") (Some "Acme")
      = Ok ["site:linkedin.com/in/ " +:+ String dquote ("Acme" +:+ String dquote "");
            q2;
            "site:zoominfo.com/p/ " +:+ String dquote ("Acme" +:+ String dquote "")].
Proof.
  split; [discriminate|]. split; [discriminate|].
  apply (contact_queries_resolve "Acme" "acme.com"); discriminate.
Defined.

(** ** The identifier generator, continued *)

Lemma row_of_record_of n e : row_of_record (record_of n e) = n.
Proof. by destruct n as [[[f l] t] s]. Qed.

(** X6: The records of [build_emails] follow the order of the candidates: the
    candidates they were made of are a subsequence of the input, so no
    record is invented or moved, and there are no more records than
    candidates. *)
Theorem build_emails_in_order (names : list name_row) (domain : string)
    (fmt_id : Z) :
  map row_of_record (build_emails names domain fmt_id) `sublist_of` names
  ∧ (length (build_emails names domain fmt_id) ≤ length names)%nat.
Proof.
  unfold build_emails.
  assert (Hsub :
    map row_of_record (fold_left (build_email_item domain fmt_id) names (∅, [])).2
      `sublist_of` names).
  { apply (fold_left_invariant
      (λ (l : list name_row) (st : emails_state),
         map row_of_record st.2 `sublist_of` l)).
    - apply sublist_nil_l.
    - intros l st n Hsub. rewrite build_email_item_generated.
      destruct (generated domain fmt_id n) as [e|];
        [destruct (bool_decide (e ∈ st.1))|];
        try (by apply sublist_inserts_r).
      cbn [fst snd]. rewrite map_app. cbn [map]. rewrite row_of_record_of.
      by apply sublist_app. }
  split; [done|].
  apply sublist_length in Hsub. by rewrite length_map in Hsub.
Qed.

(** ** The identity extractor, continued *)

(** X7: Every candidate [extract_names] emits comes from a hit of the input: it
    carries the title of that hit as raw title and the host of its link
    (without [www.]) as source, and its key is one of the keys of that hit.
    A hit yields two candidates at most, so [n] hits yield at most [2n]
    candidates. *)
Theorem extract_names_provenance `{UrlLib} (items : list (string * string)) :
  Forall
    (λ r : name_row,
       ∃ title link,
         (title, link) ∈ items
         ∧ name_key r ∈ hit_keys (title, link)
         ∧ r = ((name_key r).1, (name_key r).2, title, _source_from_url link))
    (extract_names items)
  ∧ (length (extract_names items) ≤ 2 * length items)%nat.
Proof.
  unfold extract_names.
  set (P := λ (l : list (string * string)) (r : name_row),
         ∃ title link,
           (title, link) ∈ l
           ∧ name_key r ∈ hit_keys (title, link)
           ∧ r = ((name_key r).1, (name_key r).2, title, _source_from_url link)).
  assert (Hmono : ∀ l x out, Forall (P l) out → Forall (P (l ++ [x])) out).
  { intros l x out Hout. eapply Forall_impl; [exact Hout|].
    intros r (t & k & Hin & Hk & Hr).
    exists t, k. split; [|done]. apply elem_of_app. by left. }
  assert (Hadd : ∀ l title link f la (st : names_state),
    keys_of (Some (f, la)) ⊆ hit_keys (title, link) →
    Forall (P (l ++ [(title, link)])) st.2 →
    Forall (P (l ++ [(title, link)]))
      (_add_name f la title (_source_from_url link) st).2
    ∧ (length (_add_name f la title (_source_from_url link) st).2
       ≤ S (length st.2))%nat).
  { intros l title link f la st Hsub Hall. rewrite add_name_accepted.
    destruct (accepted_key f la) as [k|] eqn:Ek; [|split; [done|lia]].
    destruct (bool_decide (k ∈ st.1)); [split; [done|lia]|].
    cbn [fst snd]. split; [|rewrite length_app; cbn; lia].
    apply Forall_app. split; [done|]. constructor; [|constructor].
    exists title, link. split; [apply elem_of_app; right; by left|].
    destruct k as [kf kl]. cbn [name_key fst snd]. split; [|done].
    apply Hsub. cbn [keys_of]. rewrite Ek. by left. }
  apply (fold_left_invariant
    (λ (l : list (string * string)) (st : names_state),
       Forall (P l) st.2 ∧ (length st.2 ≤ 2 * length l)%nat)).
  { split; [constructor|cbn; lia]. }
  intros l st [title link] [Hall Hlen]. unfold extract_item.
  set (st1 := match extract_by_host title link with
              | Some (f, la) => _add_name f la title (_source_from_url link) st
              | None => st
              end).
  assert (H1 : Forall (P (l ++ [(title, link)])) st1.2
               ∧ (length st1.2 ≤ S (length st.2))%nat).
  { unfold st1. destruct (extract_by_host title link) as [[f la]|] eqn:E.
    - apply Hadd; [|by apply Hmono].
      intros k Hk. unfold hit_keys. apply elem_of_app. left. by rewrite E.
    - split; [by apply Hmono|lia]. }
  destruct H1 as [Hall1 Hlen1]. clearbody st1.
  rewrite length_app. cbn [length].
  destruct (Py.contains "linkedin.com/in/" (Py.lower link)) eqn:El;
    [|split; [done|lia]].
  destruct (_extract_from_linkedin_url link) as [[f la]|] eqn:Eu;
    [|split; [done|lia]].
  destruct (Hadd l title link f la st1) as [Hall2 Hlen2]; [|done|].
  { intros k Hk. unfold hit_keys. apply elem_of_app. right.
    by rewrite El, Eu. }
  split; [done|lia].
Qed.

Section slug.
Implicit Types (s a b g r : string) (p : ascii → bool).

Lemma break_spec p s :
  s = (Py.break p s).1 +:+ (Py.break p s).2
  ∧ Py.sall (λ c, negb (p c)) (Py.break p s).1 = true
  ∧ starts_in (λ c, negb (p c)) (Py.break p s).2 = false.
Proof.
  induction s as [|c s (IH1 & IH2 & IH3)]; [done|]. cbn [Py.break].
  destruct (p c) eqn:Ec.
  - cbn. split; [done|]. split; [done|]. unfold starts_in. cbn. by rewrite Ec.
  - destruct (Py.break p s) as [x y]. cbn in *. rewrite Ec.
    split; [by rewrite append_cons, <- IH1|done].
Qed.

Lemma ends_in_append p s r : r ≠ "" → ends_in p (s +:+ r) = ends_in p r.
Proof.
  intros Hne. induction s as [|c s IH]; [done|].
  rewrite append_cons, ends_in_cons; [done|].
  destruct s; [by rewrite append_nil_l|by rewrite append_cons].
Qed.

Lemma rstrip_last p s c : p c = true → Py.rstrip p (s +:+ String c "") = Py.rstrip p s.
Proof.
  intros Hc. induction s as [|x s IH].
  - rewrite append_nil_l. cbn [Py.rstrip Py.is_empty andb]. by rewrite Hc.
  - rewrite append_cons. cbn [Py.rstrip]. by rewrite IH.
Qed.

Lemma split_char_none c s :
  Py.sall (λ x, negb (Ascii.eqb x c)) s = true → Py.split_char c s = [s].
Proof.
  induction s as [|x s IH]; [done|]. cbn [Py.sall Py.split_char].
  intros [Hx Hs]%andb_true_iff. rewrite (IH Hs).
  by apply negb_true_iff in Hx as ->.
Qed.

Lemma split_char_append c a r :
  Py.sall (λ x, negb (Ascii.eqb x c)) a = true →
  Py.split_char c (a +:+ String c r) = a :: Py.split_char c r.
Proof.
  induction a as [|x a IH].
  - intros _. rewrite append_nil_l. cbn [Py.split_char].
    rewrite Ascii.eqb_refl. by destruct (Py.split_char c r).
  - cbn [Py.sall]. intros [Hx Ha]%andb_true_iff. rewrite append_cons.
    cbn [Py.split_char]. rewrite (IH Ha).
    by apply negb_true_iff in Hx as ->.
Qed.

Lemma contains_append (x pre post : string) :
  Py.contains x (pre +:+ x +:+ post) = true.
Proof.
  induction pre as [|c pre IH].
  - rewrite append_nil_l. destruct (x +:+ post) eqn:E; cbn [Py.contains];
      rewrite <- ?E, startswith_append; done.
  - rewrite append_cons. cbn [Py.contains]. rewrite IH. apply orb_true_r.
Qed.

Lemma sall_ends_in p (q : ascii → bool) s :
  (∀ c, q c = true → p c = false) → Py.sall q s = true → ends_in p s = false.
Proof.
  intros Hpq. unfold ends_in. induction s as [|c s IH]; [done|].
  cbn [Py.sall]. intros [Hc Hs]%andb_true_iff.
  destruct s as [|x s]; [cbn; by apply Hpq|]. by apply IH.
Qed.

(** The text group 1 of the slug pattern matches: two runs of letters with
    a hyphen between them, and a hyphen after them or nothing. *)
Lemma match_slug_spec s g :
  match_slug s = Some g →
  ∃ a b tail rest,
    g = a +:+ "-" +:+ b +:+ tail
    ∧ s = a +:+ "-" +:+ b +:+ rest
    ∧ a ≠ "" ∧ b ≠ ""
    ∧ Py.sall Py.is_alpha a = true ∧ Py.sall Py.is_alpha b = true
    ∧ (tail = "" ∨ tail = "-").
Proof.
  unfold match_slug, Py.span.
  pose proof (break_spec (λ c, negb (Py.is_alpha c)) s) as (Hs & Ha & _).
  destruct (Py.break (λ c, negb (Py.is_alpha c)) s) as [a r1]. cbn in Ha, Hs.
  destruct (Py.is_empty a) eqn:Ea; [done|]. apply is_empty_false in Ea.
  destruct r1 as [|c r2]; [done|].
  destruct (Ascii.eqb_spec c "-") as [->|Hc]; cycle 1.
  { destruct c as [[] [] [] [] [] [] [] []]; done. }
  pose proof (break_spec (λ c, negb (Py.is_alpha c)) r2) as (Hr & Hb & _).
  destruct (Py.break (λ c, negb (Py.is_alpha c)) r2) as [b r3]. cbn in Hb, Hr.
  destruct (Py.is_empty b) eqn:Eb; [done|]. apply is_empty_false in Eb.
  intros [= <-]. exists a, b, (if Py.startswith "-" r3 then "-" else ""), r3.
  split; [done|]. split; [by rewrite Hs, Hr|].
  split; [done|]. split; [done|].
  split; [revert Ha; apply sall_impl; intros c; by rewrite negb_involutive|].
  split; [revert Hb; apply sall_impl; intros c; by rewrite negb_involutive|].
  destruct (Py.startswith "-" r3); auto.
Qed.

Lemma search_slug_spec s g :
  search_slug s = Some g →
  Py.contains "linkedin.com/in/" (Py.lower s) = true
  ∧ ∃ pre r, s = pre +:+ r ∧ match_slug r = Some g.
Proof.
  induction s as [|c s IH]; cbn [search_slug].
  - by destruct (startswith_nocase "linkedin.com/in/" "").
  - assert (Hrec : search_slug s = Some g →
      Py.contains "linkedin.com/in/" (Py.lower (String c s)) = true
      ∧ ∃ pre r, String c s = pre +:+ r ∧ match_slug r = Some g).
    { intros (Hc & pre & r & -> & Hm)%IH. split.
      - change (Py.lower (String c (pre +:+ r)))
          with (String (Py.lower_char c) (Py.lower (pre +:+ r))).
        cbn [Py.contains]. rewrite Hc. apply orb_true_r.
      - exists (String c pre), r. by rewrite append_cons. }
    destruct (startswith_nocase "linkedin.com/in/" (String c s)) eqn:E;
      [|exact Hrec].
    destruct (match_slug (Py.sdrop 16 (String c s))) as [g'|] eqn:Em;
      [|exact Hrec].
    intros [= <-]. split.
    + change (Py.lower (String c s))
        with (String (Py.lower_char c) (Py.lower s)).
      cbn [Py.contains]. apply orb_true_iff. left. exact E.
    + exists (Py.stake 16 (String c s)), (Py.sdrop 16 (String c s)).
      by rewrite stake_sdrop.
Qed.

End slug.

(** X8: For a URL of the 8-bit range (every code point below 256, as the
    strings here are), what [_extract_from_linkedin_url] returns is two
    runs of the letters a to z and A to Z of the URL, each two letters long
    at least, and only a URL that holds [linkedin.com/in/], in any letter
    case, gives one: a slug with a one-letter part, with digits in its
    first two parts or with a single part gives nothing.  (Beyond that
    range the pattern, which ignores case, also takes the long s and the
    Kelvin sign for letters, and the dotted capital and the dotless small i
    for an i.) *)
Theorem linkedin_url_tokens (url first last : string) :
  _extract_from_linkedin_url url = Some (first, last) →
  Py.sall Py.is_alpha first = true ∧ Py.sall Py.is_alpha last = true
  ∧ 2 ≤ Py.len first ∧ 2 ≤ Py.len last
  ∧ Py.contains "linkedin.com/in/" (Py.lower url) = true
  ∧ Py.contains (first +:+ "-" +:+ last) url = true.
Proof.
  unfold _extract_from_linkedin_url.
  destruct (search_slug url) as [g|] eqn:Es; [|done].
  apply search_slug_spec in Es as (Hc & pre & r & -> & Hm).
  apply match_slug_spec in Hm
    as (a & b & tail & rest & -> & -> & Ha & Hb & Haa & Hab & Htail).
  assert (Hnh : ∀ c, Py.is_alpha c = true → Ascii.eqb "-" c = false).
  { intros c. destruct c as [[] [] [] [] [] [] [] []]; by vm_compute. }
  assert (Hnh' : ∀ c, Py.is_alpha c = true → negb (Ascii.eqb c "-") = true).
  { intros c. destruct c as [[] [] [] [] [] [] [] []]; by vm_compute. }
  assert (Hstrip : Py.rstrip (Ascii.eqb "-") (a +:+ "-" +:+ b +:+ tail)
                   = a +:+ String "-" b).
  { assert (Hkeep : Py.rstrip (Ascii.eqb "-") (a +:+ "-" +:+ b)
                    = a +:+ String "-" b).
    { apply rstrip_id. rewrite ends_in_append by done.
      replace ("-" +:+ b) with (String "-" b) by reflexivity.
      rewrite ends_in_cons by done. by apply (sall_ends_in _ Py.is_alpha). }
    destruct Htail as [-> | ->].
    - by rewrite append_nil_r.
    - rewrite <- !append_assoc, rstrip_last by reflexivity.
      by rewrite !append_assoc. }
  rewrite Hstrip, split_char_append, split_char_none
    by (eapply sall_impl; [apply Hnh'|done]).
  cbn [take forallb].
  destruct (2 <=? Py.len a) eqn:La; [|done].
  destruct (2 <=? Py.len b) eqn:Lb; [|done].
  cbn [andb]. intros [= <- <-]. apply Z.leb_le in La, Lb.
  split; [done|]. split; [done|]. split; [done|]. split; [done|].
  split; [done|].
  replace (pre +:+ a +:+ "-" +:+ b +:+ rest)
    with (pre +:+ (a +:+ "-" +:+ b) +:+ rest) by (by rewrite !append_assoc).
  apply contains_append.
Qed.

Lemma linkedin_url_tokens_witness :
  _extract_from_linkedin_url "https://uk.LinkedIn.com/in/mary-oneill-3b4/"
  = Some ("mary", "oneill")
  ∧ (Py.sall Py.is_alpha "mary" = true ∧ Py.sall Py.is_alpha "oneill" = true
     ∧ 2 ≤ Py.len "mary" ∧ 2 ≤ Py.len "oneill"
     ∧ Py.contains "linkedin.com/in/"
         (Py.lower "https://uk.LinkedIn.com/in/mary-oneill-3b4/") = true
     ∧ Py.contains ("mary" +:+ "-" +:+ "oneill")
         "https://uk.LinkedIn.com/in/mary-oneill-3b4/" = true).
Proof.
  split; [vm_compute; reflexivity|].
  apply (linkedin_url_tokens "https://uk.LinkedIn.com/in/mary-oneill-3b4/"
           "mary" "oneill").
  vm_compute. reflexivity.
Defined.

(** ** The download engine, continued *)

Section download_outcomes.
Context `{UrlLib}.
Implicit Types (st : run_state) (files : gmap string string)
  (urls : list string) (w : world) (resp : response).

Lemma next_free_least files (output_dir base fext : string) (fuel c : nat)
    (f p : string) :
  next_free files output_dir base fext fuel c = Some (f, p) →
  ∃ n, (c ≤ n)%nat
       ∧ f = base +:+ "_" +:+ Py.str_of_nat n +:+ fext
       ∧ p = candidate_path output_dir base fext n
       ∧ files !! p = None
       ∧ ∀ m, (c ≤ m < n)%nat →
              is_Some (files !! candidate_path output_dir base fext m).
Proof.
  revert c. induction fuel as [|k IH]; intros c Hn; [done|].
  cbn [next_free] in Hn.
  destruct (bool_decide _) eqn:E in Hn.
  - apply bool_decide_eq_true in E.
    destruct (IH _ Hn) as (n & Hle & -> & -> & Hfree & Hbusy).
    exists n. split; [lia|]. split; [done|]. split; [done|]. split; [done|].
    intros m Hm. destruct (decide (m = c)) as [->|Hne]; [done|].
    apply Hbusy. lia.
  - apply bool_decide_eq_false in E. injection Hn as <- <-.
    exists c. split; [lia|]. split; [done|]. split; [done|].
    split; [by apply eq_None_not_Some|]. intros m Hm. lia.
Qed.

Lemma str_of_nat_name_chars (n : nat) : Py.sall name_char (Py.str_of_nat n) = true.
Proof.
  unfold Py.str_of_nat. induction (Nat.to_uint n) as [|d IH|d IH|d IH|d IH|d IH
    |d IH|d IH|d IH|d IH|d IH]; cbn [NilEmpty.string_of_uint Py.sall];
    try done; by rewrite IH.
Qed.

Lemma splitext_name_chars (name : string) :
  Py.sall name_char name = true →
  Py.sall name_char (Py.splitext name).1 = true
  ∧ Py.sall name_char (Py.splitext name).2 = true.
Proof.
  intros Hall. unfold Py.splitext. destruct (_ && _); [|done].
  split; [by apply sall_stake, sall_sdrop|by apply sall_sdrop].
Qed.

(** The name a response is saved under is a sanitized name, with a counter
    in it when the sanitized name was taken; the path is that name under
    the destination, and no file is there. *)
Lemma save_target_spec files (output_dir filename : string) :
  Py.sall name_char filename = true →
  ∃ f p,
    save_target files output_dir filename = Some (f, p)
    ∧ p = Py.join output_dir f
    ∧ files !! p = None
    ∧ Py.sall name_char f = true.
Proof.
  intros Hall. unfold save_target.
  destruct (bool_decide (is_Some (files !! Py.join output_dir filename))) eqn:E.
  - destruct (splitext_name_chars filename Hall) as [Hb He].
    destruct (Py.splitext filename) as [base fext]. cbn [fst snd] in Hb, He.
    destruct (next_free_total files output_dir base fext 1) as [[f p] En].
    destruct (next_free_least _ _ _ _ _ _ _ _ En) as (n & _ & -> & -> & Hf & _).
    eexists _, _. split; [done|]. split; [done|]. split; [done|].
    by rewrite !sall_append, Hb, He, str_of_nat_name_chars.
  - apply bool_decide_eq_false in E. eexists _, _. split; [done|].
    split; [done|]. split; [by apply eq_None_not_Some|done].
Qed.

Lemma response_filename_name_chars (idx : nat) (url : string) resp
    (filename : string) :
  response_filename idx url resp = Some filename →
  Py.sall name_char filename = true.
Proof.
  unfold response_filename.
  destruct (if truthy _ then _ else _) as [raw|]; [|done].
  cbn [mbind option_bind]. intros [= <-].
  match goal with
  | |- Py.sall name_char (sanitize_filename ?x) = true =>
      by destruct (sanitize_filename_spec x) as (_ & ? & _)
  end.
Qed.

Lemma save_target_absent files (output_dir filename : string) :
  files !! Py.join output_dir filename = None →
  save_target files output_dir filename
  = Some (filename, Py.join output_dir filename).
Proof.
  intros Hn. unfold save_target. rewrite bool_decide_eq_false_2; [done|].
  rewrite Hn. by intros [? ?].
Qed.

Lemma requested_app (l k : list event) :
  requested (l ++ k) = requested l ++ requested k.
Proof. apply omap_app. Qed.

Lemma written_app (l k : list event) :
  written (l ++ k) = written l ++ written k.
Proof. apply omap_app. Qed.

(** What one turn of the loop does, case by case: it requests the URL, and
    then either writes nothing and counts a failure (no response, no name,
    or a path that cannot be opened) or a skip (with [resume], the name
    being taken), or writes the body to the target, a path where no file
    was, and counts a success, or a failure if the stream broke. *)
Lemma download_one_outcome w (output_dir : string)
    (proxy flaresolverr_url : option string) (resume : bool) st (idx : nat)
    (url : string) :
  ∃ st',
    download_one w output_dir proxy flaresolverr_url resume st idx url = Some st'
    ∧ requested (trace st') = requested (trace st) ++ [url]
    ∧ ((fs st' = fs st ∧ written (trace st') = written (trace st)
        ∧ ((success st' = success st ∧ failed st' = failed st + 1
            ∧ (fetch_response w proxy flaresolverr_url idx url = None
               ∨ (∃ resp,
                    fetch_response w proxy flaresolverr_url idx url = Some resp
                    ∧ response_filename idx url resp = None)
               ∨ (∃ resp name f p,
                    fetch_response w proxy flaresolverr_url idx url = Some resp
                    ∧ response_filename idx url resp = Some name
                    ∧ (resume = true
                       → fs st !! Py.join output_dir name = None)
                    ∧ save_target (fs st) output_dir name = Some (f, p)
                    ∧ can_open w p = false)))
           ∨ (success st' = success st + 1 ∧ failed st' = failed st
              ∧ resume = true
              ∧ ∃ resp name,
                  fetch_response w proxy flaresolverr_url idx url = Some resp
                  ∧ response_filename idx url resp = Some name
                  ∧ is_Some (fs st !! Py.join output_dir name))))
       ∨ (∃ resp name f p,
            fetch_response w proxy flaresolverr_url idx url = Some resp
            ∧ response_filename idx url resp = Some name
            ∧ (resume = true → fs st !! Py.join output_dir name = None)
            ∧ save_target (fs st) output_dir name = Some (f, p)
            ∧ can_open w p = true
            ∧ fs st' = <[ p := body_content resp ]> (fs st)
            ∧ written (trace st') = written (trace st) ++ [p]
            ∧ (if body_raises resp
               then success st' = success st ∧ failed st' = failed st + 1
                    ∧ total_bytes st' = total_bytes st
               else success st' = success st + 1 ∧ failed st' = failed st
                    ∧ total_bytes st'
                      = total_bytes st + Py.len (body_content resp)))).
Proof.
  unfold download_one.
  destruct (fetch_response w proxy flaresolverr_url idx url) as [resp|] eqn:Ef.
  2: { eexists. split; [done|]. cbn. rewrite requested_app, written_app. cbn.
       rewrite app_nil_r. split; [done|]. left. split; [done|]. split; [done|].
       left. auto. }
  destruct (response_filename idx url resp) as [name|] eqn:En.
  2: { eexists. split; [done|]. cbn. rewrite requested_app, written_app. cbn.
       rewrite app_nil_r. split; [done|]. left. split; [done|]. split; [done|].
       left. split; [done|]. split; [done|]. right. left. by eexists. }
  cbn [record_event fs trace success failed total_bytes file_types].
  pose proof (response_filename_name_chars _ _ _ _ En) as Hname.
  destruct (save_target_spec (fs st) output_dir name Hname)
    as (f & p & Ht & -> & Hfree & Hf).
  assert (Hwrite :
    ∀ present : bool,
      (resume && present = false) →
      (present = bool_decide (is_Some (fs st !! Py.join output_dir name))) →
      (resume = true → fs st !! Py.join output_dir name = None)).
  { intros present Hrp -> ->. cbn in Hrp.
    apply bool_decide_eq_false in Hrp. by apply eq_None_not_Some. }
  destruct (resume && bool_decide (is_Some (fs st !! Py.join output_dir name)))
    eqn:Erp.
  { apply andb_true_iff in Erp as [-> Hp]. apply bool_decide_eq_true in Hp.
    eexists. split; [done|]. cbn. rewrite !requested_app, !written_app. cbn.
    rewrite !app_nil_r. split; [done|]. left. split; [done|]. split; [done|].
    right. split; [done|]. split; [done|]. split; [done|]. by eexists _, _. }
  specialize (Hwrite _ Erp eq_refl).
  unfold save_target in Ht.
  replace (if bool_decide (is_Some (fs st !! Py.join output_dir name))
           then let '(base, fext) := Py.splitext name in
                next_free (fs st) output_dir base fext (S (size (fs st))) 1
           else Some (name, Py.join output_dir name))
    with (Some (f, Py.join output_dir f)) by (symmetry; exact Ht).
  cbn [mbind option_bind].
  assert (Ht' : save_target (fs st) output_dir name
                = Some (f, Py.join output_dir f)) by exact Ht.
  destruct (can_open w (Py.join output_dir f)) eqn:Eo; cbn [negb].
  2: { eexists. split; [done|]. cbn. rewrite requested_app, written_app. cbn.
       rewrite app_nil_r. split; [done|]. left. split; [done|]. split; [done|].
       left. split; [done|]. split; [done|]. right. right.
       by eexists _, _, _, _. }
  destruct (body_raises resp) eqn:Eb; eexists; (split; [done|]); cbn;
    rewrite !requested_app, !written_app; cbn; rewrite ?app_nil_r;
    (split; [done|]); right; exists resp, name, f, (Py.join output_dir f);
    rewrite Eb; done.
Qed.

(** The loop as a whole: the requests are those of the batch, in its
    order; the paths written are distinct, were free when the loop began, and
    are sanitized names under the destination; the files that were there are
    as they were. *)
Lemma download_from_outcome w (output_dir : string)
    (proxy flaresolverr_url : option string) (resume : bool) urls st
    (idx : nat) :
  ∃ st' paths,
    download_from w output_dir proxy flaresolverr_url resume st idx urls
    = Some st'
    ∧ requested (trace st') = requested (trace st) ++ urls
    ∧ written (trace st') = written (trace st) ++ paths
    ∧ NoDup paths
    ∧ Forall (λ p, fs st !! p = None
                   ∧ ∃ name, p = Py.join output_dir name
                             ∧ Py.sall name_char name = true) paths
    ∧ dom (fs st') = dom (fs st) ∪ list_to_set paths
    ∧ fs st ⊆ fs st'
    ∧ (length paths ≤ length urls)%nat.
Proof.
  revert st idx. induction urls as [|url rest IH]; intros st idx.
  { exists st, []. rewrite !app_nil_r. split; [done|]. split; [done|].
    split; [done|]. split; [constructor|]. split; [constructor|].
    split; [set_solver|]. split; [done|]. cbn. lia. }
  cbn [download_from].
  destruct (download_one_outcome w output_dir proxy flaresolverr_url resume
              st idx url) as (st1 & -> & Hr1 & Hcase).
  cbn [mbind option_bind].
  destruct (IH st1 (S idx))
    as (st2 & paths & E2 & Hr2 & Hw2 & Hnd & Hall & Hdom & Hsub & Hlen).
  destruct Hcase as [(Hfs & Hw1 & _)|
    (resp & name & f & p & Ef & En & _ & Ht & _ & Hfs & Hw1 & _)].
  - exists st2, paths. rewrite Hfs in Hall, Hdom, Hsub. split; [done|].
    split; [by rewrite Hr2, Hr1, <- app_assoc|].
    split; [by rewrite Hw2, Hw1|]. split; [done|]. split; [done|].
    split; [done|]. split; [done|]. cbn [length]. lia.
  - pose proof (response_filename_name_chars _ _ _ _ En) as Hname.
    destruct (save_target_spec (fs st) output_dir name Hname)
      as (f' & p' & Ht' & Hp & Hfree & Hf).
    rewrite Ht in Ht'. injection Ht' as <- <-. subst p.
    assert (Hst : fs st ⊆ fs st1).
    { rewrite Hfs. by apply insert_subseteq. }
    exists st2, (Py.join output_dir f :: paths). split; [done|].
    split; [by rewrite Hr2, Hr1, <- app_assoc|].
    split; [by rewrite Hw2, Hw1, <- app_assoc|].
    split.
    { constructor; [|done]. intros Hin.
      rewrite Forall_forall in Hall. destruct (Hall _ Hin) as [Hnone _].
      rewrite Hfs, lookup_insert_eq in Hnone. done. }
    split.
    { constructor; [split; [done|by exists f]|].
      eapply Forall_impl; [exact Hall|]. intros q [Hq Hn]. split; [|done].
      by eapply lookup_weaken_None. }
    split.
    { rewrite Hdom, Hfs, dom_insert_L. set_solver. }
    split; [by etrans|]. cbn [length]. lia.
Qed.

(** A second pass with [resume] over the files the first pass left: it
    writes nothing, and it fails no more often than the first. *)
Lemma download_from_rerun w (output_dir : string)
    (proxy flaresolverr_url : option string) (resume : bool) urls :
  ∀ a b (idx : nat) a',
    download_from w output_dir proxy flaresolverr_url resume a idx urls
    = Some a' →
    fs a' ⊆ fs b →
    ∃ b',
      download_from w output_dir proxy flaresolverr_url true b idx urls
      = Some b'
      ∧ fs b' = fs b
      ∧ written (trace b') = written (trace b)
      ∧ failed b' - failed b ≤ failed a' - failed a
      ∧ success a' - success a ≤ success b' - success b.
Proof.
  induction urls as [|url rest IH]; intros a b idx a' Ha Hsub.
  { injection Ha as <-. exists b. split; [done|]. split; [done|].
    split; [done|]. lia. }
  cbn [download_from] in Ha |- *.
  destruct (download_one_outcome w output_dir proxy flaresolverr_url resume
              a idx url) as (a1 & Ea1 & _ & Ca).
  rewrite Ea1 in Ha. cbn [mbind option_bind] in Ha.
  destruct (download_from_outcome w output_dir proxy flaresolverr_url resume
              rest a1 (S idx))
    as (a2 & ? & Ea2 & _ & _ & _ & _ & _ & Hsub1 & _).
  rewrite Ha in Ea2. injection Ea2 as <-.
  assert (Hb1 : fs a1 ⊆ fs b) by by etrans.
  assert (Hab : fs a ⊆ fs b).
  { destruct (download_one_spec w output_dir proxy flaresolverr_url resume
                a idx url) as (a2 & Ea2 & _ & Hsub2 & _).
    rewrite Ea1 in Ea2. injection Ea2 as <-. by etrans. }
  destruct (download_one_outcome w output_dir proxy flaresolverr_url true
              b idx url) as (b1 & -> & _ & Cb).
  cbn [mbind option_bind].
  assert (Hmono : failed a ≤ failed a1 ∧ success a1 - success a ≤ 1).
  { destruct Ca as [(_ & _ & [(Hs & Hf & _)|(Hs & Hf & _)])|
      (r & n & g & q & _ & _ & _ & _ & _ & _ & _ & Hc)]; [lia|lia|].
    destruct (body_raises r); lia. }
  assert (Hnone_a :
    (fetch_response w proxy flaresolverr_url idx url = None
     ∨ ∃ r, fetch_response w proxy flaresolverr_url idx url = Some r
            ∧ response_filename idx url r = None) →
    success a1 = success a ∧ failed a1 = failed a + 1).
  { intros Hwhy.
    destruct Ca as [(_ & _ & [(Hs & Hf & _)|(_ & _ & _ & r & n & Er & Hn & _)])|
      (r & n & g & q & Er & Hn & _)]; [done| |];
      destruct Hwhy as [Hwhy|(r' & Er' & Hn')]; congruence. }
  assert (Hfree_a : ∀ r n,
    fetch_response w proxy flaresolverr_url idx url = Some r →
    response_filename idx url r = Some n →
    fs b !! Py.join output_dir n = None →
    success a1 = success a ∧ failed a1 = failed a + 1
    ∧ can_open w (Py.join output_dir n) = false).
  { intros r n Er Hn Hfree.
    pose proof (lookup_weaken_None _ _ _ Hfree Hab) as Hna.
    destruct Ca as [(Hfsa & _ & [(Hs & Hf & Hwhy)|
        (_ & _ & _ & r' & n' & Er' & Hn' & Hp)])|
      (r' & n' & g & q & Er' & Hn' & Hno & Hq & _ & Hfsa & _)].
    - destruct Hwhy as [Hwhy|[(r' & Er' & Hn')|
        (r' & n' & g & q & Er' & Hn' & Hno & Hq & Hcan)]];
        [congruence|congruence|].
      rewrite Er in Er'. injection Er' as <-.
      rewrite Hn in Hn'. injection Hn' as <-.
      rewrite (save_target_absent _ _ _ Hna) in Hq.
      injection Hq as <- <-. done.
    - exfalso. rewrite Er in Er'. injection Er' as <-.
      rewrite Hn in Hn'. injection Hn' as <-.
      destruct Hp as [c Hc]. rewrite <- Hfsa in Hc.
      eapply lookup_weaken in Hc; [|exact Hb1]. congruence.
    - exfalso. rewrite Er in Er'. injection Er' as <-.
      rewrite Hn in Hn'. injection Hn' as <-.
      rewrite (save_target_absent _ _ _ Hna) in Hq.
      injection Hq as <- <-.
      assert (Hin : fs a1 !! Py.join output_dir n = Some (body_content r)).
      { by rewrite Hfsa, lookup_insert_eq. }
      eapply lookup_weaken in Hin; [|exact Hb1]. congruence. }
  assert (Hstep : fs b1 = fs b ∧ written (trace b1) = written (trace b)
                  ∧ failed b1 - failed b ≤ failed a1 - failed a
                  ∧ success a1 - success a ≤ success b1 - success b).
  { destruct Cb as [(Hfs & Hw & [(Hs & Hf & Hwhy)|(Hs & Hf & _)])|
      (r & n & g & q & Er & Hn & Hno & Hq & Ho & _)].
    - split; [done|]. split; [done|].
      destruct Hwhy as [Hwhy|[Hwhy|
        (r & n & g & q & Er & Hn & Hno & Hq & Hcan)]].
      + destruct Hnone_a as [? ?]; [by left|lia].
      + destruct Hnone_a as [? ?]; [by right|lia].
      + destruct (Hfree_a r n Er Hn (Hno eq_refl)) as (? & ? & _). lia.
    - split; [done|]. split; [done|]. lia.
    - exfalso. destruct (Hfree_a r n Er Hn (Hno eq_refl)) as (_ & _ & Hcan).
      rewrite (save_target_absent _ _ _ (Hno eq_refl)) in Hq.
      injection Hq as <- <-. congruence. }
  destruct Hstep as (Hfs1 & Hw1 & Hf1 & Hs1).
  destruct (IH a1 b1 (S idx) a' Ha) as (b2 & E2 & Hfs2 & Hw2 & Hf2 & Hs2).
  { by rewrite Hfs1. }
  exists b2. split; [done|]. split; [congruence|]. split; [congruence|]. lia.
Qed.

(** When the sanitized name is taken, the target is the first numbered name
    that is free, the numbers being tried from 1 upwards. *)
Lemma save_target_present files (output_dir filename : string) :
  is_Some (files !! Py.join output_dir filename) →
  ∃ (n : nat) f,
    (1 ≤ n)%nat
    ∧ save_target files output_dir filename
      = Some (f, candidate_path output_dir (Py.splitext filename).1
                   (Py.splitext filename).2 n)
    ∧ files !! candidate_path output_dir (Py.splitext filename).1
                 (Py.splitext filename).2 n = None
    ∧ ∀ m, (1 ≤ m < n)%nat →
           is_Some (files !! candidate_path output_dir
                               (Py.splitext filename).1
                               (Py.splitext filename).2 m).
Proof.
  intros Hp. unfold save_target. rewrite bool_decide_eq_true_2 by done.
  destruct (Py.splitext filename) as [base fext]. cbn [fst snd].
  destruct (next_free_total files output_dir base fext 1) as [[f p] En].
  destruct (next_free_least _ _ _ _ _ _ _ _ En) as (n & Hle & _ & -> & Hf & Hb).
  by exists n, f.
Qed.

End download_outcomes.

(** ** The download engine, turn by turn *)

Section accounted.
Context `{UrlLib}.
Implicit Types (st : run_state) (w : world).



End accounted.


(** ** The download engine as a whole *)


(** X10: The paths [run_downloads] opens for writing are pairwise distinct, held
    no file when the run began, and are each the destination joined with a
    name without the characters [sanitize_filename] removes (so without a
    slash or a backslash): the run writes straight under the destination and
    nowhere else.  The files at the end are those of the beginning and the
    paths written, and there is at most one write for a URL. *)
Theorem run_downloads_writes_fresh `{UrlLib} (w : world)
    (files : gmap string string) (urls : list string) (output_dir : string)
    (proxy flaresolverr_url : option string) (resume : bool) :
  ∃ st,
    run_downloads w files urls output_dir proxy flaresolverr_url resume
    = Some st
    ∧ NoDup (written (trace st))
    ∧ Forall (λ p, files !! p = None
                   ∧ ∃ name, p = Py.join output_dir name
                             ∧ Py.sall name_char name = true)
        (written (trace st))
    ∧ dom (fs st) = dom files ∪ list_to_set (written (trace st))
    ∧ (length (written (trace st)) ≤ length urls)%nat.
Proof.
  unfold run_downloads.
  destruct (download_from_outcome w output_dir proxy flaresolverr_url resume
              urls (mk_run_state 0 0 0 ∅ files []) 1)
    as (st & paths & E & _ & Hw & Hnd & Hall & Hdom & _ & Hlen).
  cbn [trace fs written omap app] in Hw, Hall, Hdom.
  exists st. by rewrite Hw.
Qed.

(** X11: A second run with [resume], over the files the first run left and for
    the same batch, opens no file and leaves the files as they are; it
    counts no more failures and no fewer successes than the first.  (It
    makes all the requests again.) *)
Theorem run_downloads_resume_rerun `{UrlLib} (w : world)
    (files : gmap string string) (urls : list string) (output_dir : string)
    (proxy flaresolverr_url : option string) (resume : bool) :
  ∃ st1 st2,
    run_downloads w files urls output_dir proxy flaresolverr_url resume
    = Some st1
    ∧ run_downloads w (fs st1) urls output_dir proxy flaresolverr_url true
      = Some st2
    ∧ fs st2 = fs st1
    ∧ written (trace st2) = []
    ∧ requested (trace st2) = urls
    ∧ failed st2 ≤ failed st1
    ∧ success st1 ≤ success st2.
Proof.
  unfold run_downloads.
  destruct (download_from_outcome w output_dir proxy flaresolverr_url resume
              urls (mk_run_state 0 0 0 ∅ files []) 1)
    as (st1 & paths & E1 & _).
  destruct (download_from_rerun w output_dir proxy flaresolverr_url resume
              urls (mk_run_state 0 0 0 ∅ files [])
              (mk_run_state 0 0 0 ∅ (fs st1) []) 1 st1 E1)
    as (st2 & E2 & Hfs & Hw & Hf & Hs); [done|].
  destruct (download_from_outcome w output_dir proxy flaresolverr_url true
              urls (mk_run_state 0 0 0 ∅ (fs st1) []) 1)
    as (st2' & ? & E2' & Hr & _).
  rewrite E2 in E2'. injection E2' as <-.
  cbn [fs trace failed success] in Hfs, Hw, Hf, Hs, Hr.
  exists st1, st2. split; [done|]. split; [done|]. split; [done|].
  split; [done|]. split; [done|]. lia.
Qed.

(** X12: Without [resume], a response whose sanitized name is taken is saved
    under the first free name of the form base, underscore, number,
    extension, the numbers starting at 1; the file that holds the name
    keeps its bytes.  If that path cannot be opened nothing is written. *)
Theorem collision_takes_first_free_number `{UrlLib} (w : world)
    (output_dir : string) (proxy flaresolverr_url : option string)
    (st : run_state) (idx : nat) (url : string) (resp : response)
    (filename : string) :
  fetch_response w proxy flaresolverr_url idx url = Some resp →
  response_filename idx url resp = Some filename →
  is_Some (fs st !! Py.join output_dir filename) →
  ∃ (n : nat) st',
    (1 ≤ n)%nat
    ∧ fs st !! candidate_path output_dir (Py.splitext filename).1
                 (Py.splitext filename).2 n = None
    ∧ (∀ m, (1 ≤ m < n)%nat →
            is_Some (fs st !! candidate_path output_dir
                                (Py.splitext filename).1
                                (Py.splitext filename).2 m))
    ∧ download_one w output_dir proxy flaresolverr_url false st idx url
      = Some st'
    ∧ fs st'
      = (if can_open w (candidate_path output_dir (Py.splitext filename).1
                          (Py.splitext filename).2 n)
         then <[ candidate_path output_dir (Py.splitext filename).1
                   (Py.splitext filename).2 n := body_content resp ]> (fs st)
         else fs st)
    ∧ fs st' !! Py.join output_dir filename
      = fs st !! Py.join output_dir filename.
Proof.
  intros Hfetch Hname Hfile.
  destruct (save_target_present (fs st) output_dir filename Hfile)
    as (n & f & Hle & Ht & Hfree & Hbusy).
  destruct (download_one_outcome w output_dir proxy flaresolverr_url false
              st idx url) as (st' & E & _ & Hcase).
  exists n, st'. split; [done|]. split; [done|]. split; [done|].
  split; [done|].
  assert (Hfs : fs st'
    = (if can_open w (candidate_path output_dir (Py.splitext filename).1
                        (Py.splitext filename).2 n)
       then <[ candidate_path output_dir (Py.splitext filename).1
                 (Py.splitext filename).2 n := body_content resp ]> (fs st)
       else fs st)).
  { destruct Hcase as [(Hfs & _ & [(_ & _ & Hwhy)|(_ & _ & Hr & _)])|
      (r & nm & g & q & Er & Hn & _ & Hq & Ho & Hfs & _)].
    - destruct Hwhy as [Hwhy|[(r & Er & Hn)|
        (r & nm & g & q & Er & Hn & _ & Hq & Hcan)]];
        [congruence|congruence|].
      rewrite Hfetch in Er. injection Er as <-.
      rewrite Hname in Hn. injection Hn as <-.
      rewrite Ht in Hq. injection Hq as <- <-. by rewrite Hcan.
    - done.
    - rewrite Hfetch in Er. injection Er as <-.
      rewrite Hname in Hn. injection Hn as <-.
      rewrite Ht in Hq. injection Hq as <- <-. by rewrite Ho. }
  split; [done|]. rewrite Hfs. destruct (can_open w _); [|done].
  apply lookup_insert_ne. intros Heq. rewrite Heq in Hfree.
  destruct Hfile as [c Hc]. congruence.
Qed.

Lemma collision_takes_first_free_number_witness :
  let w := sample_world ["new"] in
  let st := mk_run_state 0 0 0 ∅
              {[ "out/q1.pdf" := "old"; "out/q1_1.pdf" := "older" ]} [] in
  let url := "https://acme.com/q1.pdf" in
  let resp := mk_response None (Some "application/pdf") ["new"] false in
  fetch_response w None None 1 url = Some resp
  ∧ @response_filename plain_urllib 1 url resp = Some "q1.pdf"
  ∧ is_Some (fs st !! Py.join "out" "q1.pdf")
  ∧ ∃ (n : nat) st',
      (1 ≤ n)%nat
      ∧ fs st !! candidate_path "out" (Py.splitext "q1.pdf").1
                   (Py.splitext "q1.pdf").2 n = None
      ∧ (∀ m, (1 ≤ m < n)%nat →
              is_Some (fs st !! candidate_path "out" (Py.splitext "q1.pdf").1
                                  (Py.splitext "q1.pdf").2 m))
      ∧ @download_one plain_urllib w "out" None None false st 1 url = Some st'
      ∧ fs st'
        = (if can_open w (candidate_path "out" (Py.splitext "q1.pdf").1
                            (Py.splitext "q1.pdf").2 n)
           then <[ candidate_path "out" (Py.splitext "q1.pdf").1
                     (Py.splitext "q1.pdf").2 n := body_content resp ]> (fs st)
           else fs st)
      ∧ fs st' !! Py.join "out" "q1.pdf" = fs st !! Py.join "out" "q1.pdf".
Proof.
  cbv zeta.
  split; [reflexivity|]. split; [vm_compute; reflexivity|].
  split; [vm_compute; eexists; reflexivity|].
  apply (@collision_takes_first_free_number plain_urllib
           (sample_world ["new"]) "out" None None
           (mk_run_state 0 0 0 ∅
              {[ "out/q1.pdf" := "old"; "out/q1_1.pdf" := "older" ]} [])
           1%nat "https://acme.com/q1.pdf"
           (mk_response None (Some "application/pdf") ["new"] false) "q1.pdf").
  - reflexivity.
  - vm_compute. reflexivity.
  - vm_compute. eexists. reflexivity.
Defined.

(** X13: A stream that breaks after the file was opened is counted as a failure,
    and the bytes received so far stay on disk under the final name; a later
    pass with [resume] finds that file, closes the response unread and
    counts the URL as a success, leaving the partial file as it is. *)
Theorem broken_stream_file_is_trusted `{UrlLib} (w : world)
    (output_dir : string) (proxy flaresolverr_url : option string)
    (resume : bool) (st : run_state) (idx : nat) (url : string)
    (resp : response) (filename : string) :
  fetch_response w proxy flaresolverr_url idx url = Some resp →
  response_filename idx url resp = Some filename →
  fs st !! Py.join output_dir filename = None →
  can_open w (Py.join output_dir filename) = true →
  body_raises resp = true →
  ∃ st',
    download_one w output_dir proxy flaresolverr_url resume st idx url
    = Some st'
    ∧ success st' = success st
    ∧ failed st' = failed st + 1
    ∧ fs st' = <[ Py.join output_dir filename := body_content resp ]> (fs st)
    ∧ ∀ st2, fs st' ⊆ fs st2 →
        ∃ st3,
          download_one w output_dir proxy flaresolverr_url true st2 idx url
          = Some st3
          ∧ success st3 = success st2 + 1
          ∧ failed st3 = failed st2
          ∧ fs st3 = fs st2
          ∧ fs st3 !! Py.join output_dir filename = Some (body_content resp).
Proof.
  intros Hfetch Hname Hfree Hopen Hraise.
  destruct (download_one_outcome w output_dir proxy flaresolverr_url resume
              st idx url) as (st' & E & _ & Hcase).
  assert (Hst' : success st' = success st ∧ failed st' = failed st + 1
    ∧ fs st' = <[ Py.join output_dir filename := body_content resp ]> (fs st)).
  { destruct Hcase as [(_ & _ & [(_ & _ & Hwhy)|
        (_ & _ & _ & r & nm & Er & Hn & Hp)])|
      (r & nm & g & q & Er & Hn & _ & Hq & _ & Hfs & _ & Hc)].
    - destruct Hwhy as [Hwhy|[(r & Er & Hn)|
        (r & nm & g & q & Er & Hn & _ & Hq & Hcan)]];
        [congruence|congruence|].
      rewrite Hfetch in Er. injection Er as <-.
      rewrite Hname in Hn. injection Hn as <-.
      rewrite (save_target_absent _ _ _ Hfree) in Hq.
      injection Hq as <- <-. congruence.
    - rewrite Hfetch in Er. injection Er as <-.
      rewrite Hname in Hn. injection Hn as <-.
      destruct Hp as [c Hc]. congruence.
    - rewrite Hfetch in Er. injection Er as <-.
      rewrite Hname in Hn. injection Hn as <-.
      rewrite (save_target_absent _ _ _ Hfree) in Hq.
      injection Hq as <- <-. rewrite Hraise in Hc.
      destruct Hc as (? & ? & _). done. }
  destruct Hst' as (Hs & Hf & Hfs).
  exists st'. split; [done|]. split; [done|]. split; [done|]. split; [done|].
  intros st2 Hsub.
  assert (Hin : fs st2 !! Py.join output_dir filename
                = Some (body_content resp)).
  { eapply lookup_weaken; [|exact Hsub]. by rewrite Hfs, lookup_insert_eq. }
  unfold download_one. rewrite Hfetch, Hname.
  cbn [record_event fs trace success failed total_bytes file_types].
  rewrite bool_decide_eq_true_2 by (by eexists). cbn [andb].
  eexists. split; [done|]. by cbn.
Qed.

Lemma broken_stream_file_is_trusted_witness :
  let resp := mk_response None (Some "application/pdf") ["par"; "tial"] true in
  let w := mk_world (λ _ _ _, Some resp) (λ _ _ _, None) (λ _, true) in
  let st := mk_run_state 0 0 0 ∅ ∅ [] in
  let url := "https://acme.com/q1.pdf" in
  fetch_response w None None 1 url = Some resp
  ∧ @response_filename plain_urllib 1 url resp = Some "q1.pdf"
  ∧ fs st !! Py.join "out" "q1.pdf" = None
  ∧ can_open w (Py.join "out" "q1.pdf") = true
  ∧ body_raises resp = true
  ∧ ∃ st',
      @download_one plain_urllib w "out" None None false st 1 url = Some st'
      ∧ success st' = success st
      ∧ failed st' = failed st + 1
      ∧ fs st' = <[ Py.join "out" "q1.pdf" := body_content resp ]> (fs st)
      ∧ ∀ st2, fs st' ⊆ fs st2 →
          ∃ st3,
            @download_one plain_urllib w "out" None None true st2 1 url
            = Some st3
            ∧ success st3 = success st2 + 1
            ∧ failed st3 = failed st2
            ∧ fs st3 = fs st2
            ∧ fs st3 !! Py.join "out" "q1.pdf" = Some (body_content resp).
Proof.
  cbv zeta.
  split; [reflexivity|]. split; [vm_compute; reflexivity|].
  split; [reflexivity|]. split; [reflexivity|]. split; [reflexivity|].
  apply (@broken_stream_file_is_trusted plain_urllib
           (mk_world
              (λ _ _ _, Some (mk_response None (Some "application/pdf")
                                ["par"; "tial"] true))
              (λ _ _ _, None) (λ _, true))
           "out" None None false (mk_run_state 0 0 0 ∅ ∅ [])
           1%nat "https://acme.com/q1.pdf"
           (mk_response None (Some "application/pdf") ["par"; "tial"] true)
           "q1.pdf").
  - reflexivity.
  - vm_compute. reflexivity.
  - reflexivity.
  - reflexivity.
  - reflexivity.
Defined.

(** ** Sources, labels and links *)

(** X14: [_resolve_source] exits only for the source [serper] without a key.
    Otherwise one adapter at least is selected, and the API only with a
    key; with the source [serper] the contacts gathered are those of the
    API alone, and when the API is not selected they are those of the
    browser alone, whatever the other adapter would have returned. *)
Theorem resolve_source_policy (src : string) (api_key : option string) :
  match _resolve_source src api_key with
  | None => src = "serper" ∧ truthy api_key = false
  | Some (use_serper, use_browser) =>
      use_serper || use_browser = true
      ∧ (use_serper = true → truthy api_key = true)
      ∧ (src = "serper" → use_serper = true ∧ use_browser = false)
      ∧ (src = "browser" → use_serper = false ∧ use_browser = true)
      ∧ (∀ runs partial,
           gather_contacts use_serper use_browser api_key runs partial
           = if use_serper
             then if use_browser
                  then gather_contacts true true api_key runs partial
                  else (contacts_serper runs false []).2
             else partial)
      ∧ (∀ runs partial,
           gather_files use_serper use_browser api_key runs partial
           = if use_serper
             then if use_browser
                  then gather_files true true api_key runs partial
                  else (files_serper runs false (∅, [])).2.2
             else (fold_left add_link partial (∅, [])).2)
  end.
Proof.
  unfold _resolve_source.
  destruct (String.eqb src "serper") eqn:Es.
  { apply String.eqb_eq in Es as ->.
    destruct (truthy api_key) eqn:Ek; cbn [negb]; [|done].
    split; [done|]. split; [done|]. split; [done|]. split; [done|].
    unfold gather_contacts, gather_files. rewrite Ek. cbn [andb negb].
    split; intros runs partial.
    - by destruct (contacts_serper runs false []).
    - by destruct (files_serper runs false (∅, [])). }
  apply String.eqb_neq in Es.
  destruct (String.eqb src "browser") eqn:Eb.
  { apply String.eqb_eq in Eb as ->.
    split; [done|]. split; [done|]. split; [done|]. split; [done|].
    unfold gather_contacts, gather_files. cbn [andb negb]. done. }
  apply String.eqb_neq in Eb.
  split; [apply orb_true_r|]. split; [done|]. split; [done|]. split; [done|].
  destruct (truthy api_key) eqn:Ek; [done|].
  unfold gather_contacts, gather_files. cbn [andb negb]. done.
Qed.

Section labels.
Implicit Types (s r : string) (c : ascii) (p q : ascii → bool).

Lemma length_smap (f : ascii → ascii) s :
  String.length (Py.smap f s) = String.length s.
Proof. induction s as [|c s IH]; simpl; [done|]. by rewrite IH. Qed.

Lemma length_stake_min n s :
  String.length (Py.stake n s) = Nat.min n (String.length s).
Proof.
  revert s. induction n as [|n IH]; intros [|c s]; simpl; try done.
  by rewrite IH.
Qed.

Lemma stake_all n s : (String.length s ≤ n)%nat → Py.stake n s = s.
Proof.
  revert s. induction n as [|n IH]; intros [|c s]; simpl; try done; try lia.
  intros Hn. rewrite IH; [done|lia].
Qed.

Lemma has_char_false c p s :
  (∀ x, p x = true → Ascii.eqb x c = false) →
  Py.sall p s = true → Py.has_char c s = false.
Proof.
  intros E Hs. unfold Py.has_char. apply negb_false_iff.
  eapply sall_impl; [|exact Hs]. intros x Hx. cbn. by rewrite (E x Hx).
Qed.

Lemma label_char_plain c :
  label_char c = true →
  Ascii.eqb c "/" = false ∧ Ascii.eqb c "\" = false ∧ Ascii.eqb c "." = false.
Proof.
  destruct c as [[] [] [] [] [] [] [] []]; vm_compute; intros H; try done.
Qed.

End labels.

(** X15: The label [make_run_dir] puts in the name of a run directory holds
    only letters, digits, underscores and hyphens, so no slash, backslash
    or dot, whatever the company or the domain given; it is as long as the
    label given, up to forty characters; a label that is already of that
    form and length is kept as it is, so the directory made for a label
    and for its safe form are the same. *)
Theorem safe_label_spec (base ts kind label : string) :
  Py.sall label_char (safe_label label) = true
  ∧ String.length (safe_label label) = Nat.min 40 (String.length label)
  ∧ Py.has_char "/" (safe_label label) = false
  ∧ Py.has_char "\" (safe_label label) = false
  ∧ Py.has_char "." (safe_label label) = false
  ∧ safe_label (safe_label label) = safe_label label
  ∧ make_run_dir base ts kind (safe_label label)
    = make_run_dir base ts kind label.
Proof.
  assert (Hall : Py.sall label_char (safe_label label) = true).
  { unfold safe_label. apply sall_stake, sall_smap. intros c.
    destruct (label_char c) eqn:E; [done|]. reflexivity. }
  split; [done|].
  split; [unfold safe_label; by rewrite length_stake_min, length_smap|].
  split; [eapply has_char_false; [|exact Hall]; intros x Hx;
          by destruct (label_char_plain x Hx) as (? & ? & ?)|].
  split; [eapply has_char_false; [|exact Hall]; intros x Hx;
          by destruct (label_char_plain x Hx) as (? & ? & ?)|].
  split; [eapply has_char_false; [|exact Hall]; intros x Hx;
          by destruct (label_char_plain x Hx) as (? & ? & ?)|].
  assert (Hid : safe_label (safe_label label) = safe_label label).
  { unfold safe_label at 1.
    rewrite (smap_id_on _ label_char); [|by intros c ->|done].
    apply stake_all. unfold safe_label. rewrite length_stake_min. lia. }
  split; [done|]. unfold make_run_dir. by rewrite Hid.
Qed.

Section links.
Implicit Types (s r : string) (c : ascii) (p q : ascii → bool).

Lemma rfind_from_spec c s :
  ∀ i acc, acc < i →
    (Py.rfind_from c s i acc = acc
     ∧ Py.sall (λ x, negb (Ascii.eqb x c)) s = true)
    ∨ (i ≤ Py.rfind_from c s i acc
       ∧ Py.sall (λ x, negb (Ascii.eqb x c))
           (Py.sdrop (Z.to_nat (Py.rfind_from c s i acc - i + 1)) s) = true).
Proof.
  induction s as [|x s IH]; intros i acc Hlt; cbn [Py.rfind_from].
  { left. done. }
  destruct (IH (i + 1) (if Ascii.eqb x c then i else acc)) as [[Hk Hs]|[Hk Hs]].
  { destruct (Ascii.eqb x c); lia. }
  - rewrite Hk. destruct (Ascii.eqb x c) eqn:E.
    + right. split; [lia|]. by replace (i - i + 1) with 1 by lia.
    + left. split; [done|]. cbn. by rewrite E, Hs.
  - right. split; [lia|].
    replace (Z.to_nat (Py.rfind_from c s (i + 1)
                         (if Ascii.eqb x c then i else acc) - i + 1))
      with (S (Z.to_nat (Py.rfind_from c s (i + 1)
                           (if Ascii.eqb x c then i else acc) - (i + 1) + 1)))
      by lia.
    done.
Qed.

Lemma basename_no_slash s : Py.has_char "/" (Py.basename s) = false.
Proof.
  unfold Py.has_char, Py.basename, Py.rfind. apply negb_false_iff.
  destruct (rfind_from_spec "/" s 0 (-1)) as [[-> Hs]|[_ Hs]]; [lia|done|].
  by replace (Py.rfind_from "/" s 0 (-1) + 1)
    with (Py.rfind_from "/" s 0 (-1) - 0 + 1) by lia.
Qed.

Lemma break_append q a r :
  Py.sall (λ c, negb (q c)) a = true →
  r = "" ∨ starts_in q r = true →
  Py.break q (a +:+ r) = (a, r).
Proof.
  intros Ha Hr. induction a as [|c a IH].
  - rewrite append_nil_l. destruct Hr as [->|Hr]; [done|].
    destruct r as [|c r]; [done|]. unfold starts_in in Hr. cbn in Hr.
    cbn. by rewrite Hr.
  - cbn in Ha. apply andb_true_iff in Ha as [Hc Ha].
    rewrite append_cons. cbn [Py.break].
    apply negb_true_iff in Hc. rewrite Hc, (IH Ha). done.
Qed.

Lemma search_redirect_skip pre s :
  Py.sall (λ c, negb (Ascii.eqb c "?" || Ascii.eqb c "&")) pre = true →
  search_after "" match_redirect (pre +:+ s)
  = search_after "" match_redirect s.
Proof.
  intros Hp. induction pre as [|c pre IH]; [done|].
  cbn in Hp. apply andb_true_iff in Hp as [Hc Hp].
  apply negb_true_iff in Hc.
  rewrite append_cons. cbn [search_after Py.startswith String.length Py.sdrop
    match_redirect]. rewrite Hc. by apply IH.
Qed.

Lemma run1_append p a r :
  a ≠ "" → Py.sall p a = true →
  r = "" ∨ starts_in (λ c, negb (p c)) r = true →
  run1 p (a +:+ r) = Some a.
Proof.
  intros Hne Ha Hr. unfold run1, Py.span.
  rewrite (break_append (λ c, negb (p c)) a r); [|
    eapply sall_impl; [|exact Ha]; intros c Hc; cbn; by rewrite Hc|done].
  by destruct a.
Qed.

End links.

(** X16: The name [cmd_files] shows for a link is not empty, is eighty
    characters long at most and holds no slash: it is [file] when nothing
    follows the last slash of the link, and else the first eighty
    characters of what follows it. *)
Theorem link_filename_spec (u : string) :
  link_filename u ≠ ""
  ∧ (String.length (link_filename u) ≤ 80)%nat
  ∧ Py.has_char "/" (link_filename u) = false
  ∧ (Py.basename u = "" ∧ link_filename u = "file"
     ∨ Py.basename u ≠ "" ∧ link_filename u = Py.stake 80 (Py.basename u)).
Proof.
  unfold link_filename. cbv zeta.
  pose proof (basename_no_slash u) as Hb.
  destruct (Py.basename u) as [|c b] eqn:E; cbn [Py.is_empty].
  - split; [done|]. split; [cbn; lia|]. split; [done|]. by left.
  - split; [done|]. split; [rewrite length_stake_min; lia|].
    split; [|by right].
    unfold Py.has_char in *. apply negb_false_iff in Hb.
    apply negb_false_iff. by apply sall_stake.
Qed.

(** X17: [clean_google_url] unwraps a redirect of the search engine: for a link
    that is a prefix without question mark or ampersand, then [/url?q=] or
    [/url?url=], then a target without ampersand, and then nothing or an
    ampersand and more, the result is the target, unquoted. *)
Theorem clean_google_url_unwraps `{UrlLib} (key pre target rest : string) :
  key = "q" ∨ key = "url" →
  Py.sall (λ c, negb (Ascii.eqb c "?" || Ascii.eqb c "&")) pre = true →
  target ≠ "" →
  Py.sall not_amp target = true →
  rest = "" ∨ Py.startswith "&" rest = true →
  clean_google_url (pre +:+ "/url?" +:+ key +:+ "=" +:+ target +:+ rest)
  = Some (unquote target).
Proof.
  intros Hkey Hpre Hne Htarget Hrest.
  assert (Hrun : run1 not_amp (target +:+ rest) = Some target).
  { apply run1_append; [done|done|]. destruct Hrest as [->|Hr]; [by left|].
    right. destruct rest as [|c r]; [done|]. unfold starts_in, not_amp.
    cbn [Py.first_char]. cbn [Py.startswith] in Hr.
    destruct (Ascii.eqb "&" c) eqn:E; [|done].
    apply Ascii.eqb_eq in E as <-. reflexivity. }
  unfold clean_google_url.
  assert (Hm : search_after "" match_redirect
                 (pre +:+ "/url?" +:+ key +:+ "=" +:+ target +:+ rest)
               = Some target).
  { rewrite search_redirect_skip by done.
    set (t := target +:+ rest) in *.
    destruct Hkey as [-> | ->].
    - replace ("/url?" +:+ "q" +:+ "=" +:+ t) with ("/url?q=" +:+ t)
        by reflexivity.
      replace ("/url?q=" +:+ t)
        with (String "/" (String "u" (String "r" (String "l" (String "?"
                (String "q" (String "=" t))))))) by reflexivity.
      cbn -[run1]. by rewrite Hrun.
    - replace ("/url?" +:+ "url" +:+ "=" +:+ t) with ("/url?url=" +:+ t)
        by reflexivity.
      replace ("/url?url=" +:+ t)
        with (String "/" (String "u" (String "r" (String "l" (String "?"
                (String "u" (String "r" (String "l" (String "=" t)))))))))
        by reflexivity.
      cbn -[run1]. by rewrite Hrun. }
  assert (Hc : Py.contains "/url?q=" (pre +:+ "/url?" +:+ key +:+ "="
                                        +:+ target +:+ rest)
               || Py.contains "/url?url=" (pre +:+ "/url?" +:+ key +:+ "="
                                             +:+ target +:+ rest) = true).
  { destruct Hkey as [-> | ->].
    - apply orb_true_iff. left.
      apply (contains_append "/url?q=" pre (target +:+ rest)).
    - apply orb_true_iff. right.
      apply (contains_append "/url?url=" pre (target +:+ rest)). }
  rewrite Hc. cbv zeta. by rewrite Hm.
Qed.

Lemma clean_google_url_unwraps_witness :
  ("q" = "q" ∨ "q" = "url")
  ∧ Py.sall (λ c, negb (Ascii.eqb c "?" || Ascii.eqb c "&"))
      "https://www.google.com" = true
  ∧ "https://acme.com/a.pdf" ≠ ""
  ∧ Py.sall not_amp "https://acme.com/a.pdf" = true
  ∧ ("&sa=U" = "" ∨ Py.startswith "&" "&sa=U" = true)
  ∧ @clean_google_url plain_urllib
      ("https://www.google.com" +:+ "/url?" +:+ "q" +:+ "="
       +:+ "https://acme.com/a.pdf" +:+ "&sa=U")
    = Some (@unquote plain_urllib "https://acme.com/a.pdf").
Proof.
  split; [by left|]. split; [reflexivity|]. split; [done|].
  split; [reflexivity|]. split; [by right|].
  apply (@clean_google_url_unwraps plain_urllib "q" "https://www.google.com"
           "https://acme.com/a.pdf" "&sa=U").
  - by left.
  - reflexivity.
  - done.
  - reflexivity.
  - by right.
Defined.

(** ** The API adapter, its pages and its links *)

Section adapter.
Context {A : Type}.
Implicit Types (serper_search : string → nat → reply A) (query : string).

Lemma organic_loop_spec serper_search query :
  ∀ (n a : nat) (asked : list nat) (res : list A),
    ∃ k : nat,
      (k ≤ n)%nat
      ∧ organic_loop serper_search query (seq a n) asked res
        = (asked ++ seq a k,
           res ++ flat_map (page_rows serper_search query) (seq a k))
      ∧ (∀ p, (a ≤ p < a + k)%nat →
              page_rows serper_search query p = [] → S p = (a + k)%nat)
      ∧ ((k < n)%nat →
         (1 ≤ k)%nat ∧ page_rows serper_search query (a + k - 1) = []).
Proof.
  induction n as [|n IH]; intros a asked res.
  { exists 0%nat. cbn. rewrite !app_nil_r. split; [done|]. split; [done|].
    split; intros; lia. }
  cbn [seq organic_loop].
  assert (Hstop : page_rows serper_search query a = [] →
    ∃ k : nat,
      (k ≤ S n)%nat
      ∧ (asked ++ [a], res)
        = (asked ++ seq a k,
           res ++ flat_map (page_rows serper_search query) (seq a k))
      ∧ (∀ p, (a ≤ p < a + k)%nat →
              page_rows serper_search query p = [] → S p = (a + k)%nat)
      ∧ ((k < S n)%nat →
         (1 ≤ k)%nat ∧ page_rows serper_search query (a + k - 1) = [])).
  { intros He. exists 1%nat. cbn [seq flat_map]. rewrite He, !app_nil_r.
    split; [lia|]. split; [done|]. split; [intros; lia|].
    intros _. split; [done|]. by replace (a + 1 - 1)%nat with a by lia. }
  unfold page_rows in Hstop at 1.
  destruct (serper_search query a) as [data|] eqn:Es; [|by apply Hstop].
  destruct (default [] data) as [|x l] eqn:Ed; [by apply Hstop|].
  clear Hstop.
  destruct (IH (S a) (asked ++ [a]) (res ++ x :: l))
    as (k & Hle & -> & Hall & Hlast).
  exists (S k). split; [lia|]. cbn [seq flat_map].
  assert (Hrows : page_rows serper_search query a = x :: l).
  { unfold page_rows. by rewrite Es. }
  rewrite Hrows. split; [by rewrite <- !app_assoc|].
  split.
  - intros p Hp He. destruct (decide (p = a)) as [->|Hne]; [congruence|].
    rewrite (Hall p); [lia|lia|done].
  - intros Hlt. destruct Hlast as [Hk He]; [lia|]. split; [lia|].
    by replace (a + S k - 1)%nat with (S a + k - 1)%nat by lia.
Qed.

End adapter.

(** X18: [serper_fetch_organic] requests the pages 1, 2, 3 and so on, a hundred
    at most and [max_pages] at most (none if that is not positive); it
    stops before the limit only after a page without results or without a
    reply, and it returns the results of the pages requested, in order. *)
Theorem serper_fetch_organic_pages {A : Type}
    (serper_search : string → nat → reply A) (query : string)
    (max_pages : Z) :
  ∃ k : nat,
    Z.of_nat k ≤ Z.max 0 (Z.min max_pages SERPER_MAX_PAGES)
    ∧ (serper_fetch_organic serper_search query max_pages).1 = seq 1 k
    ∧ (serper_fetch_organic serper_search query max_pages).2
      = flat_map (page_rows serper_search query) (seq 1 k)
    ∧ (∀ p, (1 ≤ p < k)%nat → page_rows serper_search query p ≠ [])
    ∧ (Z.of_nat k < Z.min max_pages SERPER_MAX_PAGES →
       (1 ≤ k)%nat ∧ page_rows serper_search query k = []).
Proof.
  unfold serper_fetch_organic, page_range.
  destruct (organic_loop_spec serper_search query
              (Z.to_nat (Z.min max_pages SERPER_MAX_PAGES)) 1 [] [])
    as (k & Hle & -> & Hall & Hlast).
  exists k. cbn [fst snd app]. split; [lia|]. split; [done|]. split; [done|].
  split.
  - intros p Hp He. specialize (Hall p ltac:(lia) He). lia.
  - intros Hlt. destruct Hlast as [Hk He]; [lia|]. split; [done|].
    by replace (1 + k - 1)%nat with k in He by lia.
Qed.

Section file_links.
Context `{UrlLib}.
Implicit Types (serper_search : string → nat → reply organic)
  (query : string) (st : links_state).

Lemma file_links_invariant_more query hs hs' st :
  file_links_invariant query hs st →
  (∀ h, h ∈ hs' → h ≠ "" → is_file_link h = Some true → h ∈ st.2.*1) →
  file_links_invariant query (hs ++ hs') st.
Proof.
  intros (Hseen & Hnd & Hall & Hfull) Hmore.
  split; [done|]. split; [done|]. split.
  - eapply Forall_impl; [exact Hall|]. intros l (? & ? & ? & ?).
    split; [done|]. split; [done|]. split; [done|].
    apply elem_of_app. by left.
  - intros h [Hh|Hh]%elem_of_app; [by apply Hfull|by apply Hmore].
Qed.

Lemma add_file_link_step query hs st h :
  file_links_invariant query hs st →
  match add_file_link query st h with
  | Some st' => file_links_invariant query (hs ++ [h]) st'
  | None => is_file_link h = None
  end.
Proof.
  intros Hinv. unfold add_file_link.
  destruct (Py.is_empty h) eqn:Ee.
  { apply is_empty_true in Ee as ->.
    apply file_links_invariant_more; [done|].
    intros h ->%list_elem_of_singleton. done. }
  apply is_empty_false in Ee.
  destruct (is_file_link h) as [file|] eqn:Ef; cbn [mbind option_bind];
    [|done].
  destruct file; cbn [andb].
  2: { apply file_links_invariant_more; [done|].
       intros h' ->%list_elem_of_singleton. congruence. }
  destruct (bool_decide (h ∈ st.1)) eqn:Eseen; cbn [negb].
  { apply bool_decide_eq_true in Eseen.
    apply file_links_invariant_more; [done|].
    intros h' ->%list_elem_of_singleton _ _.
    destruct Hinv as (Hseen & _). by apply Hseen. }
  apply bool_decide_eq_false in Eseen.
  destruct Hinv as (Hseen & Hnd & Hall & Hfull).
  unfold file_links_invariant. cbn [fst snd].
  rewrite fmap_app. cbn [fmap list_fmap fst].
  split.
  { intros u. rewrite elem_of_union, elem_of_singleton, elem_of_app,
      list_elem_of_singleton, Hseen. tauto. }
  split.
  { apply NoDup_app. split; [done|]. split; [|apply NoDup_singleton].
    intros u Hu ->%list_elem_of_singleton. apply Eseen. by apply Hseen. }
  split.
  { apply Forall_app. split.
    - eapply Forall_impl; [exact Hall|]. intros l (? & ? & ? & ?).
      split; [done|]. split; [done|]. split; [done|].
      apply elem_of_app. by left.
    - apply Forall_singleton. cbn [fst snd]. split; [done|]. split; [done|].
      split; [done|]. apply elem_of_app. right. by apply list_elem_of_singleton. }
  intros h' [Hh| ->%list_elem_of_singleton]%elem_of_app Hne Hfile.
  - apply elem_of_app. left. by apply Hfull.
  - apply elem_of_app. right. by apply list_elem_of_singleton.
Qed.

Lemma add_file_links_spec query l :
  ∀ hs st,
    file_links_invariant query hs st →
    match foldM (add_file_link query) l st with
    | Some st' => file_links_invariant query (hs ++ l) st'
    | None => ∃ h, h ∈ l ∧ is_file_link h = None
    end.
Proof.
  induction l as [|h l IH]; intros hs st Hinv; cbn [foldM].
  { by rewrite app_nil_r. }
  pose proof (add_file_link_step query hs st h Hinv) as Hstep.
  destruct (add_file_link query st h) as [st1|]; cbn [mbind option_bind].
  - specialize (IH _ _ Hstep).
    destruct (foldM (add_file_link query) l st1) as [st2|].
    + by rewrite <- app_assoc in IH.
    + destruct IH as (h' & Hh & Hn). exists h'. split; [by right|done].
  - exists h. split; [by left|done].
Qed.

Lemma foldM_map {X Y S : Type} (f : S → Y → option S) (g : X → Y)
    (l : list X) (s : S) :
  foldM (λ s x, f s (g x)) l s = foldM f (map g l) s.
Proof.
  revert s. induction l as [|x l IH]; intros s; cbn [foldM map]; [done|].
  destruct (f s (g x)); cbn [mbind option_bind]; [apply IH|done].
Qed.

Lemma add_organic_hrefs query st r :
  add_organic query st r = foldM (add_file_link query) (hrefs_of r) st.
Proof.
  unfold add_organic, hrefs_of. cbn [foldM].
  destruct (add_file_link query st (href_of (org_row r)));
    cbn [mbind option_bind]; [|done].
  apply (foldM_map (add_file_link query) href_of).
Qed.

Lemma add_rows_spec query rows :
  ∀ hs st,
    file_links_invariant query hs st →
    match foldM (add_organic query) rows st with
    | Some st' => file_links_invariant query (hs ++ flat_map hrefs_of rows) st'
    | None => ∃ r h, r ∈ rows ∧ h ∈ hrefs_of r ∧ is_file_link h = None
    end.
Proof.
  induction rows as [|r rows IH]; intros hs st Hinv; cbn [foldM flat_map].
  { by rewrite app_nil_r. }
  rewrite add_organic_hrefs.
  pose proof (add_file_links_spec query (hrefs_of r) hs st Hinv) as Hstep.
  destruct (foldM (add_file_link query) (hrefs_of r) st) as [st1|];
    cbn [mbind option_bind].
  - specialize (IH _ _ Hstep).
    destruct (foldM (add_organic query) rows st1) as [st2|].
    + by rewrite <- app_assoc in IH.
    + destruct IH as (r' & h & Hr & Hh & Hn). exists r', h.
      split; [by right|done].
  - destruct Hstep as (h & Hh & Hn). exists r, h. split; [by left|done].
Qed.

Lemma file_links_loop_spec serper_search query :
  ∀ (n a : nat) (asked : list nat) st hs,
    file_links_invariant query hs st →
    match file_links_loop serper_search query (seq a n) asked st with
    | Some (asked', st') =>
        ∃ k : nat,
          (k ≤ n)%nat
          ∧ asked' = asked ++ seq a k
          ∧ file_links_invariant query
              (hs ++ offered serper_search query (seq a k)) st'
          ∧ ((k < n)%nat →
             (1 ≤ k)%nat ∧ page_rows serper_search query (a + k - 1) = [])
    | None =>
        ∃ p r h, r ∈ page_rows serper_search query p ∧ h ∈ hrefs_of r
                 ∧ is_file_link h = None
    end.
Proof.
  induction n as [|n IH]; intros a asked st hs Hinv.
  { cbn. exists 0%nat. cbn. rewrite !app_nil_r. split; [done|].
    split; [done|]. split; [done|]. intros; lia. }
  cbn [seq file_links_loop].
  assert (Hstop : page_rows serper_search query a = [] →
    ∃ k : nat,
      (k ≤ S n)%nat
      ∧ asked ++ [a] = asked ++ seq a k
      ∧ file_links_invariant query
          (hs ++ offered serper_search query (seq a k)) st
      ∧ ((k < S n)%nat →
         (1 ≤ k)%nat ∧ page_rows serper_search query (a + k - 1) = [])).
  { intros He. exists 1%nat. unfold offered. cbn [seq flat_map].
    rewrite He. cbn [flat_map app]. rewrite app_nil_r.
    split; [lia|]. split; [done|]. split; [done|].
    intros _. split; [done|]. by replace (a + 1 - 1)%nat with a by lia. }
  unfold page_rows in Hstop at 1.
  destruct (serper_search query a) as [data|] eqn:Es; [|by apply Hstop].
  destruct (default [] data) as [|x l] eqn:Ed; [by apply Hstop|].
  clear Hstop.
  assert (Hrows : page_rows serper_search query a = x :: l).
  { unfold page_rows. by rewrite Es. }
  pose proof (add_rows_spec query (x :: l) hs st Hinv) as Hstep.
  destruct (foldM (add_organic query) (x :: l) st) as [st1|];
    cbn [mbind option_bind].
  2: { destruct Hstep as (r & h & Hr & Hh & Hn). exists a, r, h.
       by rewrite Hrows. }
  specialize (IH (S a) (asked ++ [a]) st1 _ Hstep).
  destruct (file_links_loop serper_search query (seq (S a) n) (asked ++ [a])
              st1) as [[asked' st']|]; [|done].
  destruct IH as (k & Hle & -> & Hinv' & Hlast).
  exists (S k). split; [lia|]. split; [by rewrite <- app_assoc|].
  split.
  - unfold offered in *. cbn [seq flat_map]. rewrite Hrows.
    by rewrite <- app_assoc in Hinv'.
  - intros Hlt. destruct Hlast as [Hk He]; [lia|]. split; [lia|].
    by replace (a + S k - 1)%nat with (S a + k - 1)%nat by lia.
Qed.

End file_links.

(** X19: The links [serper_fetch_file_links] returns are pairwise distinct, not
    empty, classified as files by [is_file_link], paired with the query,
    and taken from the links and the sitelinks of the pages requested;
    every such link of those pages is returned.  The pages requested are
    1, 2, 3 and so on, within the limit.  The call raises only if a link of
    a reply makes [is_file_link] raise. *)
Theorem serper_fetch_file_links_spec `{UrlLib}
    (serper_search : string → nat → reply organic) (query : string)
    (max_pages : Z) :
  match serper_fetch_file_links serper_search query max_pages with
  | Some (asked, links) =>
      (∃ k : nat,
         Z.of_nat k ≤ Z.max 0 (Z.min max_pages SERPER_MAX_PAGES)
         ∧ asked = seq 1 k)
      ∧ NoDup links.*1
      ∧ Forall (λ l, l.2 = query ∧ l.1 ≠ "" ∧ is_file_link l.1 = Some true
                     ∧ l.1 ∈ offered serper_search query asked) links
      ∧ (∀ h, h ∈ offered serper_search query asked → h ≠ "" →
              is_file_link h = Some true → h ∈ links.*1)
  | None =>
      ∃ p r h, r ∈ page_rows serper_search query p ∧ h ∈ hrefs_of r
               ∧ is_file_link h = None
  end.
Proof.
  unfold serper_fetch_file_links, page_range.
  assert (Hinit : file_links_invariant query [] (∅, [])).
  { split; [set_solver|]. split; [constructor|]. split; [constructor|].
    intros h Hh. by apply elem_of_nil in Hh. }
  pose proof (file_links_loop_spec serper_search query
                (Z.to_nat (Z.min max_pages SERPER_MAX_PAGES)) 1 [] (∅, []) []
                Hinit) as Hloop.
  destruct (file_links_loop serper_search query _ [] (∅, []))
    as [[asked st]|]; cbn [mbind option_bind fst snd]; [|done].
  destruct Hloop as (k & Hle & -> & (Hseen & Hnd & Hall & Hfull) & _).
  cbn [app] in *.
  split; [exists k; split; [lia|done]|]. done.
Qed.

(** ** The statistics of the download engine *)

Section statistics.
Context `{UrlLib}.
Implicit Types (st : run_state) (w : world).

Lemma lower_lower (s : string) : Py.lower (Py.lower s) = Py.lower s.
Proof.
  unfold Py.lower. rewrite smap_smap. apply smap_ext. intros c.
  destruct c as [[] [] [] [] [] [] [] []]; vm_compute; reflexivity.
Qed.

Lemma counted_insert (types : gmap string Z) (ext : string) :
  counted (<[ ext := default 0 (types !! ext) + 1 ]> types)
  = counted types + 1.
Proof.
  unfold counted.
  destruct (types !! ext) as [n|] eqn:E; cbn [default from_option];
    unfold id.
  - rewrite <- insert_delete_eq.
    rewrite map_fold_insert_L; [|intros; cbv beta; lia|apply lookup_delete_eq].
    rewrite (map_fold_delete_L _ _ ext n types);
      [cbv beta; lia|intros; cbv beta; lia|done].
  - rewrite map_fold_insert_L; [cbv beta; lia|intros; cbv beta; lia|done].
Qed.

Lemma counted_nonneg (types : gmap string Z) :
  map_Forall (λ ext n, ext ≠ "" ∧ Py.lower ext = ext ∧ 1 ≤ n) types →
  0 ≤ counted types.
Proof.
  unfold counted. induction types as [|k n m Hk IH] using map_ind.
  { intros _. by rewrite map_fold_empty. }
  intros Hall. rewrite map_fold_insert_L; [|intros; cbv beta; lia|done].
  apply map_Forall_insert in Hall as [(_ & _ & Hn) Hall]; [|done].
  specialize (IH Hall). cbv beta. lia.
Qed.

Lemma download_one_stats w (output_dir : string)
    (proxy flaresolverr_url : option string) (resume : bool) st (idx : nat)
    (url : string) st' :
  stats_invariant st →
  download_one w output_dir proxy flaresolverr_url resume st idx url
  = Some st' →
  stats_invariant st'.
Proof.
  intros (Hs & Hw & Hb & Hf & Hall).
  assert (Hfail : ∀ events,
    written events = [] →
    stats_invariant
      (count_failure (mk_run_state (success st) (failed st) (total_bytes st)
                        (file_types st) (fs st) (trace st ++ events)))).
  { intros events He. unfold stats_invariant. cbn.
    rewrite written_app, He, app_nil_r. split; [done|]. split; [done|].
    split; [done|]. split; [lia|done]. }
  unfold download_one.
  destruct (fetch_response w proxy flaresolverr_url idx url) as [resp|];
    [|intros [= <-]; by apply (Hfail [EvRequest url])].
  destruct (response_filename idx url resp) as [filename|];
    [|intros [= <-]; by apply (Hfail [EvRequest url])].
  cbn [record_event fs trace success failed total_bytes file_types].
  destruct (resume && bool_decide (is_Some (fs st !! Py.join output_dir filename))).
  { intros [= <-]. unfold stats_invariant. cbn.
    rewrite !written_app. cbn. rewrite !app_nil_r.
    split; [lia|]. done. }
  destruct (if bool_decide (is_Some (fs st !! Py.join output_dir filename))
            then _ else _) as [[f p]|]; cbn [mbind option_bind]; [|done].
  destruct (can_open w p); cbn [negb];
    [|intros [= <-]; by apply (Hfail [EvRequest url])].
  destruct (body_raises resp); intros [= <-]; unfold stats_invariant; cbn;
    rewrite !written_app; cbn; rewrite ?app_nil_r, ?length_app; cbn [length].
  { split; [done|]. split; [lia|]. split; [done|]. split; [lia|done]. }
  assert (Hlen : 0 ≤ Py.len (fold_left (λ acc chunk : string, acc +:+ chunk)
                              (body resp) "")).
  { unfold Py.len. lia. }
  destruct (Py.is_empty (Py.lower (Py.splitext f).2)) eqn:Ee; cbn [negb].
  { split; [lia|]. split; [lia|]. split; [lia|]. done. }
  apply is_empty_false in Ee. rewrite counted_insert.
  split; [lia|]. split; [lia|]. split; [lia|]. split; [done|].
  apply map_Forall_insert_2; [|done].
  split; [done|]. split; [apply lower_lower|].
  destruct (file_types st !! Py.lower (Py.splitext f).2) as [n|] eqn:En;
    cbn [default from_option]; unfold id; [|lia].
  destruct (Hall _ _ En) as (_ & _ & ?). lia.
Qed.

Lemma download_from_stats w (output_dir : string)
    (proxy flaresolverr_url : option string) (resume : bool) urls :
  ∀ st (idx : nat) st',
    stats_invariant st →
    download_from w output_dir proxy flaresolverr_url resume st idx urls
    = Some st' →
    stats_invariant st'.
Proof.
  induction urls as [|url rest IH]; intros st idx st' Hinv; cbn [download_from].
  { by intros [= <-]. }
  destruct (download_one w output_dir proxy flaresolverr_url resume st idx url)
    as [st1|] eqn:E1; cbn [mbind option_bind]; [|done].
  apply IH. by eapply download_one_stats.
Qed.

End statistics.

(** X20: The statistics [run_downloads] returns are consistent: the counts by
    extension are one at least, their keys are lower-case extensions that
    are not empty, and they add up to no more than the successes and no
    more than the files written (a file skipped, or saved under a name
    without extension, is a success in no count); the total of bytes and
    the failures are not negative. *)
Theorem run_downloads_statistics `{UrlLib} (w : world)
    (files : gmap string string) (urls : list string) (output_dir : string)
    (proxy flaresolverr_url : option string) (resume : bool) :
  ∃ st,
    run_downloads w files urls output_dir proxy flaresolverr_url resume
    = Some st
    ∧ 0 ≤ counted (file_types st) ≤ success st
    ∧ counted (file_types st) ≤ Z.of_nat (length (written (trace st)))
    ∧ 0 ≤ total_bytes st
    ∧ 0 ≤ failed st
    ∧ map_Forall (λ ext n, ext ≠ "" ∧ Py.lower ext = ext ∧ 1 ≤ n)
        (file_types st).
Proof.
  unfold run_downloads.
  destruct (download_from_outcome w output_dir proxy flaresolverr_url resume
              urls (mk_run_state 0 0 0 ∅ files []) 1)
    as (st & paths & E & _).
  exists st. split; [done|].
  destruct (download_from_stats w output_dir proxy flaresolverr_url resume
              urls (mk_run_state 0 0 0 ∅ files []) 1 st)
    as (Hs & Hw & Hb & Hf & Hall); [|done|].
  { unfold stats_invariant, counted. cbn. rewrite map_fold_empty.
    split; [done|]. split; [done|]. split; [done|]. split; [done|].
    apply map_Forall_empty. }
  split; [split; [by apply counted_nonneg|done]|]. done.
Qed.
